(** * The execution core of nautilus_trader: orders, order factory, test clock,
      in-memory execution database and execution engine.

    A shallow embedding of
    - [clock.pyx]     ([TimeEvent], [Timer], [TestTimer], [Clock], [TestClock]),
    - [order.pyx]     ([Order], [AtomicOrder], [OrderFactory]),
    - [execution.pyx] ([InMemoryExecutionDatabase], [ExecutionEngine]).

    Conventions.
    - A Python object that is mutated in place is a record; a method takes the
      record and returns the updated one.
    - A method that can raise returns [Result A]; a constructor that raises
      builds no object.
    - [datetime] and [timedelta] are integers (microseconds, the resolution of
      the Python types; [datetime] counts from the Unix epoch).
    - Identifiers ([OrderId], [Label], ...) are strings: value types compared by
      content.
    - Classes of the repository that the sources only use (GUID factories, the
      order-id generator, positions, floating point decimals) are parameters,
      gathered in type classes. *)

From stdpp Require Import base numbers option list strings pretty gmap sets.

#[local] Open Scope Z_scope.
#[local] Set Warnings "-clear-no-such-hyp".

(** ** Value types *)

Abbreviation datetime := Z (only parsing).
Abbreviation timedelta := Z (only parsing).
Abbreviation GUID := string (only parsing).
Abbreviation Label := string (only parsing).
Abbreviation Handler := string (only parsing).
Abbreviation Symbol := string (only parsing).
Abbreviation OrderId := string (only parsing).
Abbreviation OrderIdBroker := string (only parsing).
Abbreviation AtomicOrderId := string (only parsing).
Abbreviation AccountId := string (only parsing).
Abbreviation PositionId := string (only parsing).
Abbreviation PositionIdBroker := string (only parsing).
Abbreviation ExecutionId := string (only parsing).
Abbreviation StrategyId := string (only parsing).
Abbreviation TraderId := string (only parsing).
Abbreviation Quantity := Z (only parsing).

(** The Unix epoch, [_UNIX_EPOCH]. *)
Definition _UNIX_EPOCH : datetime := 0.

(** A number of seconds as a [timedelta] / an offset from the epoch. *)
Definition seconds (n : Z) : Z := n * 1000000.

(** ** Exceptions *)

Inductive Exn : Set :=
| ConditionFailed   (* a [Condition.*] check of core.correctness failed *)
| AssertionError    (* an [assert] failed *)
| AttributeError    (* attribute access on [None] *)
| TypeError         (* comparison with [None] *)
| OverflowError.    (* a date value out of range *)

Abbreviation Result A := (Exn + A)%type (only parsing).

#[global] Instance result_ret : MRet (sum Exn) := λ A a, inr a.
#[global] Instance result_bind : MBind (sum Exn) :=
  λ A B f m, match m with inl x => inl x | inr a => f a end.

Definition raise {A : Type} (x : Exn) : Result A := inl x.

(** [datetime.min] and [datetime.max]: 0001-01-01 00:00:00 and
    9999-12-31 23:59:59.999999, in microseconds from the epoch. *)
Definition datetime_min : datetime := -62135596800000000.
Definition datetime_max : datetime := 253402300799999999.

(** [d + delta] for a datetime and a timedelta: the sum, or an
    [OverflowError] when the sum is no datetime. *)
Definition datetime_add (d : datetime) (delta : timedelta) : Result datetime :=
  if (datetime_min <=? d + delta) && (d + delta <=? datetime_max)
  then inr (d + delta) else raise OverflowError.

Definition is_ok {A : Type} (r : Result A) : bool :=
  match r with inr _ => true | inl _ => false end.

(** [Condition] of core.correctness, as the sources use it: every check raises
    [ConditionFailed] when its predicate is false and does nothing otherwise. *)
Module Condition.

Definition true_ (predicate : bool) : Result unit :=
  if predicate then mret () else raise ConditionFailed.

Definition not_none {A : Type} (argument : option A) : Result A :=
  match argument with Some a => mret a | None => raise ConditionFailed end.

Definition none {A : Type} (argument : option A) : Result unit :=
  match argument with Some _ => raise ConditionFailed | None => mret () end.

Definition equal `{EqDecision A} (argument1 argument2 : A) : Result unit :=
  true_ (bool_decide (argument1 = argument2)).

Definition not_equal `{EqDecision A} (argument1 argument2 : A) : Result unit :=
  true_ (bool_decide (argument1 ≠ argument2)).

Definition positive_int (value : Z) : Result unit := true_ (0 <? value).

Definition positive (value : Z) : Result unit := true_ (0 <? value).

Definition not_in `{Countable K} {V : Type} (key : K) (d : gmap K V) : Result unit :=
  true_ (bool_decide (d !! key = None)).

Definition not_in_set `{Countable K} (key : K) (s : gset K) : Result unit :=
  true_ (bool_decide (key ∉ s)).

(** [not_in] on an insertion-ordered dictionary (an association list). *)
Definition not_in_dict {V : Type} (key : string) (d : list (string * V)) : Result unit :=
  true_ (bool_decide (key ∉ d.*1)).

End Condition.

(** ** GUID factories (nautilus_trader.common.guid, outside the sources)

    A factory is a state; [generate] returns an identifier and the next state.
    [TestGuidFactory_new] is the state of a fresh [TestGuidFactory()]. *)
Class Guids := {
  GuidFactory : Type;
  guid_generate : GuidFactory → GUID * GuidFactory;
  TestGuidFactory_new : GuidFactory;
}.

(** ** Insertion-ordered dictionaries keyed by labels

    The clock keeps its timers in a Python [dict] and iterates over
    [dict.values()]: the order of insertion matters, so the dictionary is an
    association list with unique keys. *)
Module Dict.
Section dict.
Context {V : Type}.

Definition contains (key : string) (d : list (string * V)) : bool :=
  bool_decide (key ∈ d.*1).

(** [d[key] = v]: overwrite in place when the key is there, else append. *)
Fixpoint set (key : string) (v : V) (d : list (string * V)) : list (string * V) :=
  match d with
  | [] => [(key, v)]
  | (k, w) :: rest =>
      if bool_decide (k = key) then (k, v) :: rest else (k, w) :: set key v rest
  end.

(** [d.pop(key, None)], keeping only the dictionary. *)
Definition pop (key : string) (d : list (string * V)) : list (string * V) :=
  filter (λ kv, kv.1 ≠ key) d.

(** [list(d.values())]. *)
Definition values (d : list (string * V)) : list V := d.*2.

Definition get (key : string) (d : list (string * V)) : option V :=
  snd <$> find (λ kv, bool_decide (kv.1 = key)) d.
End dict.
End Dict.

(** ** Clock and timers (clock.pyx) *)

Module TimeEvent.
(** [TimeEvent(label, event_id, timestamp)] of model.events. *)
Record t := { label : Label; id : GUID; timestamp : datetime }.
End TimeEvent.

Module TimeEventHandler.
(** A bundled event and handler. *)
Record t := { event : TimeEvent.t; handler : Handler }.

Definition __lt__ (self other : t) : bool :=
  TimeEvent.timestamp (event self) <? TimeEvent.timestamp (event other).
End TimeEventHandler.

Module Timer.
Section timer.
Context `{Guids}.

(** [Timer], with the [_guid_factory] that [TestTimer] adds. *)
Record t := {
  label : Label;
  callback : Handler;
  interval : timedelta;
  start_time : datetime;
  next_time : datetime;
  stop_time : option datetime;
  expired : bool;
  _guid_factory : GuidFactory;
}.

Definition set_next_time (v : datetime) (self : t) : t :=
  {| label := label self; callback := callback self; interval := interval self;
     start_time := start_time self; next_time := v; stop_time := stop_time self;
     expired := expired self; _guid_factory := _guid_factory self |}.

Definition set_expired (v : bool) (self : t) : t :=
  {| label := label self; callback := callback self; interval := interval self;
     start_time := start_time self; next_time := next_time self;
     stop_time := stop_time self; expired := v; _guid_factory := _guid_factory self |}.

Definition set_guid_factory (v : GuidFactory) (self : t) : t :=
  {| label := label self; callback := callback self; interval := interval self;
     start_time := start_time self; next_time := next_time self;
     stop_time := stop_time self; expired := expired self; _guid_factory := v |}.

(** [TestTimer.__init__], which runs [Timer.__init__] and then installs a
    [TestGuidFactory()]. [callback] is declared [not None], so it is callable
    here. [if stop_time:] is true of every datetime object. *)
Definition __init__ (label : Label) (callback : Handler) (interval : timedelta)
    (start_time : datetime) (stop_time : option datetime) : Result t :=
  _ ← Condition.positive interval;
  _ ← match stop_time with
      | Some stop =>
          first_time ← datetime_add start_time interval;
          Condition.true_ (first_time <=? stop)
      | None => mret ()
      end;
  next_time ← datetime_add start_time interval;
  mret {| label := label; callback := callback; interval := interval;
          start_time := start_time; next_time := next_time;
          stop_time := stop_time; expired := false;
          _guid_factory := TestGuidFactory_new |}.

(** [Timer.iterate_event]: the next time event; the timer moves on by one
    interval and expires once [now] has reached the stop time. When
    [self.next_time += self.interval] overflows the call raises with the
    timer as it was. *)
Definition iterate_event (self : t) (event_id : GUID) (now : datetime)
    : Result (TimeEvent.t * t) :=
  let event := {| TimeEvent.label := label self; TimeEvent.id := event_id;
                  TimeEvent.timestamp := next_time self |} in
  next_time ← datetime_add (next_time self) (interval self);
  let self := set_next_time next_time self in
  let self := match stop_time self with
              | Some stop => if stop <=? now then set_expired true self else self
              | None => self
              end in
  mret (event, self).

(** The loop of [TestTimer.advance]:
    [while not self.expired and to_time >= self.next_time]. The arguments of
    [iterate_event] are evaluated before the call, so [now] is the time of the
    event being produced and the GUID is taken even when the call raises. The
    result is the list of events with the timer, or the exception that ended
    the loop with the timer as it then is. *)
Fixpoint advance_loop (fuel : nat) (self : t) (to_time : datetime)
    (time_events : list TimeEvent.t) : Exn * t + list TimeEvent.t * t :=
  match fuel with
  | O => inr (time_events, self)
  | S fuel =>
      if negb (expired self) && (next_time self <=? to_time) then
        let g := guid_generate (_guid_factory self) in
        let self := set_guid_factory g.2 self in
        match iterate_event self g.1 (next_time self) with
        | inl x => inl (x, self)
        | inr r => advance_loop fuel r.2 to_time (time_events ++ [r.1])
        end
      else inr (time_events, self)
  end.

(** Iterations the loop can need: one per interval between [next_time] and
    [to_time]. *)
Definition advance_fuel (self : t) (to_time : datetime) : nat :=
  Z.to_nat ((to_time - next_time self) `div` interval self + 1).

(** [TestTimer.advance]. *)
Definition advance (self : t) (to_time : datetime) : Exn * t + list TimeEvent.t * t :=
  advance_loop (advance_fuel self to_time) self to_time [].

(** [TestTimer.cancel]. *)
Definition cancel (self : t) : t := set_expired true self.

End timer.
End Timer.

Module TestClock.
Section clock.
Context `{Guids}.

(** [Clock] with the [_time] of [TestClock]. [_timers] and [_handlers] are
    insertion-ordered dictionaries. [_stack] is the array built from
    [_timers.values()]: its elements are the very timer objects of [_timers].
    The logger ([_log], [is_logger_registered]) is left out: it only reports. *)
Record t := {
  _guid_factory : GuidFactory;
  _timers : list (Label * Timer.t);
  _handlers : list (Label * Handler);
  _stack : list Timer.t;
  _default_handler : option Handler;
  timer_count : Z;
  next_event_time : option datetime;
  next_event_label : option Label;
  is_default_handler_registered : bool;
  _time : datetime;
}.

Definition set_timers (v : list (Label * Timer.t)) (self : t) : t :=
  {| _guid_factory := _guid_factory self; _timers := v; _handlers := _handlers self;
     _stack := _stack self; _default_handler := _default_handler self;
     timer_count := timer_count self; next_event_time := next_event_time self;
     next_event_label := next_event_label self;
     is_default_handler_registered := is_default_handler_registered self;
     _time := _time self |}.

Definition set_handlers (v : list (Label * Handler)) (self : t) : t :=
  {| _guid_factory := _guid_factory self; _timers := _timers self; _handlers := v;
     _stack := _stack self; _default_handler := _default_handler self;
     timer_count := timer_count self; next_event_time := next_event_time self;
     next_event_label := next_event_label self;
     is_default_handler_registered := is_default_handler_registered self;
     _time := _time self |}.

Definition set_stack (v : list Timer.t) (self : t) : t :=
  {| _guid_factory := _guid_factory self; _timers := _timers self;
     _handlers := _handlers self; _stack := v;
     _default_handler := _default_handler self;
     timer_count := timer_count self; next_event_time := next_event_time self;
     next_event_label := next_event_label self;
     is_default_handler_registered := is_default_handler_registered self;
     _time := _time self |}.

Definition set_timer_count (v : Z) (self : t) : t :=
  {| _guid_factory := _guid_factory self; _timers := _timers self;
     _handlers := _handlers self; _stack := _stack self;
     _default_handler := _default_handler self;
     timer_count := v; next_event_time := next_event_time self;
     next_event_label := next_event_label self;
     is_default_handler_registered := is_default_handler_registered self;
     _time := _time self |}.

Definition set_next_event_time (v : option datetime) (self : t) : t :=
  {| _guid_factory := _guid_factory self; _timers := _timers self;
     _handlers := _handlers self; _stack := _stack self;
     _default_handler := _default_handler self;
     timer_count := timer_count self; next_event_time := v;
     next_event_label := next_event_label self;
     is_default_handler_registered := is_default_handler_registered self;
     _time := _time self |}.

Definition set_default_handler (v : option Handler) (self : t) : t :=
  {| _guid_factory := _guid_factory self; _timers := _timers self;
     _handlers := _handlers self; _stack := _stack self;
     _default_handler := v;
     timer_count := timer_count self; next_event_time := next_event_time self;
     next_event_label := next_event_label self;
     is_default_handler_registered := true;
     _time := _time self |}.

(** [TestClock.set_time]. *)
Definition set_time (to_time : datetime) (self : t) : t :=
  {| _guid_factory := _guid_factory self; _timers := _timers self;
     _handlers := _handlers self; _stack := _stack self;
     _default_handler := _default_handler self;
     timer_count := timer_count self; next_event_time := next_event_time self;
     next_event_label := next_event_label self;
     is_default_handler_registered := is_default_handler_registered self;
     _time := to_time |}.

(** [TestClock.__init__(initial_time)]. [_stack] starts as [None]; it is only
    read when [timer_count] is not zero, that is after [_update_stack]. *)
Definition __init__ (initial_time : datetime) : t :=
  {| _guid_factory := TestGuidFactory_new; _timers := []; _handlers := [];
     _stack := []; _default_handler := None; timer_count := 0;
     next_event_time := None; next_event_label := None;
     is_default_handler_registered := false; _time := initial_time |}.

(** [TestClock.time_now]. *)
Definition time_now (self : t) : datetime := _time self.

(** [Clock.register_default_handler]. *)
Definition register_default_handler (handler : Handler) (self : t) : t :=
  set_default_handler (Some handler) self.

(** [Clock.get_timer_labels]. *)
Definition get_timer_labels (self : t) : list Label := (_timers self).*1.

(** [Clock._update_stack]. *)
Definition _update_stack (self : t) : t :=
  let self := set_timer_count (Z.of_nat (length (_timers self))) self in
  set_stack (Dict.values (_timers self)) self.

(** [Clock._update_timing]: the least [next_time] over the stack. With
    [timer_count = len(_stack)], which [_update_stack] establishes, the empty
    stack is met only under [timer_count = 0]. *)
Definition _update_timing (self : t) : t :=
  if timer_count self =? 0 then set_next_event_time None self
  else
    match _stack self with
    | [] => self
    | first :: rest =>
        if timer_count self =? 1 then
          set_next_event_time (Some (Timer.next_time first)) self
        else
          let next_time :=
            fold_left (λ next_time timer,
                         let observed := Timer.next_time timer in
                         if observed <? next_time then observed else next_time)
                      (take (Z.to_nat (timer_count self - 1)) rest)
                      (Timer.next_time first) in
          set_next_event_time (Some next_time) self
    end.

(** [Clock._add_timer]. *)
Definition _add_timer (timer : Timer.t) (handler : Handler) (self : t) : t :=
  let self := set_timers (Dict.set (Timer.label timer) timer (_timers self)) self in
  let self := set_handlers (Dict.set (Timer.label timer) handler (_handlers self)) self in
  _update_timing (_update_stack self).

(** [Clock._remove_timer]. *)
Definition _remove_timer (timer : Timer.t) (self : t) : t :=
  let self := set_timers (Dict.pop (Timer.label timer) (_timers self)) self in
  let self := set_handlers (Dict.pop (Timer.label timer) (_handlers self)) self in
  _update_timing (_update_stack self).

(** [Clock.set_time_alert]: a single-shot timer from now to [alert_time]. *)
Definition set_time_alert (label : Label) (alert_time : datetime)
    (handler : option Handler) (self : t) : Result t :=
  let handler := match handler with None => _default_handler self | h => h end in
  _ ← Condition.not_in_dict label (_timers self);
  _ ← Condition.not_in_dict label (_handlers self);
  let now := time_now self in
  _ ← Condition.true_ (now <=? alert_time);
  handler ← Condition.not_none handler;
  timer ← Timer.__init__ label handler (alert_time - now) now (Some alert_time);
  mret (_add_timer timer handler self).

(** [Clock.set_timer]: a repeating timer. *)
Definition set_timer (label : Label) (interval : timedelta)
    (start_time stop_time : option datetime) (handler : option Handler)
    (self : t) : Result t :=
  let handler := match handler with None => _default_handler self | h => h end in
  _ ← Condition.not_in_dict label (_timers self);
  _ ← Condition.not_in_dict label (_handlers self);
  _ ← Condition.true_ (0 <? interval);
  handler ← Condition.not_none handler;
  let now := time_now self in
  let start_time := default now start_time in
  _ ← match stop_time with
      | Some stop =>
          _ ← Condition.true_ (now <? stop);
          first_time ← datetime_add start_time interval;
          Condition.true_ (first_time <=? stop)
      | None => mret ()
      end;
  timer ← Timer.__init__ label handler interval start_time stop_time;
  mret (_add_timer timer handler self).

(** [Clock.cancel_timer]. *)
Definition cancel_timer (label : Label) (self : t) : t :=
  match Dict.get label (_timers self) with
  | None => self
  | Some timer =>
      let self := set_timers (Dict.pop label (_timers self)) self in
      let timer := Timer.cancel timer in
      let self := set_handlers (Dict.pop label (_handlers self)) self in
      _remove_timer timer self
  end.

(** [Clock.cancel_all_timers]. *)
Definition cancel_all_timers (self : t) : t :=
  fold_left (λ self label, cancel_timer label self) (get_timer_labels self) self.

(** First loop of [advance_time]: every timer of the stack is advanced in
    turn and its events are appended, paired with the timer's callback. A
    timer that raises ends the loop: the timers before it are advanced, the
    timers after it are not. *)
Fixpoint advance_stack (stack : list Timer.t) (to_time : datetime)
    (events : list TimeEventHandler.t)
    : Exn * list Timer.t + list TimeEventHandler.t * list Timer.t :=
  match stack with
  | [] => inr (events, [])
  | timer :: rest =>
      match Timer.advance timer to_time with
      | inl (x, timer) => inl (x, timer :: rest)
      | inr r =>
          let events :=
            events ++ map (λ event, {| TimeEventHandler.event := event;
                                       TimeEventHandler.handler := Timer.callback timer |})
                          r.1 in
          match advance_stack rest to_time events with
          | inl (x, rest) => inl (x, r.2 :: rest)
          | inr rest => inr (rest.1, r.2 :: rest.2)
          end
      end
  end.

(** The timers advanced through the stack are the objects held by [_timers]:
    each entry of the dictionary sees the new state of its timer. *)
Definition write_back (stack : list Timer.t) (timers : list (Label * Timer.t))
    : list (Label * Timer.t) :=
  map (λ kv, (kv.1, default kv.2
                      (find (λ timer, bool_decide (Timer.label timer = kv.1)) stack)))
      timers.

(** Second loop of [advance_time], over the array that was the stack when the
    loop began: expired timers are removed. *)
Definition remove_expired (stack : list Timer.t) (self : t) : t :=
  fold_left (λ self timer, if Timer.expired timer then _remove_timer timer self else self)
            stack self.

(** [TestClock.advance_time], with the clock a raise leaves behind: the
    returned list and the clock, or the exception and the clock. Comparing
    [to_time] with a [next_event_time] of [None] is a [TypeError]. An
    exception out of a timer ends the call inside its first loop: no timer is
    removed and neither the timing nor the time is updated. *)
Definition advance_time_run (to_time : datetime) (self : t)
    : Exn * t + list TimeEventHandler.t * t :=
  if timer_count self =? 0 then inr ([], self) (* No timer events to iterate *)
  else
    match next_event_time self with
    | None => inl (TypeError, self)
    | Some next_event =>
        if to_time <? next_event then inr ([], self) (* No timer events to iterate *)
        else
          (* Iterate timer events *)
          match advance_stack (_stack self) to_time [] with
          | inl (x, stack) =>
              inl (x, set_stack stack (set_timers (write_back stack (_timers self)) self))
          | inr r =>
              let self :=
                set_stack r.2 (set_timers (write_back r.2 (_timers self)) self) in
              (* Remove expired timers *)
              let self := remove_expired r.2 self in
              let self := _update_timing self in
              inr (r.1, set_time to_time self)
          end
    end.

(** [TestClock.advance_time] as a result: what the call returns, with the
    clock, or what it raises. *)
Definition advance_time (to_time : datetime) (self : t)
    : Result (list TimeEventHandler.t * t) :=
  match advance_time_run to_time self with
  | inl (x, _) => inl x
  | inr r => inr r
  end.

End clock.
End TestClock.

(** ** Enumerations (model.c_enums)

    Every enumeration of the model has an [UNDEFINED] member, which the
    constructor of [Order] refuses. The states are those [order.pyx] assigns. *)

Module OrderSide.
Inductive t : Set := UNDEFINED | BUY | SELL.
#[global] Instance eq_dec : EqDecision t.
Proof. solve_decision. Defined.
End OrderSide.

Module OrderType.
Inductive t : Set := UNDEFINED | MARKET | LIMIT | STOP_MARKET | STOP_LIMIT | MIT.
#[global] Instance eq_dec : EqDecision t.
Proof. solve_decision. Defined.
End OrderType.

Module OrderPurpose.
Inductive t : Set := UNDEFINED | NONE | ENTRY | STOP_LOSS | TAKE_PROFIT.
#[global] Instance eq_dec : EqDecision t.
Proof. solve_decision. Defined.
End OrderPurpose.

Module TimeInForce.
Inductive t : Set := UNDEFINED | DAY | GTC | GTD | FOC | IOC.
#[global] Instance eq_dec : EqDecision t.
Proof. solve_decision. Defined.
End TimeInForce.

Module OrderState.
Inductive t : Set :=
| INITIALIZED | INVALID | DENIED | SUBMITTED | ACCEPTED | REJECTED | WORKING
| CANCELLED | EXPIRED | OVER_FILLED | PARTIALLY_FILLED | FILLED.
#[global] Instance eq_dec : EqDecision t.
Proof. solve_decision. Defined.
End OrderState.

(** ** Decimals and prices (core.decimal, model.objects)

    A decimal number [value / 10 ^ precision]. *)
Module Decimal.
Record t := { value : Z; precision : nat }.
#[global] Instance eq_dec : EqDecision t.
Proof. solve_decision. Defined.
Definition zero : t := {| value := 0; precision := 0 |}.
End Decimal.

Abbreviation Price := Decimal.t (only parsing).

(** The slippage is computed in floating point:
    [Decimal(a.as_double() - b.as_double(), precision)]. The rounding of
    doubles is not modelled; the operation is a parameter. *)
Class DoubleArith := {
  decimal_of_double_difference : Price → Price → nat → Decimal.t;
}.

(** ** Order events (model.events)

    The sources read [order_id], [account_id] and [timestamp] of every order
    event, and the fields below of particular events. [account_id] is [None]
    on the events built without one ([OrderInitialized], which [Order.__init__]
    creates from its own arguments). *)
Module Events.

Record OrderInitialized := {
  symbol : Symbol;
  label : option Label;
  order_side : OrderSide.t;
  order_type : OrderType.t;
  quantity : Quantity;
  price : option Price;
  order_purpose : OrderPurpose.t;
  time_in_force : TimeInForce.t;
  expire_time : option datetime;
}.

Inductive Kind :=
| Initialized (init : OrderInitialized)
| OrderInvalid
| OrderDenied
| OrderSubmitted
| OrderAccepted
| OrderRejected
| OrderWorking (order_id_broker : OrderIdBroker)
| OrderCancelled
| OrderExpired
| OrderCancelReject
| OrderModified (order_id_broker : OrderIdBroker) (modified_quantity : Quantity)
    (modified_price : Price)
| OrderFillEvent (execution_id : ExecutionId) (position_id_broker : PositionIdBroker)
    (filled_quantity : Quantity) (average_price : Price).

Record OrderEvent := {
  order_id : OrderId;
  account_id : option AccountId;
  id : GUID;
  timestamp : datetime;
  kind : Kind;
}.

Definition is_fill (event : OrderEvent) : bool :=
  match kind event with OrderFillEvent _ _ _ _ => true | _ => false end.

End Events.

(** ** Orders (order.pyx) *)

(** Order types which require a price to be valid. *)
Definition PRICED_ORDER_TYPES : list OrderType.t :=
  [OrderType.LIMIT; OrderType.STOP_MARKET; OrderType.STOP_LIMIT; OrderType.MIT].

Module Order.
Section order.
Context `{DoubleArith}.

Record t := {
  id : OrderId;
  id_broker : option OrderIdBroker;
  account_id : option AccountId;
  position_id_broker : option PositionIdBroker;
  execution_id : option ExecutionId;
  symbol : Symbol;
  side : OrderSide.t;
  type : OrderType.t;
  quantity : Quantity;
  timestamp : datetime;
  price : option Price;
  label : option Label;
  purpose : OrderPurpose.t;
  time_in_force : TimeInForce.t;
  expire_time : option datetime;
  filled_quantity : Quantity;
  filled_timestamp : option datetime;
  average_price : option Price;
  slippage : Decimal.t;
  state : OrderState.t;
  init_id : GUID;
  is_buy : bool;
  is_sell : bool;
  is_working : bool;
  is_completed : bool;
  _execution_ids : gset ExecutionId;
  _events : list Events.OrderEvent;
  last_event : Events.OrderEvent;
  event_count : Z;
}.

Definition set_id_broker (v : option OrderIdBroker) (self : t) : t :=
  {| id := id self; id_broker := v; account_id := account_id self;
     position_id_broker := position_id_broker self;
     execution_id := execution_id self; symbol := symbol self; side := side self;
     type := type self; quantity := quantity self; timestamp := timestamp self;
     price := price self; label := label self; purpose := purpose self;
     time_in_force := time_in_force self; expire_time := expire_time self;
     filled_quantity := filled_quantity self;
     filled_timestamp := filled_timestamp self;
     average_price := average_price self; slippage := slippage self;
     state := state self; init_id := init_id self; is_buy := is_buy self;
     is_sell := is_sell self; is_working := is_working self;
     is_completed := is_completed self; _execution_ids := _execution_ids self;
     _events := _events self; last_event := last_event self;
     event_count := event_count self |}.

Definition set_account_id (v : option AccountId) (self : t) : t :=
  {| id := id self; id_broker := id_broker self; account_id := v;
     position_id_broker := position_id_broker self;
     execution_id := execution_id self; symbol := symbol self; side := side self;
     type := type self; quantity := quantity self; timestamp := timestamp self;
     price := price self; label := label self; purpose := purpose self;
     time_in_force := time_in_force self; expire_time := expire_time self;
     filled_quantity := filled_quantity self;
     filled_timestamp := filled_timestamp self;
     average_price := average_price self; slippage := slippage self;
     state := state self; init_id := init_id self; is_buy := is_buy self;
     is_sell := is_sell self; is_working := is_working self;
     is_completed := is_completed self; _execution_ids := _execution_ids self;
     _events := _events self; last_event := last_event self;
     event_count := event_count self |}.

Definition set_position_id_broker (v : option PositionIdBroker) (self : t) : t :=
  {| id := id self; id_broker := id_broker self; account_id := account_id self;
     position_id_broker := v; execution_id := execution_id self;
     symbol := symbol self; side := side self; type := type self;
     quantity := quantity self; timestamp := timestamp self; price := price self;
     label := label self; purpose := purpose self;
     time_in_force := time_in_force self; expire_time := expire_time self;
     filled_quantity := filled_quantity self;
     filled_timestamp := filled_timestamp self;
     average_price := average_price self; slippage := slippage self;
     state := state self; init_id := init_id self; is_buy := is_buy self;
     is_sell := is_sell self; is_working := is_working self;
     is_completed := is_completed self; _execution_ids := _execution_ids self;
     _events := _events self; last_event := last_event self;
     event_count := event_count self |}.

Definition set_execution_id (v : option ExecutionId) (self : t) : t :=
  {| id := id self; id_broker := id_broker self; account_id := account_id self;
     position_id_broker := position_id_broker self; execution_id := v;
     symbol := symbol self; side := side self; type := type self;
     quantity := quantity self; timestamp := timestamp self; price := price self;
     label := label self; purpose := purpose self;
     time_in_force := time_in_force self; expire_time := expire_time self;
     filled_quantity := filled_quantity self;
     filled_timestamp := filled_timestamp self;
     average_price := average_price self; slippage := slippage self;
     state := state self; init_id := init_id self; is_buy := is_buy self;
     is_sell := is_sell self; is_working := is_working self;
     is_completed := is_completed self; _execution_ids := _execution_ids self;
     _events := _events self; last_event := last_event self;
     event_count := event_count self |}.

Definition set_quantity (v : Quantity) (self : t) : t :=
  {| id := id self; id_broker := id_broker self; account_id := account_id self;
     position_id_broker := position_id_broker self;
     execution_id := execution_id self; symbol := symbol self; side := side self;
     type := type self; quantity := v; timestamp := timestamp self;
     price := price self; label := label self; purpose := purpose self;
     time_in_force := time_in_force self; expire_time := expire_time self;
     filled_quantity := filled_quantity self;
     filled_timestamp := filled_timestamp self;
     average_price := average_price self; slippage := slippage self;
     state := state self; init_id := init_id self; is_buy := is_buy self;
     is_sell := is_sell self; is_working := is_working self;
     is_completed := is_completed self; _execution_ids := _execution_ids self;
     _events := _events self; last_event := last_event self;
     event_count := event_count self |}.

Definition set_price (v : option Price) (self : t) : t :=
  {| id := id self; id_broker := id_broker self; account_id := account_id self;
     position_id_broker := position_id_broker self;
     execution_id := execution_id self; symbol := symbol self; side := side self;
     type := type self; quantity := quantity self; timestamp := timestamp self;
     price := v; label := label self; purpose := purpose self;
     time_in_force := time_in_force self; expire_time := expire_time self;
     filled_quantity := filled_quantity self;
     filled_timestamp := filled_timestamp self;
     average_price := average_price self; slippage := slippage self;
     state := state self; init_id := init_id self; is_buy := is_buy self;
     is_sell := is_sell self; is_working := is_working self;
     is_completed := is_completed self; _execution_ids := _execution_ids self;
     _events := _events self; last_event := last_event self;
     event_count := event_count self |}.

Definition set_filled_quantity (v : Quantity) (self : t) : t :=
  {| id := id self; id_broker := id_broker self; account_id := account_id self;
     position_id_broker := position_id_broker self;
     execution_id := execution_id self; symbol := symbol self; side := side self;
     type := type self; quantity := quantity self; timestamp := timestamp self;
     price := price self; label := label self; purpose := purpose self;
     time_in_force := time_in_force self; expire_time := expire_time self;
     filled_quantity := v; filled_timestamp := filled_timestamp self;
     average_price := average_price self; slippage := slippage self;
     state := state self; init_id := init_id self; is_buy := is_buy self;
     is_sell := is_sell self; is_working := is_working self;
     is_completed := is_completed self; _execution_ids := _execution_ids self;
     _events := _events self; last_event := last_event self;
     event_count := event_count self |}.

Definition set_filled_timestamp (v : option datetime) (self : t) : t :=
  {| id := id self; id_broker := id_broker self; account_id := account_id self;
     position_id_broker := position_id_broker self;
     execution_id := execution_id self; symbol := symbol self; side := side self;
     type := type self; quantity := quantity self; timestamp := timestamp self;
     price := price self; label := label self; purpose := purpose self;
     time_in_force := time_in_force self; expire_time := expire_time self;
     filled_quantity := filled_quantity self; filled_timestamp := v;
     average_price := average_price self; slippage := slippage self;
     state := state self; init_id := init_id self; is_buy := is_buy self;
     is_sell := is_sell self; is_working := is_working self;
     is_completed := is_completed self; _execution_ids := _execution_ids self;
     _events := _events self; last_event := last_event self;
     event_count := event_count self |}.

Definition set_average_price (v : option Price) (self : t) : t :=
  {| id := id self; id_broker := id_broker self; account_id := account_id self;
     position_id_broker := position_id_broker self;
     execution_id := execution_id self; symbol := symbol self; side := side self;
     type := type self; quantity := quantity self; timestamp := timestamp self;
     price := price self; label := label self; purpose := purpose self;
     time_in_force := time_in_force self; expire_time := expire_time self;
     filled_quantity := filled_quantity self;
     filled_timestamp := filled_timestamp self; average_price := v;
     slippage := slippage self; state := state self; init_id := init_id self;
     is_buy := is_buy self; is_sell := is_sell self; is_working := is_working self;
     is_completed := is_completed self; _execution_ids := _execution_ids self;
     _events := _events self; last_event := last_event self;
     event_count := event_count self |}.

Definition set_slippage (v : Decimal.t) (self : t) : t :=
  {| id := id self; id_broker := id_broker self; account_id := account_id self;
     position_id_broker := position_id_broker self;
     execution_id := execution_id self; symbol := symbol self; side := side self;
     type := type self; quantity := quantity self; timestamp := timestamp self;
     price := price self; label := label self; purpose := purpose self;
     time_in_force := time_in_force self; expire_time := expire_time self;
     filled_quantity := filled_quantity self;
     filled_timestamp := filled_timestamp self;
     average_price := average_price self; slippage := v; state := state self;
     init_id := init_id self; is_buy := is_buy self; is_sell := is_sell self;
     is_working := is_working self; is_completed := is_completed self;
     _execution_ids := _execution_ids self; _events := _events self;
     last_event := last_event self; event_count := event_count self |}.

Definition set_state (v : OrderState.t) (self : t) : t :=
  {| id := id self; id_broker := id_broker self; account_id := account_id self;
     position_id_broker := position_id_broker self;
     execution_id := execution_id self; symbol := symbol self; side := side self;
     type := type self; quantity := quantity self; timestamp := timestamp self;
     price := price self; label := label self; purpose := purpose self;
     time_in_force := time_in_force self; expire_time := expire_time self;
     filled_quantity := filled_quantity self;
     filled_timestamp := filled_timestamp self;
     average_price := average_price self; slippage := slippage self; state := v;
     init_id := init_id self; is_buy := is_buy self; is_sell := is_sell self;
     is_working := is_working self; is_completed := is_completed self;
     _execution_ids := _execution_ids self; _events := _events self;
     last_event := last_event self; event_count := event_count self |}.

Definition set_is_working (v : bool) (self : t) : t :=
  {| id := id self; id_broker := id_broker self; account_id := account_id self;
     position_id_broker := position_id_broker self;
     execution_id := execution_id self; symbol := symbol self; side := side self;
     type := type self; quantity := quantity self; timestamp := timestamp self;
     price := price self; label := label self; purpose := purpose self;
     time_in_force := time_in_force self; expire_time := expire_time self;
     filled_quantity := filled_quantity self;
     filled_timestamp := filled_timestamp self;
     average_price := average_price self; slippage := slippage self;
     state := state self; init_id := init_id self; is_buy := is_buy self;
     is_sell := is_sell self; is_working := v; is_completed := is_completed self;
     _execution_ids := _execution_ids self; _events := _events self;
     last_event := last_event self; event_count := event_count self |}.

Definition set_is_completed (v : bool) (self : t) : t :=
  {| id := id self; id_broker := id_broker self; account_id := account_id self;
     position_id_broker := position_id_broker self;
     execution_id := execution_id self; symbol := symbol self; side := side self;
     type := type self; quantity := quantity self; timestamp := timestamp self;
     price := price self; label := label self; purpose := purpose self;
     time_in_force := time_in_force self; expire_time := expire_time self;
     filled_quantity := filled_quantity self;
     filled_timestamp := filled_timestamp self;
     average_price := average_price self; slippage := slippage self;
     state := state self; init_id := init_id self; is_buy := is_buy self;
     is_sell := is_sell self; is_working := is_working self; is_completed := v;
     _execution_ids := _execution_ids self; _events := _events self;
     last_event := last_event self; event_count := event_count self |}.

Definition set_execution_ids (v : gset ExecutionId) (self : t) : t :=
  {| id := id self; id_broker := id_broker self; account_id := account_id self;
     position_id_broker := position_id_broker self;
     execution_id := execution_id self; symbol := symbol self; side := side self;
     type := type self; quantity := quantity self; timestamp := timestamp self;
     price := price self; label := label self; purpose := purpose self;
     time_in_force := time_in_force self; expire_time := expire_time self;
     filled_quantity := filled_quantity self;
     filled_timestamp := filled_timestamp self;
     average_price := average_price self; slippage := slippage self;
     state := state self; init_id := init_id self; is_buy := is_buy self;
     is_sell := is_sell self; is_working := is_working self;
     is_completed := is_completed self; _execution_ids := v;
     _events := _events self; last_event := last_event self;
     event_count := event_count self |}.

Definition set_events (v : list Events.OrderEvent) (self : t) : t :=
  {| id := id self; id_broker := id_broker self; account_id := account_id self;
     position_id_broker := position_id_broker self;
     execution_id := execution_id self; symbol := symbol self; side := side self;
     type := type self; quantity := quantity self; timestamp := timestamp self;
     price := price self; label := label self; purpose := purpose self;
     time_in_force := time_in_force self; expire_time := expire_time self;
     filled_quantity := filled_quantity self;
     filled_timestamp := filled_timestamp self;
     average_price := average_price self; slippage := slippage self;
     state := state self; init_id := init_id self; is_buy := is_buy self;
     is_sell := is_sell self; is_working := is_working self;
     is_completed := is_completed self; _execution_ids := _execution_ids self;
     _events := v; last_event := last_event self; event_count := event_count self |}.

Definition set_last_event (v : Events.OrderEvent) (self : t) : t :=
  {| id := id self; id_broker := id_broker self; account_id := account_id self;
     position_id_broker := position_id_broker self;
     execution_id := execution_id self; symbol := symbol self; side := side self;
     type := type self; quantity := quantity self; timestamp := timestamp self;
     price := price self; label := label self; purpose := purpose self;
     time_in_force := time_in_force self; expire_time := expire_time self;
     filled_quantity := filled_quantity self;
     filled_timestamp := filled_timestamp self;
     average_price := average_price self; slippage := slippage self;
     state := state self; init_id := init_id self; is_buy := is_buy self;
     is_sell := is_sell self; is_working := is_working self;
     is_completed := is_completed self; _execution_ids := _execution_ids self;
     _events := _events self; last_event := v; event_count := event_count self |}.

Definition set_event_count (v : Z) (self : t) : t :=
  {| id := id self; id_broker := id_broker self; account_id := account_id self;
     position_id_broker := position_id_broker self;
     execution_id := execution_id self; symbol := symbol self; side := side self;
     type := type self; quantity := quantity self; timestamp := timestamp self;
     price := price self; label := label self; purpose := purpose self;
     time_in_force := time_in_force self; expire_time := expire_time self;
     filled_quantity := filled_quantity self;
     filled_timestamp := filled_timestamp self;
     average_price := average_price self; slippage := slippage self;
     state := state self; init_id := init_id self; is_buy := is_buy self;
     is_sell := is_sell self; is_working := is_working self;
     is_completed := is_completed self; _execution_ids := _execution_ids self;
     _events := _events self; last_event := last_event self; event_count := v |}.

(** [Order.__init__]. *)
Definition __init__ (order_id : OrderId) (symbol : Symbol) (order_side : OrderSide.t)
    (order_type : OrderType.t) (quantity : Quantity) (init_id : GUID)
    (timestamp : datetime) (price : option Price) (label : option Label)
    (order_purpose : OrderPurpose.t) (time_in_force : TimeInForce.t)
    (expire_time : option datetime) : Result t :=
  _ ← Condition.not_equal order_side OrderSide.UNDEFINED;
  _ ← Condition.not_equal order_type OrderType.UNDEFINED;
  _ ← Condition.not_equal order_purpose OrderPurpose.UNDEFINED;
  _ ← Condition.not_equal time_in_force TimeInForce.UNDEFINED;
  _ ← Condition.positive_int quantity;
  _ ← (if bool_decide (order_type ∈ PRICED_ORDER_TYPES)
       then (* For orders which require a price *)
         _ ← Condition.not_none price; mret ()
       else (* For orders which require no price *)
         Condition.none price);
  _ ← (if bool_decide (time_in_force = TimeInForce.GTD)
       then (* Must have an expire time *)
         _ ← Condition.not_none expire_time; mret ()
       else mret ());
  let initialized :=
    {| Events.order_id := order_id; Events.account_id := None;
       Events.id := init_id; Events.timestamp := timestamp;
       Events.kind := Events.Initialized
         {| Events.symbol := symbol; Events.label := label;
            Events.order_side := order_side; Events.order_type := order_type;
            Events.quantity := quantity; Events.price := price;
            Events.order_purpose := order_purpose;
            Events.time_in_force := time_in_force;
            Events.expire_time := expire_time |} |} in
  mret {| id := order_id; id_broker := None; account_id := None;
          position_id_broker := None; execution_id := None; symbol := symbol;
          side := order_side; type := order_type; quantity := quantity;
          timestamp := timestamp; price := price; label := label;
          purpose := order_purpose; time_in_force := time_in_force;
          expire_time := expire_time; filled_quantity := 0;
          filled_timestamp := None; average_price := None;
          slippage := Decimal.zero; state := OrderState.INITIALIZED;
          init_id := init_id;
          is_buy := bool_decide (order_side = OrderSide.BUY);
          is_sell := bool_decide (order_side = OrderSide.SELL);
          is_working := false; is_completed := false;
          _execution_ids := ∅; _events := [initialized];
          last_event := initialized; event_count := 1 |}.

(** [Order.create]: an order from an initialized event; an event of another
    kind carries no order to build. *)
Definition create (event : Events.OrderEvent) : Result t :=
  match Events.kind event with
  | Events.Initialized init =>
      __init__ (Events.order_id event) (Events.symbol init) (Events.order_side init)
        (Events.order_type init) (Events.quantity init) (Events.id event)
        (Events.timestamp event) (Events.price init) (Events.label init)
        (Events.order_purpose init) (Events.time_in_force init)
        (Events.expire_time init)
  | _ => raise TypeError
  end.

Definition _set_is_working_true (self : t) : t :=
  set_is_completed false (set_is_working true self).

Definition _set_is_completed_true (self : t) : t :=
  set_is_completed true (set_is_working false self).

Definition _set_filled_state (self : t) : t :=
  if filled_quantity self <? quantity self then
    set_state OrderState.PARTIALLY_FILLED self
  else if filled_quantity self =? quantity self then
    set_state OrderState.FILLED self
  else if quantity self <? filled_quantity self then
    set_state OrderState.OVER_FILLED self
  else self.

(** [Order._set_slippage]. Reading [as_double] of a price that is [None]
    raises; the order is then left as it was. *)
Definition _set_slippage (self : t) : option Exn * t :=
  if bool_decide (type self ∉ PRICED_ORDER_TYPES) then
    (* Slippage only applicable to priced order types *)
    (None, self)
  else
    match average_price self, price self with
    | Some average, Some order_price =>
        if bool_decide (side self = OrderSide.BUY) then
          (None, set_slippage (decimal_of_double_difference average order_price
                                 (Decimal.precision average)) self)
        else
          (None, set_slippage (decimal_of_double_difference order_price average
                                 (Decimal.precision average)) self)
    | _, _ => (Some AttributeError, self)
    end.

(** [Order.apply]. The result is the exception raised, if any, and the order
    as the call leaves it: the two checks come before any assignment, a
    failure of [_set_slippage] comes after the fill has been recorded. *)
Definition apply (event : Events.OrderEvent) (self : t) : option Exn * t :=
  if negb (bool_decide (id self = Events.order_id event)) then
    (Some ConditionFailed, self)
  else if bool_decide (account_id self ≠ None)
          && negb (bool_decide (account_id self = Events.account_id event)) then
    (Some ConditionFailed, self)
  else
    (* Update events *)
    let self := set_events (_events self ++ [event]) self in
    let self := set_last_event event self in
    let self := set_event_count (event_count self + 1) self in
    (* Handle event *)
    match Events.kind event with
    | Events.OrderInvalid =>
        (None, _set_is_completed_true (set_state OrderState.INVALID self))
    | Events.OrderDenied =>
        (None, _set_is_completed_true (set_state OrderState.DENIED self))
    | Events.OrderSubmitted =>
        (None, set_account_id (Events.account_id event)
                 (set_state OrderState.SUBMITTED self))
    | Events.OrderRejected =>
        (None, _set_is_completed_true (set_state OrderState.REJECTED self))
    | Events.OrderAccepted =>
        (None, set_state OrderState.ACCEPTED self)
    | Events.OrderWorking order_id_broker =>
        (None, _set_is_working_true
                 (set_id_broker (Some order_id_broker)
                    (set_state OrderState.WORKING self)))
    | Events.OrderCancelled =>
        (None, _set_is_completed_true (set_state OrderState.CANCELLED self))
    | Events.OrderExpired =>
        (None, _set_is_completed_true (set_state OrderState.EXPIRED self))
    | Events.OrderModified order_id_broker modified_quantity modified_price =>
        (None, set_price (Some modified_price)
                 (set_quantity modified_quantity
                    (set_id_broker (Some order_id_broker) self)))
    | Events.OrderFillEvent execution_id position_id_broker filled_quantity
        average_price =>
        let self := set_position_id_broker (Some position_id_broker) self in
        let self := set_execution_ids ({[execution_id]} ∪ _execution_ids self) self in
        let self := set_execution_id (Some execution_id) self in
        let self := set_filled_quantity filled_quantity self in
        let self := set_filled_timestamp (Some (Events.timestamp event)) self in
        let self := set_average_price (Some average_price) self in
        match _set_slippage self with
        | (Some x, self) => (Some x, self)
        | (None, self) =>
            let self := _set_filled_state self in
            if bool_decide (state self = OrderState.FILLED)
            then (None, _set_is_completed_true self)
            else (None, self)
        end
    | Events.Initialized _ | Events.OrderCancelReject => (None, self)
    end.

(** [Order.get_events]. *)
Definition get_events (self : t) : list Events.OrderEvent := _events self.

(** Events applied one after the other, stopping at the first that raises. *)
Fixpoint apply_all (events : list Events.OrderEvent) (self : t) : option Exn * t :=
  match events with
  | [] => (None, self)
  | event :: rest =>
      match apply event self with
      | (None, self) => apply_all rest self
      | raised => raised
      end
  end.

End order.
End Order.

Module AtomicOrder.
Section atomic_order.
Context `{DoubleArith}.

(** A parent entry order with its child stop-loss and optional take-profit. *)
Record t := {
  id : AtomicOrderId;
  entry : Order.t;
  stop_loss : Order.t;
  take_profit : option Order.t;
  has_take_profit : bool;
  timestamp : datetime;
}.

(** [AtomicOrder.__init__]. *)
Definition __init__ (entry stop_loss : Order.t) (take_profit : option Order.t) : t :=
  {| id := "A" +:+ Order.id entry; entry := entry; stop_loss := stop_loss;
     take_profit := take_profit;
     has_take_profit := bool_decide (take_profit ≠ None);
     timestamp := Order.timestamp entry |}.

End atomic_order.
End AtomicOrder.

(** ** The order-id generator (model.generators, outside the sources)

    [generate] reads the clock of the generator and moves its counter. *)
Class OrderIds := {
  OrderIdGenerator : Type;
  order_id_generate : OrderIdGenerator → datetime → OrderId * OrderIdGenerator;
}.

Module OrderFactory.
Section factory.
Context `{DoubleArith} `{Guids} `{OrderIds}.

Record t := {
  _clock : TestClock.t;
  _guid_factory : GuidFactory;
  _id_generator : OrderIdGenerator;
}.

(** The call [Order(self._id_generator.generate(), ...,
    init_id=self._guid_factory.generate(), timestamp=self._clock.time_now())]
    which every factory method ends in. The arguments are evaluated first: both
    generators have moved on even when the constructor raises. *)
Definition _new_order (symbol : Symbol) (order_side : OrderSide.t)
    (order_type : OrderType.t) (quantity : Quantity) (price : option Price)
    (label : option Label) (order_purpose : OrderPurpose.t)
    (time_in_force : TimeInForce.t) (expire_time : option datetime) (self : t)
    : Result Order.t * t :=
  let now := TestClock.time_now (_clock self) in
  let i := order_id_generate (_id_generator self) now in
  let g := guid_generate (_guid_factory self) in
  (Order.__init__ i.1 symbol order_side order_type quantity g.1 now price label
     order_purpose time_in_force expire_time,
   {| _clock := _clock self; _guid_factory := g.2; _id_generator := i.2 |}).

Definition market (symbol : Symbol) (order_side : OrderSide.t) (quantity : Quantity)
    (label : option Label) (order_purpose : OrderPurpose.t) (self : t)
    : Result Order.t * t :=
  _new_order symbol order_side OrderType.MARKET quantity None label order_purpose
    TimeInForce.DAY None self.

Definition limit (symbol : Symbol) (order_side : OrderSide.t) (quantity : Quantity)
    (price : option Price) (label : option Label) (order_purpose : OrderPurpose.t)
    (time_in_force : TimeInForce.t) (expire_time : option datetime) (self : t)
    : Result Order.t * t :=
  _new_order symbol order_side OrderType.LIMIT quantity price label order_purpose
    time_in_force expire_time self.

Definition stop_market (symbol : Symbol) (order_side : OrderSide.t)
    (quantity : Quantity) (price : option Price) (label : option Label)
    (order_purpose : OrderPurpose.t) (time_in_force : TimeInForce.t)
    (expire_time : option datetime) (self : t) : Result Order.t * t :=
  _new_order symbol order_side OrderType.STOP_MARKET quantity price label
    order_purpose time_in_force expire_time self.

Definition stop_limit (symbol : Symbol) (order_side : OrderSide.t)
    (quantity : Quantity) (price : option Price) (label : option Label)
    (order_purpose : OrderPurpose.t) (time_in_force : TimeInForce.t)
    (expire_time : option datetime) (self : t) : Result Order.t * t :=
  _new_order symbol order_side OrderType.STOP_LIMIT quantity price label
    order_purpose time_in_force expire_time self.

Definition market_if_touched (symbol : Symbol) (order_side : OrderSide.t)
    (quantity : Quantity) (price : option Price) (label : option Label)
    (order_purpose : OrderPurpose.t) (time_in_force : TimeInForce.t)
    (expire_time : option datetime) (self : t) : Result Order.t * t :=
  _new_order symbol order_side OrderType.MIT quantity price label order_purpose
    time_in_force expire_time self.

Definition fill_or_kill (symbol : Symbol) (order_side : OrderSide.t)
    (quantity : Quantity) (label : option Label) (order_purpose : OrderPurpose.t)
    (self : t) : Result Order.t * t :=
  _new_order symbol order_side OrderType.MARKET quantity None label order_purpose
    TimeInForce.FOC None self.

Definition immediate_or_cancel (symbol : Symbol) (order_side : OrderSide.t)
    (quantity : Quantity) (label : option Label) (order_purpose : OrderPurpose.t)
    (self : t) : Result Order.t * t :=
  _new_order symbol order_side OrderType.MARKET quantity None label order_purpose
    TimeInForce.IOC None self.

(** [OrderFactory._create_atomic_order]. *)
Definition _create_atomic_order (entry : Order.t) (price_stop_loss : option Price)
    (price_take_profit : option Price) (original_label : option Label) (self : t)
    : Result AtomicOrder.t * t :=
  let child_order_side :=
    if bool_decide (Order.side entry = OrderSide.SELL)
    then OrderSide.BUY else OrderSide.SELL in
  let label_stop_loss := (λ l, l +:+ "_SL") <$> original_label in
  let label_take_profit := (λ l, l +:+ "_TP") <$> original_label in
  let sl := stop_market (Order.symbol entry) child_order_side (Order.quantity entry)
              price_stop_loss label_stop_loss OrderPurpose.STOP_LOSS
              TimeInForce.GTC None self in
  match sl.1 with
  | inl x => (inl x, sl.2)
  | inr stop_loss =>
      match price_take_profit with
      | None => (inr (AtomicOrder.__init__ entry stop_loss None), sl.2)
      | Some _ =>
          let tp := limit (Order.symbol entry) child_order_side (Order.quantity entry)
                      price_take_profit label_take_profit OrderPurpose.TAKE_PROFIT
                      TimeInForce.GTC None sl.2 in
          match tp.1 with
          | inl x => (inl x, tp.2)
          | inr take_profit =>
              (inr (AtomicOrder.__init__ entry stop_loss (Some take_profit)), tp.2)
          end
      end
  end.

(** [OrderFactory.atomic_market]: the entry is given [entry_label]. *)
Definition atomic_market (symbol : Symbol) (order_side : OrderSide.t)
    (quantity : Quantity) (price_stop_loss : option Price)
    (price_take_profit : option Price) (label : option Label) (self : t)
    : Result AtomicOrder.t * t :=
  let entry_label := (λ l, l +:+ "_E") <$> label in
  let e := market symbol order_side quantity entry_label OrderPurpose.ENTRY self in
  match e.1 with
  | inl x => (inl x, e.2)
  | inr entry_order =>
      _create_atomic_order entry_order price_stop_loss price_take_profit label e.2
  end.

(** [OrderFactory.atomic_limit]: [entry_label] is computed, and the entry is
    given [label]. *)
Definition atomic_limit (symbol : Symbol) (order_side : OrderSide.t)
    (quantity : Quantity) (price_entry : option Price)
    (price_stop_loss : option Price) (price_take_profit : option Price)
    (label : option Label) (time_in_force : TimeInForce.t)
    (expire_time : option datetime) (self : t) : Result AtomicOrder.t * t :=
  let entry_label := (λ l, l +:+ "_E") <$> label in
  let e := limit symbol order_side quantity price_entry label OrderPurpose.ENTRY
             time_in_force expire_time self in
  match e.1 with
  | inl x => (inl x, e.2)
  | inr entry_order =>
      _create_atomic_order entry_order price_stop_loss price_take_profit label e.2
  end.

(** [OrderFactory.atomic_stop_market]: [entry_label] is computed, and the
    entry is given [label]. *)
Definition atomic_stop_market (symbol : Symbol) (order_side : OrderSide.t)
    (quantity : Quantity) (price_entry : option Price)
    (price_stop_loss : option Price) (price_take_profit : option Price)
    (label : option Label) (time_in_force : TimeInForce.t)
    (expire_time : option datetime) (self : t) : Result AtomicOrder.t * t :=
  let entry_label := (λ l, l +:+ "_E") <$> label in
  let e := stop_market symbol order_side quantity price_entry label
             OrderPurpose.ENTRY time_in_force expire_time self in
  match e.1 with
  | inl x => (inl x, e.2)
  | inr entry_order =>
      _create_atomic_order entry_order price_stop_loss price_take_profit label e.2
  end.

End factory.
End OrderFactory.

(** ** Collaborators of the execution engine *)

(** Positions (model.position, outside the sources): objects made from a
    position id and a fill, obeying [apply] and exposing [is_closed] and
    [return_realized]. *)
Class Positions := {
  Position : Type;
  Return : Type;
  Position_new : PositionId → Events.OrderEvent → Position;
  Position_id : Position → PositionId;
  Position_apply : Events.OrderEvent → Position → Position;
  Position_is_closed : Position → bool;
  Position_return_realized : Position → Return;
}.

Module Logging.
Inductive Level : Set := DEBUG | INFO | WARNING | ERROR.

(** The messages of [execution.pyx], by the place that writes them. *)
Inductive Message :=
| AddedStrategy (strategy_id : StrategyId)
| AddedOrder (order_id : OrderId) (strategy_id : StrategyId) (position_id : PositionId)
| AddedPosition (position_id : PositionId)
| DeletedStrategy (strategy_id : StrategyId)
| Resetting
| Reset
| FlushingDatabase
| CannotFindOrder (order_id : OrderId)
| CannotFindPosition (position_id : PositionId)
| CannotGetPositionForOrder (order_id : OrderId)
| CannotGetPositionId (order_id : OrderId)
| RegisteredClient
| RegisteredStrategy (strategy_id : StrategyId)
| DeregisteredStrategy (strategy_id : StrategyId)
| CannotProcessOrderNotFound (event_id : GUID) (order_id : OrderId)
| CannotProcessStrategyNotFound (event_id : GUID)
| CannotProcessPositionIdNotFound (event_id : GUID) (order_id : OrderId)
| CannotProcessNotForThisAccount (event_id : GUID)
| CannotSendToStrategy (strategy_id : StrategyId)
| EventReceived (event_id : GUID).

Definition Entry : Type := Level * Message.
End Logging.

Module Account.
(** An account state event (model.events): the sources read its
    [account_id]. *)
Record AccountStateEvent := {
  event_account_id : AccountId;
  event_id : GUID;
  event_timestamp : datetime;
}.

(** The attributes of [account.pxd] that the engine reads, and the event
    log. *)
Record t := {
  _events : list AccountStateEvent;
  initialized : bool;
  id : option AccountId;
  last_event : option AccountStateEvent;
  last_updated : option datetime;
  event_count : Z;
}.

(** Modelled from the spec: the body of [Account.apply], which is not in the
    sources. The account "holds last-known state from AccountStateEvent" with
    "an append-only event log", and "initialized becomes true after the first
    applied event". *)
Definition apply (event : AccountStateEvent) (self : t) : t :=
  {| _events := _events self ++ [event]; initialized := true;
     id := Some (event_account_id event); last_event := Some event;
     last_updated := Some (event_timestamp event);
     event_count := event_count self + 1 |}.

Definition new : t :=
  {| _events := []; initialized := false; id := None; last_event := None;
     last_updated := None; event_count := 0 |}.
End Account.

(** Events as the engine receives them: order events, position events,
    account state events, and events of any other class. *)
Module Event.
Section event.
Context `{Positions}.

Inductive PositionEventKind : Set := PositionOpened | PositionModified | PositionClosed.

Record PositionEvent := {
  position : Position;
  strategy_id : StrategyId;
  order_fill : Events.OrderEvent;
  id : GUID;
  timestamp : datetime;
  kind : PositionEventKind;
}.

Inductive t :=
| OfOrder (event : Events.OrderEvent)
| OfPosition (event : PositionEvent)
| OfAccount (event : Account.AccountStateEvent)
| Other (id : GUID).

Definition event_id (event : t) : GUID :=
  match event with
  | OfOrder e => Events.id e
  | OfPosition e => id e
  | OfAccount e => Account.event_id e
  | Other i => i
  end.

End event.
End Event.

(** A trading strategy (trade.strategy, outside the sources): its identifier,
    the events handed to its [handle_event], oldest first, and whether an
    execution engine was registered with it. *)
Module TradingStrategy.
Section strategy.
Context `{Positions}.

Record t := {
  id : StrategyId;
  handled : list Event.t;
  has_execution_engine : bool;
}.

Definition handle_event (event : Event.t) (self : t) : t :=
  {| id := id self; handled := handled self ++ [event];
     has_execution_engine := has_execution_engine self |}.

(** Modelled from the spec: registration calls
    [strategy.register_execution_engine(self)]; the strategy then has an
    engine. *)
Definition register_execution_engine (self : t) : t :=
  {| id := id self; handled := handled self; has_execution_engine := true |}.

End strategy.
End TradingStrategy.

(** The portfolio (common.portfolio, outside the sources): the returns given
    to its analyzer and the transactions it was handed. *)
Module Portfolio.
Section portfolio.
Context `{Positions}.

Record t := {
  analyzer_returns : list (datetime * Return);
  transactions : list Account.AccountStateEvent;
}.

Definition add_return (timestamp : datetime) (value : Return) (self : t) : t :=
  {| analyzer_returns := analyzer_returns self ++ [(timestamp, value)];
     transactions := transactions self |}.

Definition handle_transaction (event : Account.AccountStateEvent) (self : t) : t :=
  {| analyzer_returns := analyzer_returns self;
     transactions := transactions self ++ [event] |}.

End portfolio.
End Portfolio.

(** ** The in-memory execution database (execution.pyx)

    The methods of the database are [cpdef void] without an except clause: an
    exception raised inside one ends the call, is reported and is not
    propagated to the caller. A method returns the exception that ended it, if
    any, and the database as the call leaves it. *)
Module InMemoryExecutionDatabase.
Section database.
Context `{DoubleArith} `{Positions}.

Record t := {
  trader_id : TraderId;
  _log : list Logging.Entry;
  _cached_orders : gmap OrderId Order.t;
  _cached_positions : gmap PositionId Position;
  _strategies : gset StrategyId;
  _index_order_position : gmap OrderId PositionId;
  _index_order_strategy : gmap OrderId StrategyId;
  _index_position_strategy : gmap PositionId StrategyId;
  _index_position_orders : gmap PositionId (gset OrderId);
  _index_strategy_orders : gmap StrategyId (gset OrderId);
  _index_strategy_positions : gmap StrategyId (gset PositionId);
  _index_orders : gset OrderId;
  _index_orders_working : gset OrderId;
  _index_orders_completed : gset OrderId;
  _index_positions : gset PositionId;
  _index_positions_open : gset PositionId;
  _index_positions_closed : gset PositionId;
}.

Definition set_log (v : list Logging.Entry) (self : t) : t :=
  {| trader_id := trader_id self; _log := v; _cached_orders := _cached_orders self;
     _cached_positions := _cached_positions self; _strategies := _strategies self;
     _index_order_position := _index_order_position self;
     _index_order_strategy := _index_order_strategy self;
     _index_position_strategy := _index_position_strategy self;
     _index_position_orders := _index_position_orders self;
     _index_strategy_orders := _index_strategy_orders self;
     _index_strategy_positions := _index_strategy_positions self;
     _index_orders := _index_orders self;
     _index_orders_working := _index_orders_working self;
     _index_orders_completed := _index_orders_completed self;
     _index_positions := _index_positions self;
     _index_positions_open := _index_positions_open self;
     _index_positions_closed := _index_positions_closed self |}.

Definition set_cached_orders (v : gmap OrderId Order.t) (self : t) : t :=
  {| trader_id := trader_id self; _log := _log self; _cached_orders := v;
     _cached_positions := _cached_positions self; _strategies := _strategies self;
     _index_order_position := _index_order_position self;
     _index_order_strategy := _index_order_strategy self;
     _index_position_strategy := _index_position_strategy self;
     _index_position_orders := _index_position_orders self;
     _index_strategy_orders := _index_strategy_orders self;
     _index_strategy_positions := _index_strategy_positions self;
     _index_orders := _index_orders self;
     _index_orders_working := _index_orders_working self;
     _index_orders_completed := _index_orders_completed self;
     _index_positions := _index_positions self;
     _index_positions_open := _index_positions_open self;
     _index_positions_closed := _index_positions_closed self |}.

Definition set_cached_positions (v : gmap PositionId Position) (self : t) : t :=
  {| trader_id := trader_id self; _log := _log self;
     _cached_orders := _cached_orders self; _cached_positions := v;
     _strategies := _strategies self;
     _index_order_position := _index_order_position self;
     _index_order_strategy := _index_order_strategy self;
     _index_position_strategy := _index_position_strategy self;
     _index_position_orders := _index_position_orders self;
     _index_strategy_orders := _index_strategy_orders self;
     _index_strategy_positions := _index_strategy_positions self;
     _index_orders := _index_orders self;
     _index_orders_working := _index_orders_working self;
     _index_orders_completed := _index_orders_completed self;
     _index_positions := _index_positions self;
     _index_positions_open := _index_positions_open self;
     _index_positions_closed := _index_positions_closed self |}.

Definition set_strategies (v : gset StrategyId) (self : t) : t :=
  {| trader_id := trader_id self; _log := _log self;
     _cached_orders := _cached_orders self;
     _cached_positions := _cached_positions self; _strategies := v;
     _index_order_position := _index_order_position self;
     _index_order_strategy := _index_order_strategy self;
     _index_position_strategy := _index_position_strategy self;
     _index_position_orders := _index_position_orders self;
     _index_strategy_orders := _index_strategy_orders self;
     _index_strategy_positions := _index_strategy_positions self;
     _index_orders := _index_orders self;
     _index_orders_working := _index_orders_working self;
     _index_orders_completed := _index_orders_completed self;
     _index_positions := _index_positions self;
     _index_positions_open := _index_positions_open self;
     _index_positions_closed := _index_positions_closed self |}.

Definition set_index_order_position (v : gmap OrderId PositionId) (self : t) : t :=
  {| trader_id := trader_id self; _log := _log self;
     _cached_orders := _cached_orders self;
     _cached_positions := _cached_positions self; _strategies := _strategies self;
     _index_order_position := v; _index_order_strategy := _index_order_strategy self;
     _index_position_strategy := _index_position_strategy self;
     _index_position_orders := _index_position_orders self;
     _index_strategy_orders := _index_strategy_orders self;
     _index_strategy_positions := _index_strategy_positions self;
     _index_orders := _index_orders self;
     _index_orders_working := _index_orders_working self;
     _index_orders_completed := _index_orders_completed self;
     _index_positions := _index_positions self;
     _index_positions_open := _index_positions_open self;
     _index_positions_closed := _index_positions_closed self |}.

Definition set_index_order_strategy (v : gmap OrderId StrategyId) (self : t) : t :=
  {| trader_id := trader_id self; _log := _log self;
     _cached_orders := _cached_orders self;
     _cached_positions := _cached_positions self; _strategies := _strategies self;
     _index_order_position := _index_order_position self; _index_order_strategy := v;
     _index_position_strategy := _index_position_strategy self;
     _index_position_orders := _index_position_orders self;
     _index_strategy_orders := _index_strategy_orders self;
     _index_strategy_positions := _index_strategy_positions self;
     _index_orders := _index_orders self;
     _index_orders_working := _index_orders_working self;
     _index_orders_completed := _index_orders_completed self;
     _index_positions := _index_positions self;
     _index_positions_open := _index_positions_open self;
     _index_positions_closed := _index_positions_closed self |}.

Definition set_index_position_strategy (v : gmap PositionId StrategyId) (self : t) : t :=
  {| trader_id := trader_id self; _log := _log self;
     _cached_orders := _cached_orders self;
     _cached_positions := _cached_positions self; _strategies := _strategies self;
     _index_order_position := _index_order_position self;
     _index_order_strategy := _index_order_strategy self;
     _index_position_strategy := v;
     _index_position_orders := _index_position_orders self;
     _index_strategy_orders := _index_strategy_orders self;
     _index_strategy_positions := _index_strategy_positions self;
     _index_orders := _index_orders self;
     _index_orders_working := _index_orders_working self;
     _index_orders_completed := _index_orders_completed self;
     _index_positions := _index_positions self;
     _index_positions_open := _index_positions_open self;
     _index_positions_closed := _index_positions_closed self |}.

Definition set_index_position_orders (v : gmap PositionId (gset OrderId)) (self : t) : t :=
  {| trader_id := trader_id self; _log := _log self;
     _cached_orders := _cached_orders self;
     _cached_positions := _cached_positions self; _strategies := _strategies self;
     _index_order_position := _index_order_position self;
     _index_order_strategy := _index_order_strategy self;
     _index_position_strategy := _index_position_strategy self;
     _index_position_orders := v;
     _index_strategy_orders := _index_strategy_orders self;
     _index_strategy_positions := _index_strategy_positions self;
     _index_orders := _index_orders self;
     _index_orders_working := _index_orders_working self;
     _index_orders_completed := _index_orders_completed self;
     _index_positions := _index_positions self;
     _index_positions_open := _index_positions_open self;
     _index_positions_closed := _index_positions_closed self |}.

Definition set_index_strategy_orders (v : gmap StrategyId (gset OrderId)) (self : t) : t :=
  {| trader_id := trader_id self; _log := _log self;
     _cached_orders := _cached_orders self;
     _cached_positions := _cached_positions self; _strategies := _strategies self;
     _index_order_position := _index_order_position self;
     _index_order_strategy := _index_order_strategy self;
     _index_position_strategy := _index_position_strategy self;
     _index_position_orders := _index_position_orders self;
     _index_strategy_orders := v;
     _index_strategy_positions := _index_strategy_positions self;
     _index_orders := _index_orders self;
     _index_orders_working := _index_orders_working self;
     _index_orders_completed := _index_orders_completed self;
     _index_positions := _index_positions self;
     _index_positions_open := _index_positions_open self;
     _index_positions_closed := _index_positions_closed self |}.

Definition set_index_strategy_positions (v : gmap StrategyId (gset PositionId)) (self : t) : t :=
  {| trader_id := trader_id self; _log := _log self;
     _cached_orders := _cached_orders self;
     _cached_positions := _cached_positions self; _strategies := _strategies self;
     _index_order_position := _index_order_position self;
     _index_order_strategy := _index_order_strategy self;
     _index_position_strategy := _index_position_strategy self;
     _index_position_orders := _index_position_orders self;
     _index_strategy_orders := _index_strategy_orders self;
     _index_strategy_positions := v; _index_orders := _index_orders self;
     _index_orders_working := _index_orders_working self;
     _index_orders_completed := _index_orders_completed self;
     _index_positions := _index_positions self;
     _index_positions_open := _index_positions_open self;
     _index_positions_closed := _index_positions_closed self |}.

Definition set_index_orders (v : gset OrderId) (self : t) : t :=
  {| trader_id := trader_id self; _log := _log self;
     _cached_orders := _cached_orders self;
     _cached_positions := _cached_positions self; _strategies := _strategies self;
     _index_order_position := _index_order_position self;
     _index_order_strategy := _index_order_strategy self;
     _index_position_strategy := _index_position_strategy self;
     _index_position_orders := _index_position_orders self;
     _index_strategy_orders := _index_strategy_orders self;
     _index_strategy_positions := _index_strategy_positions self; _index_orders := v;
     _index_orders_working := _index_orders_working self;
     _index_orders_completed := _index_orders_completed self;
     _index_positions := _index_positions self;
     _index_positions_open := _index_positions_open self;
     _index_positions_closed := _index_positions_closed self |}.

Definition set_index_orders_working (v : gset OrderId) (self : t) : t :=
  {| trader_id := trader_id self; _log := _log self;
     _cached_orders := _cached_orders self;
     _cached_positions := _cached_positions self; _strategies := _strategies self;
     _index_order_position := _index_order_position self;
     _index_order_strategy := _index_order_strategy self;
     _index_position_strategy := _index_position_strategy self;
     _index_position_orders := _index_position_orders self;
     _index_strategy_orders := _index_strategy_orders self;
     _index_strategy_positions := _index_strategy_positions self;
     _index_orders := _index_orders self; _index_orders_working := v;
     _index_orders_completed := _index_orders_completed self;
     _index_positions := _index_positions self;
     _index_positions_open := _index_positions_open self;
     _index_positions_closed := _index_positions_closed self |}.

Definition set_index_orders_completed (v : gset OrderId) (self : t) : t :=
  {| trader_id := trader_id self; _log := _log self;
     _cached_orders := _cached_orders self;
     _cached_positions := _cached_positions self; _strategies := _strategies self;
     _index_order_position := _index_order_position self;
     _index_order_strategy := _index_order_strategy self;
     _index_position_strategy := _index_position_strategy self;
     _index_position_orders := _index_position_orders self;
     _index_strategy_orders := _index_strategy_orders self;
     _index_strategy_positions := _index_strategy_positions self;
     _index_orders := _index_orders self;
     _index_orders_working := _index_orders_working self; _index_orders_completed := v;
     _index_positions := _index_positions self;
     _index_positions_open := _index_positions_open self;
     _index_positions_closed := _index_positions_closed self |}.

Definition set_index_positions (v : gset PositionId) (self : t) : t :=
  {| trader_id := trader_id self; _log := _log self;
     _cached_orders := _cached_orders self;
     _cached_positions := _cached_positions self; _strategies := _strategies self;
     _index_order_position := _index_order_position self;
     _index_order_strategy := _index_order_strategy self;
     _index_position_strategy := _index_position_strategy self;
     _index_position_orders := _index_position_orders self;
     _index_strategy_orders := _index_strategy_orders self;
     _index_strategy_positions := _index_strategy_positions self;
     _index_orders := _index_orders self;
     _index_orders_working := _index_orders_working self;
     _index_orders_completed := _index_orders_completed self; _index_positions := v;
     _index_positions_open := _index_positions_open self;
     _index_positions_closed := _index_positions_closed self |}.

Definition set_index_positions_open (v : gset PositionId) (self : t) : t :=
  {| trader_id := trader_id self; _log := _log self;
     _cached_orders := _cached_orders self;
     _cached_positions := _cached_positions self; _strategies := _strategies self;
     _index_order_position := _index_order_position self;
     _index_order_strategy := _index_order_strategy self;
     _index_position_strategy := _index_position_strategy self;
     _index_position_orders := _index_position_orders self;
     _index_strategy_orders := _index_strategy_orders self;
     _index_strategy_positions := _index_strategy_positions self;
     _index_orders := _index_orders self;
     _index_orders_working := _index_orders_working self;
     _index_orders_completed := _index_orders_completed self;
     _index_positions := _index_positions self; _index_positions_open := v;
     _index_positions_closed := _index_positions_closed self |}.

Definition set_index_positions_closed (v : gset PositionId) (self : t) : t :=
  {| trader_id := trader_id self; _log := _log self;
     _cached_orders := _cached_orders self;
     _cached_positions := _cached_positions self; _strategies := _strategies self;
     _index_order_position := _index_order_position self;
     _index_order_strategy := _index_order_strategy self;
     _index_position_strategy := _index_position_strategy self;
     _index_position_orders := _index_position_orders self;
     _index_strategy_orders := _index_strategy_orders self;
     _index_strategy_positions := _index_strategy_positions self;
     _index_orders := _index_orders self;
     _index_orders_working := _index_orders_working self;
     _index_orders_completed := _index_orders_completed self;
     _index_positions := _index_positions self;
     _index_positions_open := _index_positions_open self; _index_positions_closed := v |}.


Definition log (level : Logging.Level) (message : Logging.Message) (self : t) : t :=
  set_log (_log self ++ [(level, message)]) self.

(** [InMemoryExecutionDatabase.__init__]. *)
Definition __init__ (trader_id : TraderId) : t :=
  {| trader_id := trader_id; _log := []; _cached_orders := ∅;
     _cached_positions := ∅; _strategies := ∅; _index_order_position := ∅;
     _index_order_strategy := ∅; _index_position_strategy := ∅;
     _index_position_orders := ∅; _index_strategy_orders := ∅;
     _index_strategy_positions := ∅; _index_orders := ∅;
     _index_orders_working := ∅; _index_orders_completed := ∅;
     _index_positions := ∅; _index_positions_open := ∅;
     _index_positions_closed := ∅ |}.

(** [index[key].add(x)], or [index[key] = {x}] when the key is new. *)
Definition index_add `{Countable K} `{Countable E} (key : K) (x : E)
    (index : gmap K (gset E)) : gmap K (gset E) :=
  match index !! key with
  | None => <[key := {[x]}]> index
  | Some s => <[key := {[x]} ∪ s]> index
  end.

(* -- COMMANDS *)

Definition add_strategy (strategy : TradingStrategy.t) (self : t) : option Exn * t :=
  if bool_decide (TradingStrategy.id strategy ∈ _strategies self) then
    (Some ConditionFailed, self)
  else
    let self := set_strategies ({[TradingStrategy.id strategy]} ∪ _strategies self) self in
    (None, log Logging.DEBUG (Logging.AddedStrategy (TradingStrategy.id strategy)) self).

Definition add_order (order : Order.t) (strategy_id : StrategyId)
    (position_id : PositionId) (self : t) : option Exn * t :=
  let order_id := Order.id order in
  if bool_decide (is_Some (_cached_orders self !! order_id)) then
    (Some ConditionFailed, self)
  else if bool_decide (order_id ∈ _index_orders self) then
    (Some ConditionFailed, self)
  else if bool_decide (is_Some (_index_order_strategy self !! order_id)) then
    (Some ConditionFailed, self)
  else if bool_decide (is_Some (_index_order_position self !! order_id)) then
    (Some ConditionFailed, self)
  else
    let self := set_cached_orders (<[order_id := order]> (_cached_orders self)) self in
    let self := set_index_orders ({[order_id]} ∪ _index_orders self) self in
    let self := set_index_order_strategy
                  (<[order_id := strategy_id]> (_index_order_strategy self)) self in
    let self := set_index_order_position
                  (<[order_id := position_id]> (_index_order_position self)) self in
    (* Index: PositionStrategy *)
    match
      match _index_position_strategy self !! position_id with
      | None =>
          inr (set_index_position_strategy
                 (<[position_id := strategy_id]> (_index_position_strategy self)) self)
      | Some indexed =>
          if bool_decide (strategy_id = indexed) then inr self else inl self
      end
    with
    | inl self => (Some AssertionError, self)
    | inr self =>
        (* Index: Position - Set[OrderId] *)
        let self := set_index_position_orders
                      (index_add position_id order_id (_index_position_orders self))
                      self in
        (* Index: Strategy - Set[OrderId] *)
        let self := set_index_strategy_orders
                      (index_add strategy_id order_id (_index_strategy_orders self))
                      self in
        (* Index: Strategy - Set[PositionId] *)
        let self := set_index_strategy_positions
                      (index_add strategy_id position_id
                         (_index_strategy_positions self)) self in
        (None, log Logging.DEBUG (Logging.AddedOrder order_id strategy_id position_id)
                 self)
    end.

Definition add_position (position : Position) (strategy_id : StrategyId) (self : t)
    : option Exn * t :=
  let position_id := Position_id position in
  if bool_decide (is_Some (_cached_positions self !! position_id)) then
    (Some ConditionFailed, self)
  else if bool_decide (position_id ∈ _index_positions self) then
    (Some ConditionFailed, self)
  else if bool_decide (position_id ∈ _index_positions_open self) then
    (Some ConditionFailed, self)
  else
    let self := set_cached_positions
                  (<[position_id := position]> (_cached_positions self)) self in
    let self := set_index_positions ({[position_id]} ∪ _index_positions self) self in
    let self := set_index_positions_open
                  ({[position_id]} ∪ _index_positions_open self) self in
    (None, log Logging.DEBUG (Logging.AddedPosition position_id) self).

(** [update_order]: the order is filed by its flags; an order that is neither
    working nor completed is left where it is. *)
Definition update_order (order : Order.t) (self : t) : t :=
  if Order.is_working order then
    let self := set_index_orders_working
                  ({[Order.id order]} ∪ _index_orders_working self) self in
    set_index_orders_completed (_index_orders_completed self ∖ {[Order.id order]}) self
  else if Order.is_completed order then
    let self := set_index_orders_completed
                  ({[Order.id order]} ∪ _index_orders_completed self) self in
    set_index_orders_working (_index_orders_working self ∖ {[Order.id order]}) self
  else self.

Definition update_position (position : Position) (self : t) : t :=
  if Position_is_closed position then
    let self := set_index_positions_closed
                  ({[Position_id position]} ∪ _index_positions_closed self) self in
    set_index_positions_open
      (_index_positions_open self ∖ {[Position_id position]}) self
  else self.

(** Do nothing in memory. *)
Definition update_account (account : Account.t) (self : t) : t := self.

Definition delete_strategy (strategy : TradingStrategy.t) (self : t) : option Exn * t :=
  let strategy_id := TradingStrategy.id strategy in
  if bool_decide (strategy_id ∉ _strategies self) then (Some ConditionFailed, self)
  else
    let self := set_strategies (_strategies self ∖ {[strategy_id]}) self in
    let self := set_index_strategy_orders
                  (delete strategy_id (_index_strategy_orders self)) self in
    let self := set_index_strategy_positions
                  (delete strategy_id (_index_strategy_positions self)) self in
    (None, log Logging.DEBUG (Logging.DeletedStrategy strategy_id) self).

(** [ExecutionDatabase._reset]. *)
Definition _reset (self : t) : t :=
  let self := set_cached_orders ∅ self in
  let self := set_cached_positions ∅ self in
  log Logging.DEBUG Logging.Reset self.

(** [InMemoryExecutionDatabase.reset]: clears all stateful internal values. *)
Definition reset (self : t) : t :=
  let self := log Logging.DEBUG Logging.Resetting self in
  let self := set_strategies ∅ self in
  let self := set_index_order_position ∅ self in
  let self := set_index_order_strategy ∅ self in
  let self := set_index_position_strategy ∅ self in
  let self := set_index_position_orders ∅ self in
  let self := set_index_strategy_orders ∅ self in
  let self := set_index_strategy_positions ∅ self in
  let self := set_index_orders ∅ self in
  let self := set_index_orders_working ∅ self in
  let self := set_index_orders_completed ∅ self in
  let self := set_index_positions ∅ self in
  let self := set_index_positions_open ∅ self in
  let self := set_index_positions_closed ∅ self in
  _reset self.

Definition flush (self : t) : t := log Logging.INFO Logging.FlushingDatabase self.

(* -- QUERIES *)

Definition get_strategy_ids (self : t) : gset StrategyId := _strategies self.

Definition get_order_ids (strategy_id : option StrategyId) (self : t) : gset OrderId :=
  match strategy_id with
  | None => _index_orders self
  | Some strategy_id =>
      match _index_strategy_orders self !! strategy_id with
      | None => ∅
      | Some strategy_order_ids => _index_orders self ∩ strategy_order_ids
      end
  end.

Definition get_order_working_ids (strategy_id : option StrategyId) (self : t)
    : gset OrderId :=
  match strategy_id with
  | None => _index_orders_working self
  | Some strategy_id =>
      match _index_strategy_orders self !! strategy_id with
      | None => ∅
      | Some strategy_order_ids => _index_orders_working self ∩ strategy_order_ids
      end
  end.

Definition get_order_completed_ids (strategy_id : option StrategyId) (self : t)
    : gset OrderId :=
  match strategy_id with
  | None => _index_orders_completed self
  | Some strategy_id =>
      match _index_strategy_orders self !! strategy_id with
      | None => ∅
      | Some strategy_order_ids => _index_orders_completed self ∩ strategy_order_ids
      end
  end.

Definition get_position_open_ids (strategy_id : option StrategyId) (self : t)
    : gset PositionId :=
  match strategy_id with
  | None => _index_positions_open self
  | Some strategy_id =>
      match _index_strategy_positions self !! strategy_id with
      | None => ∅
      | Some strategy_position_ids =>
          _index_positions_open self ∩ strategy_position_ids
      end
  end.

Definition get_strategy_for_order (order_id : OrderId) (self : t) : option StrategyId :=
  _index_order_strategy self !! order_id.

(** [get_order]: a miss is logged. *)
Definition get_order (order_id : OrderId) (self : t) : option Order.t * t :=
  match _cached_orders self !! order_id with
  | None => (None, log Logging.ERROR (Logging.CannotFindOrder order_id) self)
  | Some order => (Some order, self)
  end.

Definition get_position (position_id : PositionId) (self : t) : option Position * t :=
  match _cached_positions self !! position_id with
  | None => (None, log Logging.ERROR (Logging.CannotFindPosition position_id) self)
  | Some position => (Some position, self)
  end.

Definition get_position_id (order_id : OrderId) (self : t) : option PositionId * t :=
  match _index_order_position self !! order_id with
  | None => (None, log Logging.ERROR (Logging.CannotGetPositionId order_id) self)
  | Some position_id => (Some position_id, self)
  end.

Definition get_position_for_order (order_id : OrderId) (self : t)
    : option Position * t :=
  let r := get_position_id order_id self in
  match r.1 with
  | None => (None, log Logging.ERROR (Logging.CannotGetPositionForOrder order_id) r.2)
  | Some position_id => (_cached_positions r.2 !! position_id, r.2)
  end.

Definition order_exists (order_id : OrderId) (self : t) : bool :=
  bool_decide (order_id ∈ _index_orders self).

Definition is_order_working (order_id : OrderId) (self : t) : bool :=
  bool_decide (order_id ∈ _index_orders_working self).

Definition is_order_completed (order_id : OrderId) (self : t) : bool :=
  bool_decide (order_id ∈ _index_orders_completed self).

Definition position_exists (position_id : PositionId) (self : t) : bool :=
  bool_decide (position_id ∈ _index_positions self).

Definition count_orders_total (strategy_id : option StrategyId) (self : t) : nat :=
  size (get_order_ids strategy_id self).

Definition count_orders_working (strategy_id : option StrategyId) (self : t) : nat :=
  size (get_order_working_ids strategy_id self).

Definition count_orders_completed (strategy_id : option StrategyId) (self : t) : nat :=
  size (get_order_completed_ids strategy_id self).

Definition count_positions_open (strategy_id : option StrategyId) (self : t) : nat :=
  size (get_position_open_ids strategy_id self).

Definition get_position_ids (strategy_id : option StrategyId) (self : t)
    : gset PositionId :=
  match strategy_id with
  | None => _index_positions self
  | Some strategy_id =>
      match _index_strategy_positions self !! strategy_id with
      | None => ∅
      | Some strategy_position_ids => _index_positions self ∩ strategy_position_ids
      end
  end.

Definition get_position_closed_ids (strategy_id : option StrategyId) (self : t)
    : gset PositionId :=
  match strategy_id with
  | None => _index_positions_closed self
  | Some strategy_id =>
      match _index_strategy_positions self !! strategy_id with
      | None => ∅
      | Some strategy_position_ids =>
          _index_positions_closed self ∩ strategy_position_ids
      end
  end.

Definition position_exists_for_order (order_id : OrderId) (self : t) : bool :=
  match _index_order_position self !! order_id with
  | None => false
  | Some position_id => bool_decide (position_id ∈ _index_positions self)
  end.

Definition is_position_open (position_id : PositionId) (self : t) : bool :=
  bool_decide (position_id ∈ _index_positions_open self).

Definition is_position_closed (position_id : PositionId) (self : t) : bool :=
  bool_decide (position_id ∈ _index_positions_closed self).

Definition count_positions_total (strategy_id : option StrategyId) (self : t) : nat :=
  size (get_position_ids strategy_id self).

Definition count_positions_closed (strategy_id : option StrategyId) (self : t) : nat :=
  size (get_position_closed_ids strategy_id self).

End database.
End InMemoryExecutionDatabase.

(** ** The execution engine (execution.pyx)

    The private methods of the engine are [cdef void] without an except
    clause, and its public ones [cpdef void] likewise: an exception that
    reaches one of them ends that call, is written out as unraisable and goes
    no further. The methods of the database are [cpdef void] as well: an
    exception inside one is written out there and the engine goes on.
    [unraisable] collects all these exceptions in the order they are written.
    [_registered_strategies] is a dictionary: [_registered_keys] holds its
    keys in the order of their insertion. [_exec_client] is the list of the
    commands passed to the registered client, [None] before
    [register_client]. *)
Module ExecutionEngine.
Section engine.
Context `{DoubleArith} `{Guids} `{Positions}.

(** Commands (model.commands): the fields [_execute_command] reads. *)
Inductive Command :=
| AccountInquiry
| SubmitOrder (order : Order.t) (strategy_id : StrategyId) (position_id : PositionId)
| SubmitAtomicOrder (atomic_order : AtomicOrder.t) (strategy_id : StrategyId)
    (position_id : PositionId)
| ModifyOrder (order_id : OrderId) (modified_quantity : Quantity) (modified_price : Price)
| CancelOrder (order_id : OrderId).

Record t := {
  _clock : TestClock.t;
  _guid_factory : GuidFactory;
  _log : list Logging.Entry;
  _registered_strategies : gmap StrategyId TradingStrategy.t;
  _registered_keys : list StrategyId;
  _exec_client : option (list Command);
  trader_id : TraderId;
  database : InMemoryExecutionDatabase.t;
  account : Account.t;
  portfolio : Portfolio.t;
  command_count : Z;
  event_count : Z;
  unraisable : list Exn;
}.

Definition set_guid_factory (v : GuidFactory) (self : t) : t :=
  {| _clock := _clock self; _guid_factory := v; _log := _log self;
     _registered_strategies := _registered_strategies self;
     _registered_keys := _registered_keys self; _exec_client := _exec_client self;
     trader_id := trader_id self; database := database self; account := account self;
     portfolio := portfolio self; command_count := command_count self;
     event_count := event_count self; unraisable := unraisable self |}.

Definition set_log (v : list Logging.Entry) (self : t) : t :=
  {| _clock := _clock self; _guid_factory := _guid_factory self; _log := v;
     _registered_strategies := _registered_strategies self;
     _registered_keys := _registered_keys self; _exec_client := _exec_client self;
     trader_id := trader_id self; database := database self; account := account self;
     portfolio := portfolio self; command_count := command_count self;
     event_count := event_count self; unraisable := unraisable self |}.

Definition set_registered_strategies (v : gmap StrategyId TradingStrategy.t) (self : t) : t :=
  {| _clock := _clock self; _guid_factory := _guid_factory self; _log := _log self;
     _registered_strategies := v; _registered_keys := _registered_keys self;
     _exec_client := _exec_client self; trader_id := trader_id self;
     database := database self; account := account self; portfolio := portfolio self;
     command_count := command_count self; event_count := event_count self;
     unraisable := unraisable self |}.

Definition set_registered_keys (v : list StrategyId) (self : t) : t :=
  {| _clock := _clock self; _guid_factory := _guid_factory self; _log := _log self;
     _registered_strategies := _registered_strategies self; _registered_keys := v;
     _exec_client := _exec_client self; trader_id := trader_id self;
     database := database self; account := account self; portfolio := portfolio self;
     command_count := command_count self; event_count := event_count self;
     unraisable := unraisable self |}.

Definition set_exec_client (v : option (list Command)) (self : t) : t :=
  {| _clock := _clock self; _guid_factory := _guid_factory self; _log := _log self;
     _registered_strategies := _registered_strategies self;
     _registered_keys := _registered_keys self; _exec_client := v;
     trader_id := trader_id self; database := database self; account := account self;
     portfolio := portfolio self; command_count := command_count self;
     event_count := event_count self; unraisable := unraisable self |}.

Definition set_database (v : InMemoryExecutionDatabase.t) (self : t) : t :=
  {| _clock := _clock self; _guid_factory := _guid_factory self; _log := _log self;
     _registered_strategies := _registered_strategies self;
     _registered_keys := _registered_keys self; _exec_client := _exec_client self;
     trader_id := trader_id self; database := v; account := account self;
     portfolio := portfolio self; command_count := command_count self;
     event_count := event_count self; unraisable := unraisable self |}.

Definition set_account (v : Account.t) (self : t) : t :=
  {| _clock := _clock self; _guid_factory := _guid_factory self; _log := _log self;
     _registered_strategies := _registered_strategies self;
     _registered_keys := _registered_keys self; _exec_client := _exec_client self;
     trader_id := trader_id self; database := database self; account := v;
     portfolio := portfolio self; command_count := command_count self;
     event_count := event_count self; unraisable := unraisable self |}.

Definition set_portfolio (v : Portfolio.t) (self : t) : t :=
  {| _clock := _clock self; _guid_factory := _guid_factory self; _log := _log self;
     _registered_strategies := _registered_strategies self;
     _registered_keys := _registered_keys self; _exec_client := _exec_client self;
     trader_id := trader_id self; database := database self; account := account self;
     portfolio := v; command_count := command_count self;
     event_count := event_count self; unraisable := unraisable self |}.

Definition set_command_count (v : Z) (self : t) : t :=
  {| _clock := _clock self; _guid_factory := _guid_factory self; _log := _log self;
     _registered_strategies := _registered_strategies self;
     _registered_keys := _registered_keys self; _exec_client := _exec_client self;
     trader_id := trader_id self; database := database self; account := account self;
     portfolio := portfolio self; command_count := v; event_count := event_count self;
     unraisable := unraisable self |}.

Definition set_event_count (v : Z) (self : t) : t :=
  {| _clock := _clock self; _guid_factory := _guid_factory self; _log := _log self;
     _registered_strategies := _registered_strategies self;
     _registered_keys := _registered_keys self; _exec_client := _exec_client self;
     trader_id := trader_id self; database := database self; account := account self;
     portfolio := portfolio self; command_count := command_count self;
     event_count := v; unraisable := unraisable self |}.

Definition set_unraisable (v : list Exn) (self : t) : t :=
  {| _clock := _clock self; _guid_factory := _guid_factory self; _log := _log self;
     _registered_strategies := _registered_strategies self;
     _registered_keys := _registered_keys self; _exec_client := _exec_client self;
     trader_id := trader_id self; database := database self; account := account self;
     portfolio := portfolio self; command_count := command_count self;
     event_count := event_count self; unraisable := v |}.


Definition log (level : Logging.Level) (message : Logging.Message) (self : t) : t :=
  set_log (_log self ++ [(level, message)]) self.

(** An exception that cannot leave the method it reached. *)
Definition absorb (raised : option Exn) (self : t) : t :=
  match raised with
  | Some x => set_unraisable (unraisable self ++ [x]) self
  | None => self
  end.

(** [ExecutionEngine.__init__]. *)
Definition __init__ (database : InMemoryExecutionDatabase.t) (account : Account.t)
    (portfolio : Portfolio.t) (clock : TestClock.t) (guid_factory : GuidFactory) : t :=
  {| _clock := clock; _guid_factory := guid_factory; _log := [];
     _registered_strategies := ∅; _registered_keys := []; _exec_client := None;
     trader_id := InMemoryExecutionDatabase.trader_id database;
     database := database; account := account; portfolio := portfolio;
     command_count := 0; event_count := 0; unraisable := [] |}.

(* -- COMMANDS *)

Definition register_client (self : t) : t :=
  log Logging.INFO Logging.RegisteredClient (set_exec_client (Some []) self).

(** [register_strategy]. The dictionary holds the strategy object itself, so
    the entry is the strategy as [register_execution_engine] leaves it. An
    exception of [database.add_strategy] is written out by that method and
    the registration goes on. *)
Definition register_strategy (strategy : TradingStrategy.t) (self : t) : t :=
  let strategy_id := TradingStrategy.id strategy in
  if bool_decide (is_Some (_registered_strategies self !! strategy_id)) then
    absorb (Some ConditionFailed) self
  else
    let self := set_registered_strategies
                  (<[strategy_id := strategy]> (_registered_strategies self)) self in
    let self := set_registered_keys (_registered_keys self ++ [strategy_id]) self in
    let added := InMemoryExecutionDatabase.add_strategy strategy (database self) in
    let self := absorb added.1 (set_database added.2 self) in
    let self := set_registered_strategies
                  (<[strategy_id := TradingStrategy.register_execution_engine strategy]>
                     (_registered_strategies self)) self in
    log Logging.INFO (Logging.RegisteredStrategy strategy_id) self.

Definition deregister_strategy (strategy : TradingStrategy.t) (self : t) : t :=
  let strategy_id := TradingStrategy.id strategy in
  if bool_decide (_registered_strategies self !! strategy_id = None) then
    absorb (Some ConditionFailed) self
  else
    let self := set_registered_strategies
                  (delete strategy_id (_registered_strategies self)) self in
    let self := set_registered_keys
                  (filter (λ key, key ≠ strategy_id) (_registered_keys self)) self in
    log Logging.INFO (Logging.DeregisteredStrategy strategy_id) self.

(** [ExecutionEngine.reset]. *)
Definition reset (self : t) : t :=
  set_database (InMemoryExecutionDatabase.reset (database self)) self.

(** [ExecutionEngine._reset]: clears the stateful values of the engine. No
    method of the sources calls it. *)
Definition _reset (self : t) : t :=
  let self := set_registered_strategies ∅ self in
  let self := set_registered_keys [] self in
  let self := set_command_count 0 self in
  set_event_count 0 self.

(* -- QUERIES *)

(** [list(self._registered_strategies.keys())]: the keys in the order of
    their insertion. *)
Definition registered_strategies (self : t) : list StrategyId :=
  _registered_keys self.

Definition is_strategy_flat (strategy_id : StrategyId) (self : t) : bool :=
  bool_decide (InMemoryExecutionDatabase.count_positions_open (Some strategy_id)
                 (database self) = 0%nat).

Definition is_flat (self : t) : bool :=
  bool_decide (InMemoryExecutionDatabase.count_positions_open None (database self)
               = 0%nat).

(** A command handed to the execution client. Before [register_client] the
    call is made on [None]; what that does hangs on the declaration of
    [_exec_client] in execution.pxd, which is not among the sources, and the
    model has no outcome for it. *)
Definition _to_client (command : Command) (self : t) : option t :=
  match _exec_client self with
  | Some sent => Some (set_exec_client (Some (sent ++ [command])) self)
  | None => None
  end.

(** [self.database.add_order(...)]: an exception of the database method is
    written out by it and the engine goes on. *)
Definition _db_add_order (order : Order.t) (strategy_id : StrategyId)
    (position_id : PositionId) (self : t) : t :=
  let added := InMemoryExecutionDatabase.add_order order strategy_id position_id
                 (database self) in
  absorb added.1 (set_database added.2 self).

Definition _execute_command (command : Command) (self : t) : option t :=
  let self := set_command_count (command_count self + 1) self in
  match command with
  | AccountInquiry => _to_client command self
  | SubmitOrder order strategy_id position_id =>
      _to_client command (_db_add_order order strategy_id position_id self)
  | SubmitAtomicOrder atomic_order strategy_id position_id =>
      let self := _db_add_order (AtomicOrder.entry atomic_order) strategy_id
                    position_id self in
      let self := _db_add_order (AtomicOrder.stop_loss atomic_order) strategy_id
                    position_id self in
      let self :=
        if AtomicOrder.has_take_profit atomic_order then
          match AtomicOrder.take_profit atomic_order with
          | Some take_profit => _db_add_order take_profit strategy_id position_id self
          | None => self
          end
        else self in
      _to_client command self
  | ModifyOrder _ _ _ => _to_client command self
  | CancelOrder _ => _to_client command self
  end.

Definition execute_command (command : Command) (self : t) : option t :=
  _execute_command command self.

(* -- EVENTS *)

Definition _send_to_strategy (event : Event.t) (strategy_id : StrategyId) (self : t)
    : t :=
  match _registered_strategies self !! strategy_id with
  | Some strategy =>
      set_registered_strategies
        (<[strategy_id := TradingStrategy.handle_event event strategy]>
           (_registered_strategies self)) self
  | None => log Logging.ERROR (Logging.CannotSendToStrategy strategy_id) self
  end.

Definition _handle_position_event (event : Event.PositionEvent) (self : t) : t :=
  let self := log Logging.DEBUG (Logging.EventReceived (Event.id event)) self in
  let self :=
    match Event.kind event with
    | Event.PositionClosed =>
        set_portfolio
          (Portfolio.add_return (Event.timestamp event)
             (Position_return_realized (Event.position event)) (portfolio self)) self
    | _ => self
    end in
  _send_to_strategy (Event.OfPosition event) (Event.strategy_id event) self.

Definition _handle_account_event (event : Account.AccountStateEvent) (self : t) : t :=
  let self := log Logging.DEBUG (Logging.EventReceived (Account.event_id event)) self in
  if negb (Account.initialized (account self))
     || bool_decide (Account.id (account self) = Some (Account.event_account_id event))
  then
    let self := set_account (Account.apply event (account self)) self in
    let self := set_database
                  (InMemoryExecutionDatabase.update_account (account self)
                     (database self)) self in
    set_portfolio (Portfolio.handle_transaction event (portfolio self)) self
  else
    log Logging.WARNING
      (Logging.CannotProcessNotForThisAccount (Account.event_id event)) self.

Section reentrant.
(** [self.handle_event], as the methods below call it on the position event
    they derive from a fill. *)
Variable handle_event : Event.t → t → t.

(** The position event built by [_position_opened], [_position_modified] and
    [_position_closed]; then the fill goes to the strategy and the position
    event back into the engine. *)
Definition _position_event (kind : Event.PositionEventKind) (position : Position)
    (strategy_id : StrategyId) (event : Events.OrderEvent) (self : t) : t :=
  let g := guid_generate (_guid_factory self) in
  let self := set_guid_factory g.2 self in
  let position_event :=
    {| Event.position := position; Event.strategy_id := strategy_id;
       Event.order_fill := event; Event.id := g.1;
       Event.timestamp := Events.timestamp event; Event.kind := kind |} in
  let self := _send_to_strategy (Event.OfOrder event) strategy_id self in
  handle_event (Event.OfPosition position_event) self.

Definition _position_opened := _position_event Event.PositionOpened.
Definition _position_modified := _position_event Event.PositionModified.
Definition _position_closed := _position_event Event.PositionClosed.

Definition _handle_order_fill (event : Events.OrderEvent) (strategy_id : StrategyId)
    (self : t) : t :=
  let r := InMemoryExecutionDatabase.get_position_id (Events.order_id event)
             (database self) in
  let self := set_database r.2 self in
  match r.1 with
  | None =>
      (* Cannot process event further *)
      log Logging.ERROR
        (Logging.CannotProcessPositionIdNotFound (Events.id event)
           (Events.order_id event)) self
  | Some position_id =>
      let r := InMemoryExecutionDatabase.get_position_for_order (Events.order_id event)
                 (database self) in
      let self := set_database r.2 self in
      match r.1 with
      | None =>
          (* Position does not exist yet - create position *)
          let position := Position_new position_id event in
          let added := InMemoryExecutionDatabase.add_position position strategy_id
                         (database self) in
          let self := absorb added.1 (set_database added.2 self) in
          _position_opened position strategy_id event self
      | Some position =>
          (* the position of the cache is updated in place *)
          let position := Position_apply event position in
          let db := database self in
          let db := InMemoryExecutionDatabase.set_cached_positions
                      (<[position_id := position]>
                         (InMemoryExecutionDatabase._cached_positions db)) db in
          let self := set_database
                        (InMemoryExecutionDatabase.update_position position db) self in
          if Position_is_closed position
          then _position_closed position strategy_id event self
          else _position_modified position strategy_id event self
      end
  end.

Definition _handle_order_event (event : Events.OrderEvent) (self : t) : t :=
  let r := InMemoryExecutionDatabase.get_order (Events.order_id event) (database self) in
  let self := set_database r.2 self in
  match r.1 with
  | None =>
      (* Cannot process event further *)
      log Logging.ERROR
        (Logging.CannotProcessOrderNotFound (Events.id event) (Events.order_id event))
        self
  | Some order =>
      (* the order of the cache is updated in place *)
      let a := Order.apply event order in
      let db := database self in
      let db := InMemoryExecutionDatabase.set_cached_orders
                  (<[Events.order_id event := a.2]>
                     (InMemoryExecutionDatabase._cached_orders db)) db in
      let self := set_database db self in
      match a.1 with
      | Some x => absorb (Some x) self
      | None =>
          let self := set_database
                        (InMemoryExecutionDatabase.update_order a.2 (database self))
                        self in
          match InMemoryExecutionDatabase.get_strategy_for_order (Events.order_id event)
                  (database self) with
          | None =>
              (* Cannot process event further *)
              log Logging.ERROR (Logging.CannotProcessStrategyNotFound (Events.id event))
                self
          | Some strategy_id =>
              let self := log Logging.DEBUG (Logging.EventReceived (Events.id event))
                            self in
              if Events.is_fill event
              then _handle_order_fill event strategy_id self
              else _send_to_strategy (Event.OfOrder event) strategy_id self
          end
      end
  end.

Definition _handle_event (event : Event.t) (self : t) : t :=
  let self := set_event_count (event_count self + 1) self in
  match event with
  | Event.OfOrder event => _handle_order_event event self
  | Event.OfPosition event => _handle_position_event event self
  | Event.OfAccount event => _handle_account_event event self
  | Event.Other _ => self
  end.

End reentrant.

(** [ExecutionEngine.handle_event], with the depth to which it may call
    itself. *)
Fixpoint handle_event_at (depth : nat) (event : Event.t) (self : t) : t :=
  match depth with
  | O => self
  | S depth => _handle_event (handle_event_at depth) event self
  end.

(** [ExecutionEngine.handle_event]: a fill re-enters the engine once, with the
    position event derived from it, and a position event does not re-enter. *)
Definition handle_event (event : Event.t) (self : t) : t := handle_event_at 2 event self.

End engine.
End ExecutionEngine.

(** * Specification-level notions and sample data *)

(** Orders as a program can hold them: built by the constructor, then taken
    through events that [apply] accepted. *)
Inductive reachable_order `{DoubleArith} : Order.t → Prop :=
| reachable_new order_id symbol order_side order_type quantity init_id timestamp
    price label order_purpose time_in_force expire_time order :
    Order.__init__ order_id symbol order_side order_type quantity init_id timestamp
      price label order_purpose time_in_force expire_time = inr order →
    reachable_order order
| reachable_apply event order order' :
    reachable_order order →
    Order.apply event order = (None, order') →
    reachable_order order'.

(** The volume-weighted average of fills given as (quantity, price) pairs, at
    the precision of the first price: the sum of quantity times price over
    the sum of the quantities. *)
Definition volume_weighted_average (fills : list (Quantity * Price)) : option Price :=
  match fills with
  | [] => None
  | (_, first) :: _ =>
      let volume := foldr (λ f acc, f.1 + acc) 0 fills in
      let turnover := foldr (λ f acc, f.1 * Decimal.value f.2 + acc) 0 fills in
      Some {| Decimal.value := turnover `div` volume;
              Decimal.precision := Decimal.precision first |}
  end.

(** The order index, the order store and the two single-valued order
    indexes hold the same order ids. *)
Definition orders_aligned `{Positions} (db : InMemoryExecutionDatabase.t) : Prop :=
  dom (InMemoryExecutionDatabase._cached_orders db)
    = InMemoryExecutionDatabase._index_orders db
  ∧ dom (InMemoryExecutionDatabase._index_order_strategy db)
      = InMemoryExecutionDatabase._index_orders db
  ∧ dom (InMemoryExecutionDatabase._index_order_position db)
      = InMemoryExecutionDatabase._index_orders db.

(** The working and completed partitions are disjoint parts of the order
    index. *)
Definition orders_partitioned `{Positions} (db : InMemoryExecutionDatabase.t) : Prop :=
  InMemoryExecutionDatabase._index_orders_working db
    ## InMemoryExecutionDatabase._index_orders_completed db
  ∧ InMemoryExecutionDatabase._index_orders_working db
      ⊆ InMemoryExecutionDatabase._index_orders db
  ∧ InMemoryExecutionDatabase._index_orders_completed db
      ⊆ InMemoryExecutionDatabase._index_orders db.

(** Calls of [add_order] and [update_order], in the order they are made. *)
Module DatabaseCalls.
Section calls.
Context `{Positions}.

Inductive Call :=
| AddOrder (order : Order.t) (strategy_id : StrategyId) (position_id : PositionId)
| UpdateOrder (order : Order.t).

Definition make (call : Call) (db : InMemoryExecutionDatabase.t)
    : InMemoryExecutionDatabase.t :=
  match call with
  | AddOrder order strategy_id position_id =>
      (InMemoryExecutionDatabase.add_order order strategy_id position_id db).2
  | UpdateOrder order => InMemoryExecutionDatabase.update_order order db
  end.

Definition run (calls : list Call) (db : InMemoryExecutionDatabase.t)
    : InMemoryExecutionDatabase.t :=
  fold_left (λ db call, make call db) calls db.

(** Every [update_order] is for an order id that an earlier [add_order] was
    given; [added] holds the ids given so far. *)
Fixpoint updates_follow_adds (added : gset OrderId) (calls : list Call) : bool :=
  match calls with
  | [] => true
  | AddOrder order _ _ :: rest => updates_follow_adds ({[Order.id order]} ∪ added) rest
  | UpdateOrder order :: rest =>
      bool_decide (Order.id order ∈ added) && updates_follow_adds added rest
  end.

End calls.
End DatabaseCalls.


(** What an [advance_time] of the test clock gives: the events as (label,
    timestamp in seconds) pairs, with the time of the clock in seconds, its
    [timer_count] and its timer labels. *)
Definition scenario_outcome `{Guids}
    (r : Result (list TimeEventHandler.t * TestClock.t))
    : Result (list (Label * Z) * Z * Z * list Label) :=
  r ← r;
  mret (map (λ e, (TimeEvent.label (TimeEventHandler.event e),
                   TimeEvent.timestamp (TimeEventHandler.event e) `div` 1000000)) r.1,
        TestClock._time r.2 `div` 1000000, TestClock.timer_count r.2,
        TestClock.get_timer_labels r.2).

(** The execution ids that the fill events among [events] carry. *)
Definition fill_execution_ids (events : list Events.OrderEvent) : gset ExecutionId :=
  foldr (λ event ids,
           match Events.kind event with
           | Events.OrderFillEvent execution_id _ _ _ => {[execution_id]} ∪ ids
           | _ => ids
           end) ∅ events.

(** The attributes of an order that are given at construction and that no
    event is meant to change. *)
Definition same_identity (order order' : Order.t) : Prop :=
  Order.id order' = Order.id order
  ∧ Order.symbol order' = Order.symbol order
  ∧ Order.side order' = Order.side order
  ∧ Order.type order' = Order.type order
  ∧ Order.timestamp order' = Order.timestamp order
  ∧ Order.label order' = Order.label order
  ∧ Order.purpose order' = Order.purpose order
  ∧ Order.time_in_force order' = Order.time_in_force order
  ∧ Order.expire_time order' = Order.expire_time order
  ∧ Order.init_id order' = Order.init_id order
  ∧ Order.is_buy order' = Order.is_buy order
  ∧ Order.is_sell order' = Order.is_sell order.

(** The two checks of [apply]: the event is for this order, and for its
    account once the order has one. *)
Definition event_matches (event : Events.OrderEvent) (order : Order.t) : Prop :=
  Order.id order = Events.order_id event
  ∧ (Order.account_id order = None
     ∨ Order.account_id order = Events.account_id event).

#[global] Instance event_matches_dec event order :
  Decision (event_matches event order).
Proof. unfold event_matches. apply _. Defined.

(** The database without its log: its stores and indexes. *)
Definition forget_log `{Positions} (db : InMemoryExecutionDatabase.t)
    : InMemoryExecutionDatabase.t :=
  InMemoryExecutionDatabase.set_log [] db.

(** A clock whose fields agree: the labels of its timers are distinct, every
    timer is kept under its own label and has a positive interval, the stack
    holds the timers of the dictionary in its order, the timer count is their
    number, and the next event time is the least [next_time] of the timers,
    or [None] when there is no timer. *)
Definition clock_consistent `{Guids} (clock : TestClock.t) : Prop :=
  NoDup (TestClock.get_timer_labels clock)
  ∧ (∀ label timer, (label, timer) ∈ TestClock._timers clock →
       Timer.label timer = label ∧ 0 < Timer.interval timer)
  ∧ TestClock._stack clock = Dict.values (TestClock._timers clock)
  ∧ TestClock.timer_count clock = Z.of_nat (length (TestClock._timers clock))
  ∧ match TestClock.next_event_time clock with
    | None => TestClock._timers clock = []
    | Some next_event =>
        (∃ timer, timer ∈ Dict.values (TestClock._timers clock)
                  ∧ Timer.next_time timer = next_event)
        ∧ ∀ timer, timer ∈ Dict.values (TestClock._timers clock) →
                   next_event ≤ Timer.next_time timer
    end.

(** A timer as [TestTimer.advance] to [to_time] leaves it, whether the call
    returns or raises. *)
Definition advanced_timer `{Guids} (to_time : datetime) (timer : Timer.t) : Timer.t :=
  match Timer.advance timer to_time with
  | inl (_, timer) => timer
  | inr r => r.2
  end.

(** The events [TestTimer.advance] to [to_time] returns; none when it
    raises. *)
Definition timer_events `{Guids} (to_time : datetime) (timer : Timer.t)
    : list TimeEvent.t :=
  match Timer.advance timer to_time with
  | inl _ => []
  | inr r => r.1
  end.

(** The timers of a clock after [advance_time] to [to_time] went its whole
    way: every timer advanced, the expired ones dropped. *)
Definition advanced_timers `{Guids} (to_time : datetime)
    (timers : list (Label * Timer.t)) : list (Label * Timer.t) :=
  filter (λ kv, Timer.expired kv.2 = false)
    (map (λ kv, (kv.1, advanced_timer to_time kv.2)) timers).

(** The events [advance_time] returns on that way: those of each timer in
    turn, in the order of the timers, each with the callback of its timer. *)
Definition advanced_events `{Guids} (to_time : datetime)
    (timers : list (Label * Timer.t)) : list TimeEventHandler.t :=
  flat_map (λ kv, map (λ event, {| TimeEventHandler.event := event;
                                   TimeEventHandler.handler := Timer.callback kv.2 |})
                    (timer_events to_time kv.2))
    timers.

(** The next times of the timers of a clock are datetimes, and one interval
    past [to_time] is still a datetime for each of them: no timer of the
    clock can overflow on its way to [to_time]. *)
Definition timers_in_range `{Guids} (to_time : datetime) (clock : TestClock.t)
    : Prop :=
  ∀ label timer, (label, timer) ∈ TestClock._timers clock →
    datetime_min ≤ Timer.next_time timer
    ∧ to_time + Timer.interval timer ≤ datetime_max.

(** What an engine keeps when it neither sends a command nor takes an order
    in or out: its command count and the commands at its client, the order
    ids of its database and the indexes that relate orders, positions and
    strategies. *)
Definition keeps_orders_and_commands `{Guids} `{Positions}
    (engine engine' : ExecutionEngine.t) : Prop :=
  let db := ExecutionEngine.database engine in
  let db' := ExecutionEngine.database engine' in
  ExecutionEngine.command_count engine' = ExecutionEngine.command_count engine
  ∧ ExecutionEngine._exec_client engine' = ExecutionEngine._exec_client engine
  ∧ dom (InMemoryExecutionDatabase._cached_orders db')
    = dom (InMemoryExecutionDatabase._cached_orders db)
  ∧ InMemoryExecutionDatabase._index_orders db'
    = InMemoryExecutionDatabase._index_orders db
  ∧ InMemoryExecutionDatabase._index_order_strategy db'
    = InMemoryExecutionDatabase._index_order_strategy db
  ∧ InMemoryExecutionDatabase._index_order_position db'
    = InMemoryExecutionDatabase._index_order_position db
  ∧ InMemoryExecutionDatabase._index_position_strategy db'
    = InMemoryExecutionDatabase._index_position_strategy db
  ∧ InMemoryExecutionDatabase._index_position_orders db'
    = InMemoryExecutionDatabase._index_position_orders db
  ∧ InMemoryExecutionDatabase._index_strategy_orders db'
    = InMemoryExecutionDatabase._index_strategy_orders db
  ∧ InMemoryExecutionDatabase._index_strategy_positions db'
    = InMemoryExecutionDatabase._index_strategy_positions db
  ∧ InMemoryExecutionDatabase._strategies db'
    = InMemoryExecutionDatabase._strategies db.

(** The position index and the position store hold the same position ids,
    and the open and closed partitions are disjoint parts of the index. *)
Definition positions_partitioned `{Positions} (db : InMemoryExecutionDatabase.t)
    : Prop :=
  dom (InMemoryExecutionDatabase._cached_positions db)
    = InMemoryExecutionDatabase._index_positions db
  ∧ InMemoryExecutionDatabase._index_positions_open db
      ## InMemoryExecutionDatabase._index_positions_closed db
  ∧ InMemoryExecutionDatabase._index_positions_open db
      ∪ InMemoryExecutionDatabase._index_positions_closed db
    = InMemoryExecutionDatabase._index_positions db.

(** Calls of [add_position] and [update_position], in the order they are
    made. *)
Module PositionCalls.
Section calls.
Context `{Positions}.

Inductive Call :=
| AddPosition (position : Position) (strategy_id : StrategyId)
| UpdatePosition (position : Position).

Definition make (call : Call) (db : InMemoryExecutionDatabase.t)
    : InMemoryExecutionDatabase.t :=
  match call with
  | AddPosition position strategy_id =>
      (InMemoryExecutionDatabase.add_position position strategy_id db).2
  | UpdatePosition position => InMemoryExecutionDatabase.update_position position db
  end.

Definition run (calls : list Call) (db : InMemoryExecutionDatabase.t)
    : InMemoryExecutionDatabase.t :=
  fold_left (λ db call, make call db) calls db.

(** Every [update_position] is for a position id that an earlier
    [add_position] was given. *)
Fixpoint updates_follow_adds (added : gset PositionId) (calls : list Call) : bool :=
  match calls with
  | [] => true
  | AddPosition position _ :: rest =>
      updates_follow_adds ({[Position_id position]} ∪ added) rest
  | UpdatePosition position :: rest =>
      bool_decide (Position_id position ∈ added) && updates_follow_adds added rest
  end.

End calls.
End PositionCalls.

Module Sample.

(** Decimals subtracted exactly, standing for the floating point operation. *)
Definition exact_doubles : DoubleArith :=
  {| decimal_of_double_difference a b precision :=
       {| Decimal.value := Decimal.value a - Decimal.value b;
          Decimal.precision := precision |} |}.

(** A GUID factory that hands out the same identifier every time. *)
Definition constant_guids : Guids :=
  {| GuidFactory := unit;
     guid_generate _ := ("00000000-0000-0000-0000-000000000000", ());
     TestGuidFactory_new := () |}.

(** An order-id generator that counts. *)
Definition counting_order_ids : OrderIds :=
  {| OrderIdGenerator := nat;
     order_id_generate count _ := ("O-" +:+ pretty count, S count) |}.

(** Positions that remember the fills they were given; none ever closes. *)
Definition recording_positions : Positions :=
  {| Position := PositionId * list Events.OrderEvent;
     Return := Z;
     Position_new position_id event := (position_id, [event]);
     Position_id position := position.1;
     Position_apply event position := (position.1, position.2 ++ [event]);
     Position_is_closed _ := false;
     Position_return_realized _ := 0 |}.

(** A price with two decimal places, from its number of cents. *)
Definition cents (n : Z) : Price := {| Decimal.value := n; Decimal.precision := 2 |}.

(** A fill event for order ["O-1"]. *)
Definition fill (execution_id : ExecutionId) (filled_quantity : Quantity)
    (average_price : Price) (timestamp : datetime) : Events.OrderEvent :=
  {| Events.order_id := "O-1"; Events.account_id := Some "ACC1";
     Events.id := "E-" +:+ execution_id; Events.timestamp := timestamp;
     Events.kind := Events.OrderFillEvent execution_id "P-B1" filled_quantity
                      average_price |}.

Definition working : Events.OrderEvent :=
  {| Events.order_id := "O-1"; Events.account_id := Some "ACC1";
     Events.id := "E-W"; Events.timestamp := 1;
     Events.kind := Events.OrderWorking "B-1" |}.

(** MARKET BUY 100 of AAPL. *)
Definition market_buy_100 : Result Order.t :=
  Order.__init__ "O-1" "AAPL" OrderSide.BUY OrderType.MARKET 100 "init" 0
    None None OrderPurpose.NONE TimeInForce.DAY None.

(** LIMIT SELL 100 @ 150.00. *)
Definition limit_sell_100 : Result Order.t :=
  Order.__init__ "O-1" "AAPL" OrderSide.SELL OrderType.LIMIT 100 "init" 0
    (Some (cents 15000)) None OrderPurpose.NONE TimeInForce.DAY None.

(** The order that [limit_sell_100] builds. *)
Definition limit_sell_100_order : Order.t :=
  let initialized :=
    {| Events.order_id := "O-1"; Events.account_id := None; Events.id := "init";
       Events.timestamp := 0;
       Events.kind := Events.Initialized
         {| Events.symbol := "AAPL"; Events.label := None;
            Events.order_side := OrderSide.SELL; Events.order_type := OrderType.LIMIT;
            Events.quantity := 100; Events.price := Some (cents 15000);
            Events.order_purpose := OrderPurpose.NONE;
            Events.time_in_force := TimeInForce.DAY; Events.expire_time := None |} |} in
  {| Order.id := "O-1"; Order.id_broker := None; Order.account_id := None;
     Order.position_id_broker := None; Order.execution_id := None;
     Order.symbol := "AAPL"; Order.side := OrderSide.SELL;
     Order.type := OrderType.LIMIT; Order.quantity := 100; Order.timestamp := 0;
     Order.price := Some (cents 15000); Order.label := None;
     Order.purpose := OrderPurpose.NONE; Order.time_in_force := TimeInForce.DAY;
     Order.expire_time := None; Order.filled_quantity := 0;
     Order.filled_timestamp := None; Order.average_price := None;
     Order.slippage := Decimal.zero; Order.state := OrderState.INITIALIZED;
     Order.init_id := "init"; Order.is_buy := false; Order.is_sell := true;
     Order.is_working := false; Order.is_completed := false;
     Order._execution_ids := ∅; Order._events := [initialized];
     Order.last_event := initialized; Order.event_count := 1 |}.

(** A factory at the epoch, with fresh generators. *)
Definition factory : @OrderFactory.t constant_guids counting_order_ids :=
  {| OrderFactory._clock := @TestClock.__init__ constant_guids _UNIX_EPOCH;
     OrderFactory._guid_factory := (() : @GuidFactory constant_guids);
     OrderFactory._id_generator := (0%nat : @OrderIdGenerator counting_order_ids) |}.

(** An engine over an empty database, with no strategy and no client. *)
Definition engine : @ExecutionEngine.t constant_guids recording_positions :=
  @ExecutionEngine.__init__ constant_guids recording_positions
    (@InMemoryExecutionDatabase.__init__ recording_positions "T1") Account.new
    {| Portfolio.analyzer_returns := []; Portfolio.transactions := [] |}
    (@TestClock.__init__ constant_guids _UNIX_EPOCH)
    (() : @GuidFactory constant_guids).

(** Strategy ["S-1"], before it is registered anywhere. *)
Definition strategy : @TradingStrategy.t recording_positions :=
  {| TradingStrategy.id := "S-1"; TradingStrategy.handled := [];
     TradingStrategy.has_execution_engine := false |}.

(** [engine] with [strategy] and a client registered, after the SubmitOrder
    of [limit_sell_100_order] for position ["P-1"]. *)
Definition submit_limit_sell_100 : ExecutionEngine.Command :=
  ExecutionEngine.SubmitOrder limit_sell_100_order "S-1" "P-1".

Definition trading_engine : @ExecutionEngine.t constant_guids recording_positions :=
  default engine
    (@ExecutionEngine.execute_command constant_guids recording_positions
       submit_limit_sell_100
       (ExecutionEngine.register_client
          (ExecutionEngine.register_strategy strategy engine))).

(** An order event for order ["O-1"] on account ["ACC2"]. *)
Definition accepted_on_other_account : Events.OrderEvent :=
  {| Events.order_id := "O-1"; Events.account_id := Some "ACC2";
     Events.id := "E-A"; Events.timestamp := 2; Events.kind := Events.OrderAccepted |}.

Definition submitted : Events.OrderEvent :=
  {| Events.order_id := "O-1"; Events.account_id := Some "ACC1";
     Events.id := "E-S"; Events.timestamp := 1; Events.kind := Events.OrderSubmitted |}.

End Sample.

(** * Properties of orders *)

Section order_properties.
Context `{DoubleArith}.

(** A new order is [INITIALIZED], neither working nor completed. *)
Lemma Order_init_state order_id symbol order_side order_type quantity init_id
    timestamp price label order_purpose time_in_force expire_time order :
  Order.__init__ order_id symbol order_side order_type quantity init_id timestamp
    price label order_purpose time_in_force expire_time = inr order →
  Order.state order = OrderState.INITIALIZED
  ∧ Order.is_working order = false ∧ Order.is_completed order = false.
Proof.
  unfold Order.__init__, Condition.not_equal, Condition.positive_int,
    Condition.not_none, Condition.none, Condition.true_, raise, mbind,
    result_bind, mret, result_ret.
  intros Hinit.
  repeat case_match; simplify_eq; done.
Qed.

(** One accepted event keeps "a FILLED order is completed and not working". *)
Lemma Order_apply_filled_step event order order' :
  Order.apply event order = (None, order') →
  (Order.state order = OrderState.FILLED →
     Order.is_completed order = true ∧ Order.is_working order = false) →
  Order.state order' = OrderState.FILLED →
  Order.is_completed order' = true ∧ Order.is_working order' = false.
Proof.
  unfold Order.apply, Order._set_slippage, Order._set_filled_state.
  intros Happly Hinv.
  repeat (case_match; simplify_eq/=); simplify_eq/=; try done.
  all: by intros [=].
Qed.

(** An accepted fill sets the fill fields from the event and derives the state
    from the comparison of the event's quantity with the order's. *)
Lemma Order_apply_fill event execution_id position_id_broker filled_quantity
    average_price order order' :
  Events.kind event
    = Events.OrderFillEvent execution_id position_id_broker filled_quantity
        average_price →
  Order.apply event order = (None, order') →
  Order.quantity order' = Order.quantity order
  ∧ Order.filled_quantity order' = filled_quantity
  ∧ Order.average_price order' = Some average_price
  ∧ Order.filled_timestamp order' = Some (Events.timestamp event)
  ∧ Order.execution_id order' = Some execution_id
  ∧ Order.position_id_broker order' = Some position_id_broker
  ∧ Order._execution_ids order' = {[execution_id]} ∪ Order._execution_ids order
  ∧ Order.state order'
    = (if filled_quantity <? Order.quantity order then OrderState.PARTIALLY_FILLED
       else if filled_quantity =? Order.quantity order then OrderState.FILLED
       else OrderState.OVER_FILLED)
  ∧ (Order.state order' = OrderState.FILLED →
       Order.is_completed order' = true ∧ Order.is_working order' = false)
  ∧ (Order.state order' ≠ OrderState.FILLED →
       Order.is_completed order' = Order.is_completed order
       ∧ Order.is_working order' = Order.is_working order).
Proof.
  unfold Order.apply, Order._set_slippage, Order._set_filled_state.
  intros Hkind Happly. rewrite Hkind in Happly.
  repeat (case_match; simplify_eq/=); simplify_eq/=;
    repeat split; try done; lia.
Qed.

(** C1 (amended). Along every sequence of accepted events, an order whose
    state is FILLED is completed and not working. A fill that leaves the order
    PARTIALLY_FILLED or OVER_FILLED touches neither flag: the order is then
    working, or completed, exactly when it was before that fill. *)
Theorem filled_order_is_completed order :
  reachable_order order →
  (Order.state order = OrderState.FILLED →
     Order.is_completed order = true ∧ Order.is_working order = false)
  ∧ (∀ event order',
       Events.is_fill event = true →
       Order.apply event order = (None, order') →
       Order.state order' ≠ OrderState.FILLED →
       (Order.state order' = OrderState.PARTIALLY_FILLED
        ∨ Order.state order' = OrderState.OVER_FILLED)
       ∧ Order.is_working order' = Order.is_working order
       ∧ Order.is_completed order' = Order.is_completed order).
Proof.
  intros Hreach. split.
  - induction Hreach as [???????????? order Hinit|event order order' _ IH Happly].
    + apply Order_init_state in Hinit as (-> & _). by intros [=].
    + by eapply Order_apply_filled_step.
  - intros event order' Hfill Happly Hstate.
    unfold Events.is_fill in Hfill.
    destruct (Events.kind event) as [| | | | | | | | | | |x pb q p] eqn:Hkind; try done.
    destruct (Order_apply_fill _ _ _ _ _ _ _ Hkind Happly)
      as (_ & _ & _ & _ & _ & _ & _ & Hst & _ & Hflags).
    destruct (Hflags Hstate) as [-> ->]. split; [|done].
    rewrite Hst in Hstate |- *. repeat case_match; auto. done.
Qed.

(** C9. A fill that [apply] accepts sets [filled_quantity], [average_price],
    [filled_timestamp], [execution_id] and [position_id_broker] to the values
    the event carries, whatever they were before, and adds the event's
    execution id to the set of execution ids. *)
Theorem apply_fill_overwrites event execution_id position_id_broker filled_quantity
    average_price order order' :
  Events.kind event
    = Events.OrderFillEvent execution_id position_id_broker filled_quantity
        average_price →
  Order.apply event order = (None, order') →
  Order.filled_quantity order' = filled_quantity
  ∧ Order.average_price order' = Some average_price
  ∧ Order.filled_timestamp order' = Some (Events.timestamp event)
  ∧ Order.execution_id order' = Some execution_id
  ∧ Order.position_id_broker order' = Some position_id_broker
  ∧ Order._execution_ids order' = {[execution_id]} ∪ Order._execution_ids order.
Proof.
  intros Hkind Happly.
  destruct (Order_apply_fill _ _ _ _ _ _ _ Hkind Happly)
    as (_ & ? & ? & ? & ? & ? & ? & _). done.
Qed.

(** Fills do not change the quantity of the order. *)
Lemma Order_apply_all_fills_quantity events order order' :
  Forall (λ event, Events.is_fill event = true) events →
  Order.apply_all events order = (None, order') →
  Order.quantity order' = Order.quantity order.
Proof.
  intros Hfills. revert order.
  induction Hfills as [|event events Hfill _ IH]; intros order Hall; simpl in Hall.
  - by simplify_eq.
  - destruct (Order.apply event order) as [[x|] order1] eqn:Happly; [done|].
    unfold Events.is_fill in Hfill.
    destruct (Events.kind event) eqn:Hkind; try done.
    destruct (Order_apply_fill _ _ _ _ _ _ _ Hkind Happly) as (Hq & _).
    rewrite (IH _ Hall). done.
Qed.

(** C2 (amended). A single fill event whose [filled_quantity] equals the
    quantity of the order puts it into FILLED. For a sequence of fill events
    applied in turn, the outcome is that of the last event alone: the order
    holds its [filled_quantity] and its [average_price], and the state is
    FILLED exactly when that quantity equals the order's. No quantity is summed
    and no average is computed: the events have to carry the cumulative
    quantity and the average over the fills so far. *)
Theorem last_fill_decides order :
  (∀ event execution_id position_id_broker average_price order',
     Events.kind event
       = Events.OrderFillEvent execution_id position_id_broker
           (Order.quantity order) average_price →
     Order.apply event order = (None, order') →
     Order.state order' = OrderState.FILLED
     ∧ Order.is_completed order' = true
     ∧ Order.average_price order' = Some average_price)
  ∧ (∀ events event execution_id position_id_broker filled_quantity average_price
       order',
       Forall (λ event, Events.is_fill event = true) events →
       last events = Some event →
       Events.kind event
         = Events.OrderFillEvent execution_id position_id_broker filled_quantity
             average_price →
       Order.apply_all events order = (None, order') →
       Order.filled_quantity order' = filled_quantity
       ∧ Order.average_price order' = Some average_price
       ∧ (Order.state order' = OrderState.FILLED
          ↔ filled_quantity = Order.quantity order)).
Proof.
  split.
  - intros event x pb p order' Hkind Happly.
    destruct (Order_apply_fill _ _ _ _ _ _ _ Hkind Happly)
      as (_ & _ & Hp & _ & _ & _ & _ & Hst & Hflags & _).
    rewrite Z.ltb_irrefl, Z.eqb_refl in Hst.
    split; [done|]. split; [by apply Hflags|done].
  - intros events. revert order.
    induction events as [|first rest IH];
      intros order event x pb q p order' Hfills Hlast Hkind Hall; [done|].
    simpl in Hall.
    destruct (Order.apply first order) as [[?|] order1] eqn:Happly; [done|].
    apply Forall_cons in Hfills as [Hfirst Hrest].
    destruct rest as [|second rest].
    + simpl in Hlast, Hall. simplify_eq.
      destruct (Order_apply_fill _ _ _ _ _ _ _ Hkind Happly)
        as (_ & Hq & Hp & _ & _ & _ & _ & Hst & _).
      split; [done|]. split; [done|]. rewrite Hst.
      repeat case_match; split; try done; lia.
    + assert (Order.quantity order1 = Order.quantity order) as Hquantity.
      { apply (Order_apply_all_fills_quantity [first]); [by constructor|].
        simpl. by rewrite Happly. }
      rewrite <-Hquantity.
      by eapply (IH order1).
Qed.

(** C5 (amended). The constructor of [Order] fails with a precondition error
    when the quantity is not strictly positive, when a priced order type has no
    price or another type has one, and when the time in force is GTD without
    an expire time. With the UNDEFINED checks these are all its checks: the
    expire time is not compared with the timestamp, and the order is built for
    every expire time and every timestamp. *)
Theorem Order_init_preconditions order_id symbol order_side order_type quantity
    init_id timestamp price label order_purpose time_in_force expire_time :
  let built :=
    Order.__init__ order_id symbol order_side order_type quantity init_id timestamp
      price label order_purpose time_in_force expire_time in
  (quantity ≤ 0 → built = inl ConditionFailed)
  ∧ (order_type ∈ PRICED_ORDER_TYPES → price = None → built = inl ConditionFailed)
  ∧ (order_type ∉ PRICED_ORDER_TYPES → is_Some price → built = inl ConditionFailed)
  ∧ (time_in_force = TimeInForce.GTD → expire_time = None →
     built = inl ConditionFailed)
  ∧ (order_side ≠ OrderSide.UNDEFINED → order_type ≠ OrderType.UNDEFINED →
     order_purpose ≠ OrderPurpose.UNDEFINED →
     time_in_force ≠ TimeInForce.UNDEFINED →
     0 < quantity →
     (order_type ∈ PRICED_ORDER_TYPES ↔ is_Some price) →
     (time_in_force = TimeInForce.GTD → is_Some expire_time) →
     is_ok built = true).
Proof.
  unfold Order.__init__, Condition.not_equal, Condition.positive_int,
    Condition.not_none, Condition.none, Condition.true_, raise, mbind,
    result_bind, mret, result_ret.
  simpl. repeat split.
  - intros Hq. repeat (case_bool_decide || case_match); simplify_eq; try done; lia.
  - intros Hpriced ->.
    repeat (case_bool_decide || case_match); simplify_eq; done.
  - intros Hpriced [p ->].
    repeat (case_bool_decide || case_match); simplify_eq; done.
  - intros -> ->.
    repeat (case_bool_decide || case_match); simplify_eq; done.
  - intros ? ? ? ? Hq Hprice Hexpire.
    rewrite !bool_decide_eq_true_2 by done.
    rewrite (proj2 (Z.ltb_lt 0 quantity) Hq).
    case_bool_decide as Hpriced;
      [ destruct (proj1 Hprice Hpriced) as [p ->]
      | destruct price as [p|]; [destruct Hpriced; by apply Hprice|] ];
      simpl;
      (case_bool_decide as Hgtd; [by destruct (Hexpire Hgtd) as [e ->]|done]).
Qed.

End order_properties.

(** ** Orders: the properties on concrete orders *)

Section order_examples.
#[local] Existing Instance Sample.exact_doubles.

Lemma limit_sell_100_built : Sample.limit_sell_100 = inr Sample.limit_sell_100_order.
Proof. reflexivity. Qed.

(** C1, as stated, fails: a working order of quantity 100 that receives a
    fill of 150 is OVER_FILLED and not completed, and a new order that receives
    a fill of 40 is PARTIALLY_FILLED and not working. *)
Lemma over_filled_order_not_completed :
  (let r := Order.apply_all [Sample.working; Sample.fill "X-1" 150 (Sample.cents 15000) 5]
              Sample.limit_sell_100_order in
   (r.1, Order.state r.2, Order.is_completed r.2))
  = (None, OrderState.OVER_FILLED, false)
  ∧ (let r := Order.apply (Sample.fill "X-1" 40 (Sample.cents 15000) 5)
                Sample.limit_sell_100_order in
     (r.1, Order.state r.2, Order.is_working r.2))
    = (None, OrderState.PARTIALLY_FILLED, false).
Proof. split; vm_compute; reflexivity. Qed.

Lemma filled_order_is_completed_witness :
  let order := (Order.apply_all [Sample.working;
                                 Sample.fill "X-1" 100 (Sample.cents 15000) 5]
                  Sample.limit_sell_100_order).2 in
  reachable_order order
  ∧ Order.state order = OrderState.FILLED
  ∧ Order.is_completed order = true ∧ Order.is_working order = false.
Proof.
  intros order.
  assert (reachable_order order) as Hreach.
  { apply (reachable_apply (Sample.fill "X-1" 100 (Sample.cents 15000) 5)
             (Order.apply Sample.working Sample.limit_sell_100_order).2);
      [apply (reachable_apply Sample.working Sample.limit_sell_100_order)|].
    - eapply reachable_new. exact limit_sell_100_built.
    - vm_compute. reflexivity.
    - vm_compute. reflexivity. }
  split; [exact Hreach|]. split; [vm_compute; reflexivity|].
  apply (filled_order_is_completed order Hreach). vm_compute. reflexivity.
Defined.

Lemma apply_fill_overwrites_witness :
  let event := Sample.fill "X-2" 60 (Sample.cents 15020) 6 in
  let order := (Order.apply (Sample.fill "X-1" 40 (Sample.cents 15010) 5)
                  Sample.limit_sell_100_order).2 in
  let order' := (Order.apply event order).2 in
  Order.apply event order = (None, order')
  ∧ Order.filled_quantity order' = 60
  ∧ Order.average_price order' = Some (Sample.cents 15020)
  ∧ Order.filled_timestamp order' = Some 6
  ∧ Order.execution_id order' = Some "X-2"
  ∧ Order.position_id_broker order' = Some "P-B1"
  ∧ Order._execution_ids order' = {["X-2"]} ∪ Order._execution_ids order.
Proof.
  intros event order order'.
  assert (Order.apply event order = (None, order')) as Happly
    by (vm_compute; reflexivity).
  split; [exact Happly|].
  exact (apply_fill_overwrites event "X-2" "P-B1" 60 (Sample.cents 15020) order order'
           eq_refl Happly).
Defined.

(** C2, as stated, fails: LIMIT SELL 100 filled 40 @ 150.10 and then 60 @
    150.20 ends PARTIALLY_FILLED with an average price of 150.20, where the
    volume-weighted average of the two fills is 150.16. Were the second event
    to carry the cumulative quantity 100 with the price 150.20 of its own
    fill, the order would end FILLED, with an average price of 150.20 still. *)
Lemma split_fills_end_partially_filled :
  (let r := Order.apply_all [Sample.fill "X-1" 40 (Sample.cents 15010) 5;
                             Sample.fill "X-2" 60 (Sample.cents 15020) 6]
              Sample.limit_sell_100_order in
   (r.1, Order.state r.2, Order.filled_quantity r.2, Order.average_price r.2))
  = (None, OrderState.PARTIALLY_FILLED, 60, Some (Sample.cents 15020))
  ∧ (let r := Order.apply_all [Sample.fill "X-1" 40 (Sample.cents 15010) 5;
                               Sample.fill "X-2" 100 (Sample.cents 15020) 6]
                Sample.limit_sell_100_order in
     (r.1, Order.state r.2, Order.filled_quantity r.2, Order.average_price r.2))
    = (None, OrderState.FILLED, 100, Some (Sample.cents 15020))
  ∧ volume_weighted_average [(40, Sample.cents 15010); (60, Sample.cents 15020)]
    = Some (Sample.cents 15016).
Proof. repeat split; vm_compute; reflexivity. Qed.

Lemma last_fill_decides_witness :
  let events := [Sample.fill "X-1" 40 (Sample.cents 15010) 5;
                 Sample.fill "X-2" 100 (Sample.cents 15016) 6] in
  let order' := (Order.apply_all events Sample.limit_sell_100_order).2 in
  Order.apply_all events Sample.limit_sell_100_order = (None, order')
  ∧ Order.filled_quantity order' = 100
  ∧ Order.average_price order' = Some (Sample.cents 15016)
  ∧ (Order.state order' = OrderState.FILLED
     ↔ 100 = Order.quantity Sample.limit_sell_100_order).
Proof.
  intros events order'.
  assert (Order.apply_all events Sample.limit_sell_100_order = (None, order'))
    as Hall by (vm_compute; reflexivity).
  split; [exact Hall|].
  apply (proj2 (last_fill_decides Sample.limit_sell_100_order) events
           (Sample.fill "X-2" 100 (Sample.cents 15016) 6) "X-2" "P-B1" 100
           (Sample.cents 15016) order').
  - repeat constructor.
  - reflexivity.
  - reflexivity.
  - exact Hall.
Defined.

(** C5, as stated, fails: a GTD order whose expire time (5) lies before its
    timestamp (10) is built. *)
Lemma gtd_order_expiring_in_the_past_is_built :
  is_ok (Order.__init__ "O-1" "AAPL" OrderSide.BUY OrderType.LIMIT 100 "init" 10
           (Some (Sample.cents 15000)) None OrderPurpose.NONE TimeInForce.GTD
           (Some 5)) = true.
Proof. reflexivity. Qed.

Lemma Order_init_preconditions_witness :
  is_ok (Order.__init__ "O-1" "AAPL" OrderSide.BUY OrderType.LIMIT 100 "init" 10
           (Some (Sample.cents 15000)) None OrderPurpose.NONE TimeInForce.GTD
           (Some 5)) = true
  ∧ Order.__init__ "O-1" "AAPL" OrderSide.BUY OrderType.LIMIT 0 "init" 10
      (Some (Sample.cents 15000)) None OrderPurpose.NONE TimeInForce.GTD (Some 5)
    = inl ConditionFailed.
Proof.
  split.
  - apply (proj2 (proj2 (proj2 (proj2
             (Order_init_preconditions "O-1" "AAPL" OrderSide.BUY OrderType.LIMIT 100
                "init" 10 (Some (Sample.cents 15000)) None OrderPurpose.NONE
                TimeInForce.GTD (Some 5))))));
      first [ done | lia | by eexists
            | split; [by eexists|]; intros _; unfold PRICED_ORDER_TYPES; set_solver ].
  - apply (proj1 (Order_init_preconditions "O-1" "AAPL" OrderSide.BUY OrderType.LIMIT 0
                    "init" 10 (Some (Sample.cents 15000)) None OrderPurpose.NONE
                    TimeInForce.GTD (Some 5))).
    lia.
Defined.

End order_examples.

(** * Properties of the test clock *)

Section clock_properties.
Context `{Guids}.

Lemma datetime_add_spec d delta r :
  datetime_add d delta = inr r ↔
  r = d + delta ∧ datetime_min ≤ d + delta ≤ datetime_max.
Proof.
  unfold datetime_add, raise.
  destruct (Z.leb_spec datetime_min (d + delta));
    destruct (Z.leb_spec (d + delta) datetime_max); simpl;
    split; try (intros [= <-]); try (intros [-> ?]); try done; lia.
Qed.

Lemma datetime_add_raises d delta x :
  datetime_add d delta = inl x → x = OverflowError.
Proof. unfold datetime_add, raise. case_match; [done|]. by intros [= <-]. Qed.

(** One event: stamped with the timer's [next_time], which then moves on by
    the interval. *)
Lemma Timer_iterate_event_spec timer event_id now r :
  Timer.iterate_event timer event_id now = inr r →
  TimeEvent.timestamp r.1 = Timer.next_time timer
  ∧ TimeEvent.label r.1 = Timer.label timer
  ∧ TimeEvent.id r.1 = event_id
  ∧ Timer.label r.2 = Timer.label timer
  ∧ Timer.callback r.2 = Timer.callback timer
  ∧ Timer.interval r.2 = Timer.interval timer
  ∧ Timer.stop_time r.2 = Timer.stop_time timer
  ∧ Timer._guid_factory r.2 = Timer._guid_factory timer
  ∧ Timer.next_time r.2 = Timer.next_time timer + Timer.interval timer
  ∧ datetime_min ≤ Timer.next_time r.2 ≤ datetime_max
  ∧ Timer.expired r.2
    = match Timer.stop_time timer with
      | Some stop => if stop <=? now then true else Timer.expired timer
      | None => Timer.expired timer
      end.
Proof.
  unfold Timer.iterate_event, mbind, result_bind, mret, result_ret. cbv zeta.
  destruct (datetime_add _ _) as [x|next] eqn:Hadd; [done|].
  apply datetime_add_spec in Hadd as [-> Hrange]. intros [= <-].
  destruct timer as [label callback interval start next [stop|] expired guids];
    cbn [Timer.label Timer.callback Timer.interval Timer.start_time Timer.next_time
           Timer.stop_time Timer.expired Timer._guid_factory Timer.set_next_time
           Timer.set_expired fst snd TimeEvent.timestamp TimeEvent.label
           TimeEvent.id] in *;
    [destruct (stop <=? now)|]; split_and!; try done;
    cbn [Timer.next_time Timer.set_next_time Timer.set_expired]; apply Hrange.
Qed.

(** [iterate_event] raises when the next time would be no datetime, and
    nothing else. *)
Lemma Timer_iterate_event_raises timer event_id now x :
  Timer.iterate_event timer event_id now = inl x →
  x = OverflowError
  ∧ ¬ (datetime_min ≤ Timer.next_time timer + Timer.interval timer ≤ datetime_max).
Proof.
  unfold Timer.iterate_event, mbind, result_bind, mret, result_ret. cbv zeta.
  destruct (datetime_add _ _) as [y|next] eqn:Hadd; [|done].
  intros [= <-]. split; [by eapply datetime_add_raises|].
  intros Hrange. unfold datetime_add, raise in Hadd.
  rewrite (proj2 (Z.leb_le _ _) (proj1 Hrange)) in Hadd.
  by rewrite (proj2 (Z.leb_le _ _) (proj2 Hrange)) in Hadd.
Qed.

Lemma Timer_advance_loop_step fuel timer to_time events :
  Timer.advance_loop (S fuel) timer to_time events
  = if negb (Timer.expired timer) && (Timer.next_time timer <=? to_time) then
      let g := guid_generate (Timer._guid_factory timer) in
      let timer := Timer.set_guid_factory g.2 timer in
      match Timer.iterate_event timer g.1 (Timer.next_time timer) with
      | inl x => inl (x, timer)
      | inr r => Timer.advance_loop fuel r.2 to_time (events ++ [r.1])
      end
    else inr (events, timer).
Proof. reflexivity. Qed.

(** The loop of [TestTimer.advance] leaves by its condition when it is given
    at least one unit of fuel per interval up to [to_time]. *)
Lemma Timer_advance_loop_exits fuel timer to_time events r :
  0 < Timer.interval timer →
  (to_time - Timer.next_time timer) `div` Timer.interval timer + 1 ≤ Z.of_nat fuel →
  Timer.advance_loop fuel timer to_time events = inr r →
  Timer.expired r.2 = true ∨ to_time < Timer.next_time r.2.
Proof.
  revert timer events.
  induction fuel as [|fuel IH]; intros timer events Hpos Hfuel.
  - simpl. intros [= <-]. right.
    destruct (decide (to_time < Timer.next_time timer)) as [|Hge]; [done|].
    assert (0 ≤ (to_time - Timer.next_time timer) `div` Timer.interval timer)
      by (apply Z.div_pos; lia).
    lia.
  - rewrite Timer_advance_loop_step.
    destruct (Timer.expired timer) eqn:Hexpired; cbn [negb andb];
      [intros [= <-]; by left|].
    destruct (Z.leb_spec (Timer.next_time timer) to_time) as [Hle|Hlt];
      [|intros [= <-]; by right].
    cbv zeta.
    destruct (Timer.iterate_event _ _ _) as [x|r'] eqn:Hiterate; [done|].
    apply Timer_iterate_event_spec in Hiterate
      as (_ & _ & _ & _ & _ & Hinterval & _ & _ & Hnext & _).
    cbn [Timer.interval Timer.next_time Timer.set_guid_factory] in Hinterval, Hnext.
    apply IH; rewrite Hinterval, ?Hnext; [done|].
    replace (to_time - (Timer.next_time timer + Timer.interval timer))
      with (to_time - Timer.next_time timer + -1 * Timer.interval timer) by lia.
    rewrite Z.div_add by lia. lia.
Qed.

(** [TestTimer.advance] returns with its loop condition false: the fuel it
    takes is enough for a timer with a positive interval, which is what the
    constructor admits. *)
Lemma Timer_advance_exits timer to_time r :
  0 < Timer.interval timer →
  Timer.advance timer to_time = inr r →
  Timer.expired r.2 = true ∨ to_time < Timer.next_time r.2.
Proof.
  intros Hpos. apply Timer_advance_loop_exits; [done|].
  unfold Timer.advance_fuel. lia.
Qed.

Lemma Timer_init_interval label callback interval start_time stop_time timer :
  Timer.__init__ label callback interval start_time stop_time = inr timer →
  0 < Timer.interval timer.
Proof.
  unfold Timer.__init__, Condition.positive, Condition.true_, raise, mbind,
    result_bind, mret, result_ret.
  intros Hinit. repeat case_match; simplify_eq; simpl; lia.
Qed.

(** C3, on the code: when the clock holds no timer, or [to_time] lies before
    the next event, [advance_time] returns the empty list and the clock as it
    was, its time included. *)
Theorem advance_time_early_return_keeps_time to_time clock :
  TestClock.timer_count clock = 0
  ∨ (∃ next_event, TestClock.next_event_time clock = Some next_event
                   ∧ to_time < next_event) →
  TestClock.advance_time to_time clock = inr ([], clock).
Proof.
  unfold TestClock.advance_time, TestClock.advance_time_run.
  intros [->|(next_event & -> & Hlt)]; [done|].
  destruct (TestClock.timer_count clock =? 0); [done|].
  by rewrite (proj2 (Z.ltb_lt _ _) Hlt).
Qed.

(** C8 (amended). [advance_time] returns the events timer by timer, in the
    order in which the timers were set, and each timer's events in ascending
    order; it does not sort them. With the alert set before the repeating
    timer the events come at 10s, 3s, 6s, 9s; with the timer set first they
    come at 3s, 6s, 9s, 10s. Either way the time of the clock becomes 10s and
    both timers are removed. *)
Theorem advance_time_scenario :
  scenario_outcome
    (clock ← TestClock.set_time_alert "alert" (seconds 10) (Some "on_event")
               (TestClock.__init__ _UNIX_EPOCH);
     clock ← TestClock.set_timer "timer" (seconds 3) (Some _UNIX_EPOCH)
               (Some (seconds 9)) (Some "on_event") clock;
     TestClock.advance_time (seconds 10) clock)
  = inr ([("alert", 10); ("timer", 3); ("timer", 6); ("timer", 9)], 10, 0, [])
  ∧ scenario_outcome
      (clock ← TestClock.set_timer "timer" (seconds 3) (Some _UNIX_EPOCH)
                 (Some (seconds 9)) (Some "on_event")
                 (TestClock.__init__ _UNIX_EPOCH);
       clock ← TestClock.set_time_alert "alert" (seconds 10) (Some "on_event") clock;
       TestClock.advance_time (seconds 10) clock)
    = inr ([("timer", 3); ("timer", 6); ("timer", 9); ("alert", 10)], 10, 0, []).
Proof. split; vm_compute; reflexivity. Qed.

End clock_properties.

Lemma advance_time_early_return_keeps_time_witness :
  let clock := @TestClock.__init__ Sample.constant_guids _UNIX_EPOCH in
  TestClock.timer_count clock = 0
  ∧ TestClock.advance_time (seconds 5) clock = inr ([], clock)
  ∧ TestClock._time clock = _UNIX_EPOCH
  ∧ _UNIX_EPOCH < seconds 5.
Proof.
  intros clock. split; [reflexivity|]. split.
  - apply advance_time_early_return_keeps_time. left. reflexivity.
  - split; [reflexivity|]. unfold _UNIX_EPOCH, seconds. lia.
Defined.

(** C8, as stated, fails: with the alert set first, as the scenario has it,
    the events do not come in ascending order of their timestamps. *)
Lemma advance_time_events_not_sorted :
  @scenario_outcome Sample.constant_guids
    (clock ← TestClock.set_time_alert "alert" (seconds 10) (Some "on_event")
               (TestClock.__init__ _UNIX_EPOCH);
     clock ← TestClock.set_timer "timer" (seconds 3) (Some _UNIX_EPOCH)
               (Some (seconds 9)) (Some "on_event") clock;
     TestClock.advance_time (seconds 10) clock)
  = inr ([("alert", 10); ("timer", 3); ("timer", 6); ("timer", 9)], 10, 0, []).
Proof. vm_compute. reflexivity. Qed.

(** * Properties of the order factory *)

Section factory_properties.
Context `{DoubleArith} `{Guids} `{OrderIds}.

(** A new order holds the arguments of its constructor. *)
Lemma Order_init_fields order_id symbol order_side order_type quantity init_id
    timestamp price label order_purpose time_in_force expire_time order :
  Order.__init__ order_id symbol order_side order_type quantity init_id timestamp
    price label order_purpose time_in_force expire_time = inr order →
  Order.id order = order_id ∧ Order.symbol order = symbol
  ∧ Order.side order = order_side ∧ Order.type order = order_type
  ∧ Order.quantity order = quantity ∧ Order.price order = price
  ∧ Order.label order = label ∧ Order.purpose order = order_purpose
  ∧ Order.time_in_force order = time_in_force
  ∧ Order.expire_time order = expire_time
  ∧ order_side ≠ OrderSide.UNDEFINED.
Proof.
  unfold Order.__init__, Condition.not_equal, Condition.positive_int,
    Condition.not_none, Condition.none, Condition.true_, raise, mbind,
    result_bind, mret, result_ret.
  intros Hinit.
  case_bool_decide as Hside; [|done].
  repeat case_match; simplify_eq; done.
Qed.

(** The children that [_create_atomic_order] derives from an entry: a
    STOP_MARKET stop-loss and, when a take-profit price is given, a LIMIT
    take-profit; both on the side opposite to the entry's, for the entry's
    quantity, good till cancelled, labelled [label_SL] and [label_TP]; the atomic
    order is identified by "A" followed by the entry's id. *)
Lemma create_atomic_order_children entry price_stop_loss price_take_profit
    original_label factory atomic :
  Order.side entry ≠ OrderSide.UNDEFINED →
  (OrderFactory._create_atomic_order entry price_stop_loss price_take_profit
     original_label factory).1 = inr atomic →
  let child_ok type purpose suffix child :=
    Order.type child = type ∧ Order.purpose child = purpose
    ∧ Order.side child ≠ Order.side entry
    ∧ Order.side child ≠ OrderSide.UNDEFINED
    ∧ Order.quantity child = Order.quantity entry
    ∧ Order.time_in_force child = TimeInForce.GTC
    ∧ Order.label child = (λ l, l +:+ suffix) <$> original_label in
  AtomicOrder.id atomic = "A" +:+ Order.id entry
  ∧ AtomicOrder.entry atomic = entry
  ∧ child_ok OrderType.STOP_MARKET OrderPurpose.STOP_LOSS "_SL"
      (AtomicOrder.stop_loss atomic)
  ∧ match AtomicOrder.take_profit atomic with
    | Some take_profit =>
        is_Some price_take_profit
        ∧ child_ok OrderType.LIMIT OrderPurpose.TAKE_PROFIT "_TP" take_profit
    | None => price_take_profit = None
    end.
Proof.
  unfold OrderFactory._create_atomic_order, OrderFactory.stop_market,
    OrderFactory.limit, OrderFactory._new_order.
  intros Hside Hatomic. simpl in Hatomic.
  repeat match type of Hatomic with
         | context [Order.__init__ ?a ?b ?c ?d ?e ?f ?g ?h ?i ?j ?k ?l] =>
             let Hinit := fresh "Hinit" in
             destruct (Order.__init__ a b c d e f g h i j k l) eqn:Hinit;
             [|apply Order_init_fields in Hinit]
         end;
    repeat (case_match; simplify_eq/=); simplify_eq/=.
  all: destruct_and?; simplify_eq/=.
  all: repeat split; try done; try by eexists.
  all: try (case_bool_decide; congruence).
  all: destruct (Order.side entry); simplify_eq/=; try done; by case_bool_decide.
Qed.

(** C4, on the code: with a label [L], [atomic_market] labels its entry
    [L_E], and [atomic_limit] and [atomic_stop_market] label theirs [L], the
    label as given. *)
Theorem atomic_entry_labels symbol order_side quantity price_entry price_stop_loss
    price_take_profit label time_in_force expire_time factory atomic :
  ((OrderFactory.atomic_market symbol order_side quantity price_stop_loss
      price_take_profit (Some label) factory).1 = inr atomic →
   Order.label (AtomicOrder.entry atomic) = Some (label +:+ "_E"))
  ∧ ((OrderFactory.atomic_limit symbol order_side quantity price_entry
        price_stop_loss price_take_profit (Some label) time_in_force expire_time
        factory).1 = inr atomic →
     Order.label (AtomicOrder.entry atomic) = Some label)
  ∧ ((OrderFactory.atomic_stop_market symbol order_side quantity price_entry
        price_stop_loss price_take_profit (Some label) time_in_force expire_time
        factory).1 = inr atomic →
     Order.label (AtomicOrder.entry atomic) = Some label).
Proof.
  unfold OrderFactory.atomic_market, OrderFactory.atomic_limit,
    OrderFactory.atomic_stop_market, OrderFactory.market, OrderFactory.limit,
    OrderFactory.stop_market.
  repeat split; intros Hatomic;
    match type of Hatomic with
    | context [OrderFactory._new_order ?a ?b ?c ?d ?e ?f ?g ?h ?i ?j] =>
        destruct (OrderFactory._new_order a b c d e f g h i j) as [[x|entry] factory']
          eqn:Hentry; simpl in Hatomic; [done|];
        unfold OrderFactory._new_order in Hentry; simplify_eq/=;
        match goal with
        | Hinit : Order.__init__ _ _ _ _ _ _ _ _ _ _ _ _ = inr _ |- _ =>
            apply Order_init_fields in Hinit
              as (_ & _ & Hside & _ & _ & _ & Hlabel & _ & _ & _ & Hdefined)
        end;
        apply create_atomic_order_children in Hatomic as (_ & -> & _);
        [done|by rewrite Hside]
    end.
Qed.

End factory_properties.

Section factory_examples.
#[local] Existing Instance Sample.exact_doubles.
#[local] Existing Instance Sample.constant_guids.
#[local] Existing Instance Sample.counting_order_ids.

Lemma atomic_entry_labels_witness :
  match (OrderFactory.atomic_limit "AAPL" OrderSide.BUY 10 (Some (Sample.cents 10000))
           (Some (Sample.cents 9900)) (Some (Sample.cents 10100)) (Some "S1")
           TimeInForce.DAY None Sample.factory).1 with
  | inr atomic =>
      Order.label (AtomicOrder.entry atomic) = Some "S1"
      ∧ Order.label (AtomicOrder.stop_loss atomic) = Some "S1_SL"
  | inl _ => False
  end.
Proof.
  destruct (OrderFactory.atomic_limit "AAPL" OrderSide.BUY 10
              (Some (Sample.cents 10000)) (Some (Sample.cents 9900))
              (Some (Sample.cents 10100)) (Some "S1") TimeInForce.DAY None
              Sample.factory).1 as [x|atomic] eqn:Hbuilt;
    [vm_compute in Hbuilt; discriminate|].
  split.
  - exact (proj1 (proj2 (atomic_entry_labels "AAPL" OrderSide.BUY 10
             (Some (Sample.cents 10000)) (Some (Sample.cents 9900))
             (Some (Sample.cents 10100)) "S1" TimeInForce.DAY None Sample.factory
             atomic)) Hbuilt).
  - vm_compute in Hbuilt. injection Hbuilt as <-. vm_compute. reflexivity.
Defined.

End factory_examples.

(** * Properties of the in-memory execution database *)

Section database_properties.
Context `{DoubleArith} `{Positions}.

(** [add_order] either stops at one of its four checks, the order id being
    known already, or records the order; in both cases the two partitions are
    left alone. An assertion failure on the position's strategy comes after the
    order was recorded. *)
Lemma add_order_cases order strategy_id position_id db :
  let order_id := Order.id order in
  let db' := (InMemoryExecutionDatabase.add_order order strategy_id position_id db).2 in
  (db' = db
   ∧ (order_id ∈ dom (InMemoryExecutionDatabase._cached_orders db)
      ∨ order_id ∈ InMemoryExecutionDatabase._index_orders db
      ∨ order_id ∈ dom (InMemoryExecutionDatabase._index_order_strategy db)
      ∨ order_id ∈ dom (InMemoryExecutionDatabase._index_order_position db)))
  ∨ (InMemoryExecutionDatabase._cached_orders db'
       = <[order_id := order]> (InMemoryExecutionDatabase._cached_orders db)
     ∧ InMemoryExecutionDatabase._index_orders db'
         = {[order_id]} ∪ InMemoryExecutionDatabase._index_orders db
     ∧ InMemoryExecutionDatabase._index_order_strategy db'
         = <[order_id := strategy_id]>
             (InMemoryExecutionDatabase._index_order_strategy db)
     ∧ InMemoryExecutionDatabase._index_order_position db'
         = <[order_id := position_id]>
             (InMemoryExecutionDatabase._index_order_position db)
     ∧ InMemoryExecutionDatabase._index_orders_working db'
         = InMemoryExecutionDatabase._index_orders_working db
     ∧ InMemoryExecutionDatabase._index_orders_completed db'
         = InMemoryExecutionDatabase._index_orders_completed db).
Proof.
  unfold InMemoryExecutionDatabase.add_order. simpl.
  repeat case_bool_decide; simpl.
  1-4: left; split; [done|]; rewrite !elem_of_dom; tauto.
  right. repeat case_match; simplify_eq/=; repeat split; reflexivity.
Qed.

Lemma add_order_keeps_invariant order strategy_id position_id db :
  let db' := (InMemoryExecutionDatabase.add_order order strategy_id position_id db).2 in
  orders_aligned db → orders_partitioned db →
  orders_aligned db' ∧ orders_partitioned db'
  ∧ Order.id order ∈ InMemoryExecutionDatabase._index_orders db'
  ∧ InMemoryExecutionDatabase._index_orders db
      ⊆ InMemoryExecutionDatabase._index_orders db'.
Proof.
  intros db' (Hc & Hs & Hp) (Hdisjoint & Hworking & Hcompleted). subst db'.
  destruct (add_order_cases order strategy_id position_id db)
    as [[Hsame Hknown]|(Hc' & Hi' & Hs' & Hp' & Hw' & Hd')].
  - rewrite Hsame. split_and!; try done.
    rewrite Hc, Hs, Hp in Hknown. tauto.
  - unfold orders_aligned, orders_partitioned.
    rewrite Hc', Hi', Hs', Hp', Hw', Hd', !dom_insert_L, Hc, Hs, Hp.
    split_and!; try done.
    + by apply union_subseteq_r'.
    + by apply union_subseteq_r'.
    + apply elem_of_union_l. by apply elem_of_singleton.
    + apply union_subseteq_r.
Qed.

Lemma update_order_keeps_invariant order db :
  let db' := InMemoryExecutionDatabase.update_order order db in
  Order.id order ∈ InMemoryExecutionDatabase._index_orders db →
  orders_aligned db → orders_partitioned db →
  orders_aligned db' ∧ orders_partitioned db'
  ∧ InMemoryExecutionDatabase._index_orders db'
      = InMemoryExecutionDatabase._index_orders db.
Proof.
  unfold InMemoryExecutionDatabase.update_order, orders_aligned, orders_partitioned.
  cbv zeta. intros Hin Haligned (Hdisjoint & Hworking & Hcompleted).
  destruct (Order.is_working order); [|destruct (Order.is_completed order)]; simpl.
  all: destruct Haligned as (Hc & Hs & Hp).
  all: split_and!; try done; set_solver.
Qed.


(** Calls in which updates follow adds keep the indexes aligned and the
    partitions inside the order index. *)
Lemma run_keeps_invariant calls db added :
  orders_aligned db → orders_partitioned db →
  added ⊆ InMemoryExecutionDatabase._index_orders db →
  DatabaseCalls.updates_follow_adds added calls = true →
  orders_aligned (DatabaseCalls.run calls db)
  ∧ orders_partitioned (DatabaseCalls.run calls db).
Proof.
  revert db added.
  induction calls as [|[order strategy_id position_id|order] calls IH];
    intros db added Haligned Hpartitioned Hadded Hcalls; simpl in *; [done|..].
  - destruct (add_order_keeps_invariant order strategy_id position_id db
                Haligned Hpartitioned) as (? & ? & ? & ?).
    apply (IH _ ({[Order.id order]} ∪ added)); try done.
    apply union_subseteq. split; [by apply singleton_subseteq_l|by etrans].
  - apply andb_true_iff in Hcalls as [Hknown Hcalls].
    apply bool_decide_eq_true_1 in Hknown.
    destruct (update_order_keeps_invariant order db) as (? & ? & Hsame);
      [by apply Hadded|done|done|].
    apply (IH _ added); try done. by rewrite Hsame.
Qed.

(** C7. From the empty database, through any calls of [add_order] and
    [update_order] in which every update is for an order added before, the
    working and completed index sets are disjoint, each lies inside the order
    index, and their sizes add up to at most the size of the order index. *)
Theorem working_and_completed_partition_orders trader_id calls :
  DatabaseCalls.updates_follow_adds ∅ calls = true →
  let db := DatabaseCalls.run calls (InMemoryExecutionDatabase.__init__ trader_id) in
  InMemoryExecutionDatabase._index_orders_working db
    ## InMemoryExecutionDatabase._index_orders_completed db
  ∧ InMemoryExecutionDatabase._index_orders_working db
      ⊆ InMemoryExecutionDatabase._index_orders db
  ∧ InMemoryExecutionDatabase._index_orders_completed db
      ⊆ InMemoryExecutionDatabase._index_orders db
  ∧ (InMemoryExecutionDatabase.count_orders_working None db
     + InMemoryExecutionDatabase.count_orders_completed None db
     ≤ InMemoryExecutionDatabase.count_orders_total None db)%nat.
Proof.
  intros Hcalls db.
  destruct (run_keeps_invariant calls (InMemoryExecutionDatabase.__init__ trader_id) ∅)
    as (_ & Hdisjoint & Hworking & Hcompleted); try done.
  fold db in Hdisjoint, Hworking, Hcompleted.
  split_and!; try done.
  unfold InMemoryExecutionDatabase.count_orders_working,
    InMemoryExecutionDatabase.count_orders_completed,
    InMemoryExecutionDatabase.count_orders_total. simpl.
  rewrite <-size_union by done.
  apply subseteq_size. by apply union_subseteq.
Qed.

End database_properties.


Section database_examples.
#[local] Existing Instance Sample.exact_doubles.
#[local] Existing Instance Sample.recording_positions.

Lemma working_and_completed_partition_orders_witness :
  let working := (Order.apply Sample.working Sample.limit_sell_100_order).2 in
  let filled := (Order.apply (Sample.fill "X-1" 100 (Sample.cents 15000) 5) working).2 in
  let calls := [DatabaseCalls.AddOrder Sample.limit_sell_100_order "S1" "P1";
                DatabaseCalls.UpdateOrder working;
                DatabaseCalls.UpdateOrder filled] in
  let db := DatabaseCalls.run calls (InMemoryExecutionDatabase.__init__ "T1") in
  DatabaseCalls.updates_follow_adds ∅ calls = true
  ∧ InMemoryExecutionDatabase._index_orders_working db
      ## InMemoryExecutionDatabase._index_orders_completed db
  ∧ (InMemoryExecutionDatabase.count_orders_working None db
     + InMemoryExecutionDatabase.count_orders_completed None db
     ≤ InMemoryExecutionDatabase.count_orders_total None db)%nat
  ∧ InMemoryExecutionDatabase.count_orders_completed None db = 1%nat.
Proof.
  intros working filled calls db.
  assert (DatabaseCalls.updates_follow_adds ∅ calls = true) as Hcalls
    by (vm_compute; reflexivity).
  split; [exact Hcalls|].
  destruct (working_and_completed_partition_orders "T1" calls Hcalls)
    as (Hdisjoint & _ & _ & Hsize).
  split; [exact Hdisjoint|]. split; [exact Hsize|].
  vm_compute. reflexivity.
Defined.

End database_examples.

(** * Properties of the execution engine *)

Section engine_properties.
Context `{DoubleArith} `{Guids} `{Positions}.











(** [_handle_event] uses the re-entrant call on position events only. *)
Lemma handle_event_ext handle_event handle_event' event engine :
  (∀ position_event engine,
     handle_event (Event.OfPosition position_event) engine
     = handle_event' (Event.OfPosition position_event) engine) →
  ExecutionEngine._handle_event handle_event event engine
  = ExecutionEngine._handle_event handle_event' event engine.
Proof.
  intros Hsame. unfold ExecutionEngine._handle_event.
  destruct event as [event|event|event|id]; try reflexivity.
  unfold ExecutionEngine._handle_order_event. cbv zeta.
  destruct (InMemoryExecutionDatabase.get_order _ _).1 as [order|]; [|reflexivity].
  destruct (Order.apply event order).1 as [x|]; [reflexivity|].
  destruct (InMemoryExecutionDatabase.get_strategy_for_order _ _) as [strategy_id|];
    [|reflexivity].
  destruct (Events.is_fill event); [|reflexivity].
  unfold ExecutionEngine._handle_order_fill, ExecutionEngine._position_opened,
    ExecutionEngine._position_closed, ExecutionEngine._position_modified,
    ExecutionEngine._position_event.
  cbv zeta.
  destruct (InMemoryExecutionDatabase.get_position_id _ _).1 as [position_id|];
    [|reflexivity].
  destruct (InMemoryExecutionDatabase.get_position_for_order _ _).1 as [position|];
    [destruct (Position_is_closed _)|].
  all: apply Hsame.
Qed.

(** The recursion of [handle_event] ends: a position event does not re-enter
    the engine, and a depth of two is as good as any greater depth. *)
Lemma handle_event_depth depth event engine :
  ExecutionEngine.handle_event_at (2 + depth) event engine
  = ExecutionEngine.handle_event event engine.
Proof.
  unfold ExecutionEngine.handle_event.
  change (ExecutionEngine._handle_event (ExecutionEngine.handle_event_at (1 + depth))
            event engine
          = ExecutionEngine._handle_event (ExecutionEngine.handle_event_at 1)
              event engine).
  apply handle_event_ext. intros position_event engine'. reflexivity.
Qed.


(** C10. [reset] of the engine resets the database and nothing else:
    [command_count], [event_count] and the registered strategies are as they
    were, and so are the account, the portfolio and the log of the engine; the
    stores and the indexes of the database are empty. *)
Theorem reset_keeps_counts_and_strategies engine :
  let engine' := ExecutionEngine.reset engine in
  let db := ExecutionEngine.database engine' in
  ExecutionEngine.command_count engine' = ExecutionEngine.command_count engine
  ∧ ExecutionEngine.event_count engine' = ExecutionEngine.event_count engine
  ∧ ExecutionEngine._registered_strategies engine'
    = ExecutionEngine._registered_strategies engine
  ∧ ExecutionEngine.registered_strategies engine'
    = ExecutionEngine.registered_strategies engine
  ∧ ExecutionEngine.account engine' = ExecutionEngine.account engine
  ∧ ExecutionEngine.portfolio engine' = ExecutionEngine.portfolio engine
  ∧ ExecutionEngine._log engine' = ExecutionEngine._log engine
  ∧ ExecutionEngine._exec_client engine' = ExecutionEngine._exec_client engine
  ∧ InMemoryExecutionDatabase._cached_orders db = ∅
  ∧ InMemoryExecutionDatabase._cached_positions db = ∅
  ∧ InMemoryExecutionDatabase._strategies db = ∅
  ∧ InMemoryExecutionDatabase._index_orders db = ∅
  ∧ InMemoryExecutionDatabase._index_orders_working db = ∅
  ∧ InMemoryExecutionDatabase._index_orders_completed db = ∅
  ∧ InMemoryExecutionDatabase._index_positions db = ∅
  ∧ InMemoryExecutionDatabase._index_positions_open db = ∅
  ∧ InMemoryExecutionDatabase._index_positions_closed db = ∅
  ∧ InMemoryExecutionDatabase._index_order_position db = ∅
  ∧ InMemoryExecutionDatabase._index_order_strategy db = ∅
  ∧ InMemoryExecutionDatabase._index_position_strategy db = ∅
  ∧ InMemoryExecutionDatabase._index_position_orders db = ∅
  ∧ InMemoryExecutionDatabase._index_strategy_orders db = ∅
  ∧ InMemoryExecutionDatabase._index_strategy_positions db = ∅.
Proof. cbv zeta. repeat split; reflexivity. Qed.

End engine_properties.

Section engine_examples.
#[local] Existing Instance Sample.exact_doubles.
#[local] Existing Instance Sample.constant_guids.
#[local] Existing Instance Sample.recording_positions.



(** An event that [Order.apply] refuses, here for the account of another
    order, is counted and absorbed. *)
Lemma refused_event_is_counted :
  let engine := default Sample.engine
                  (ExecutionEngine.execute_command
                     (ExecutionEngine.SubmitOrder Sample.limit_sell_100_order "S1" "P1")
                     (ExecutionEngine.register_client Sample.engine)) in
  let engine := ExecutionEngine.handle_event (Event.OfOrder Sample.submitted) engine in
  let result := ExecutionEngine.handle_event
                  (Event.OfOrder Sample.accepted_on_other_account) engine in
  (ExecutionEngine.event_count engine, ExecutionEngine.event_count result,
   ExecutionEngine.unraisable result)
  = (1, 2, [ConditionFailed]).
Proof. vm_compute. reflexivity. Qed.

End engine_examples.

(** * Further properties of orders *)

Section more_order_properties.
Context `{DoubleArith}.

(** The constructor gives a price to the priced order types and to no
    other. *)
Lemma Order_init_price order_id symbol order_side order_type quantity init_id
    timestamp price label order_purpose time_in_force expire_time order :
  Order.__init__ order_id symbol order_side order_type quantity init_id timestamp
    price label order_purpose time_in_force expire_time = inr order →
  Order.type order = order_type ∧ Order.price order = price
  ∧ (order_type ∈ PRICED_ORDER_TYPES ↔ is_Some price).
Proof.
  unfold Order.__init__, Condition.not_equal, Condition.positive_int,
    Condition.not_none, Condition.none, Condition.true_, raise, mbind,
    result_bind, mret, result_ret.
  intros Hinit.
  destruct (bool_decide (order_side ≠ OrderSide.UNDEFINED)); [|discriminate].
  destruct (bool_decide (order_type ≠ OrderType.UNDEFINED)); [|discriminate].
  destruct (bool_decide (order_purpose ≠ OrderPurpose.UNDEFINED)); [|discriminate].
  destruct (bool_decide (time_in_force ≠ TimeInForce.UNDEFINED)); [|discriminate].
  destruct (0 <? quantity); [|discriminate].
  case_bool_decide as Hpriced; destruct price as [p|]; try discriminate.
  all: destruct (bool_decide (time_in_force = TimeInForce.GTD));
    destruct expire_time; try discriminate.
  all: injection Hinit as <-; simpl; split_and!; try reflexivity.
  all: split; intros Hx; first [done | by eexists | by destruct Hx].
Qed.

(** Whatever the event and the outcome, [apply] leaves the attributes given
    at construction alone. *)
Lemma Order_apply_identity event order :
  same_identity order (Order.apply event order).2.
Proof.
  unfold same_identity, Order.apply, Order._set_slippage, Order._set_filled_state.
  repeat (case_match; simplify_eq/=); simpl; repeat split; reflexivity.
Qed.

Lemma Order_apply_price event order :
  Order.type (Order.apply event order).2 = Order.type order
  ∧ (Order.price (Order.apply event order).2 = Order.price order
     ∨ is_Some (Order.price (Order.apply event order).2)).
Proof.
  unfold Order.apply, Order._set_slippage, Order._set_filled_state.
  repeat (case_match; simplify_eq/=); simpl; (split; [reflexivity|]).
  all: first [left; reflexivity | left; assumption | right; eexists; reflexivity].
Qed.

(** An order that can be reached has a price whenever its type is priced. *)
Lemma reachable_priced_has_price order :
  reachable_order order →
  Order.type order ∈ PRICED_ORDER_TYPES → is_Some (Order.price order).
Proof.
  induction 1 as [???????????? order Hinit|event order order' _ IH Happly].
  - apply Order_init_price in Hinit as (-> & -> & Hiff). apply Hiff.
  - destruct (Order_apply_price event order) as [Htype [Hprice|Hprice]];
      rewrite Happly in Htype, Hprice; simpl in Htype, Hprice.
    + rewrite Htype, Hprice. exact IH.
    + intros _. exact Hprice.
Qed.

(** What [apply] can do: refuse an event that does not match and leave the
    order alone; or record the event and, unless a priced order is without a
    price, succeed. *)
Lemma Order_apply_outcome event order :
  (¬ event_matches event order
   ∧ Order.apply event order = (Some ConditionFailed, order))
  ∨ (event_matches event order
     ∧ Order._events (Order.apply event order).2 = Order._events order ++ [event]
     ∧ Order.last_event (Order.apply event order).2 = event
     ∧ Order.event_count (Order.apply event order).2 = Order.event_count order + 1
     ∧ ((Order.apply event order).1 = None
        ∨ (Order.apply event order).1 = Some AttributeError
          ∧ Order.type order ∈ PRICED_ORDER_TYPES ∧ Order.price order = None)).
Proof.
  unfold event_matches, Order.apply.
  case_bool_decide as Hid; simpl; [|left; split; [tauto|reflexivity]].
  destruct (Order.account_id order) as [account|] eqn:Haccount; simpl.
  - case_bool_decide as Hevent; simpl.
    2: { left. split; [|reflexivity]. intros [_ [|]]; congruence. }
    right. split; [tauto|].
    unfold Order._set_slippage, Order._set_filled_state.
    repeat (case_match; simplify_eq/=); simpl; split_and!; try reflexivity.
    all: first [ left; reflexivity
               | right; split_and!;
                 first [ reflexivity | assumption
                       | match goal with
                         | Hpriced : bool_decide (_ ∉ _) = false |- _ =>
                             apply bool_decide_eq_false in Hpriced;
                             apply dec_stable; exact Hpriced
                         end ] ].
  - right. split; [tauto|].
    unfold Order._set_slippage, Order._set_filled_state.
    repeat (case_match; simplify_eq/=); simpl; split_and!; try reflexivity.
    all: first [ left; reflexivity
               | right; split_and!;
                 first [ reflexivity | assumption
                       | match goal with
                         | Hpriced : bool_decide (_ ∉ _) = false |- _ =>
                             apply bool_decide_eq_false in Hpriced;
                             apply dec_stable; exact Hpriced
                         end ] ].
Qed.

(** [apply] sets the two flags together: an order is never both working and
    completed after it unless it was before. *)
Lemma Order_apply_flags_exclusive event order :
  Order.is_working order && Order.is_completed order = false →
  Order.is_working (Order.apply event order).2
  && Order.is_completed (Order.apply event order).2 = false.
Proof.
  intros Hflags.
  unfold Order.apply, Order._set_slippage, Order._set_filled_state.
  repeat (case_match; simplify_eq/=); simpl; first [reflexivity | assumption].
Qed.

(** An accepted event adds its execution id, if it is a fill, to the set of
    execution ids. *)
Lemma Order_apply_execution_ids event order :
  (Order.apply event order).1 = None →
  Order._execution_ids (Order.apply event order).2
  = fill_execution_ids [event] ∪ Order._execution_ids order.
Proof.
  unfold fill_execution_ids, Order.apply, Order._set_slippage,
    Order._set_filled_state.
  repeat (case_match; simplify_eq/=); simpl; intros Hok; try discriminate.
  all: first [ by rewrite (left_id_L ∅ (∪)) | by rewrite (right_id_L ∅ (∪)) ].
Qed.

Lemma Order_apply_account_field event order :
  (Order.apply event order).1 = None →
  Order.account_id (Order.apply event order).2
  = match Events.kind event with
    | Events.OrderSubmitted => Events.account_id event
    | _ => Order.account_id order
    end.
Proof.
  unfold Order.apply, Order._set_slippage, Order._set_filled_state.
  repeat (case_match; simplify_eq/=); simpl; intros Hok;
    first [discriminate | reflexivity].
Qed.

(** The account of an order: set by [OrderSubmitted], and from then on the
    account of every event that [apply] accepts. *)
Lemma Order_apply_account event order :
  (Order.apply event order).1 = None →
  (Order.account_id order = None
   ∧ Order.account_id (Order.apply event order).2
     = match Events.kind event with
       | Events.OrderSubmitted => Events.account_id event
       | _ => None
       end)
  ∨ (is_Some (Order.account_id order)
     ∧ Events.account_id event = Order.account_id order
     ∧ Order.account_id (Order.apply event order).2 = Order.account_id order).
Proof.
  intros Hok. rewrite (Order_apply_account_field event order Hok).
  destruct (Order_apply_outcome event order) as [[_ Heq]|([_ Hmatch] & _)];
    [rewrite Heq in Hok; discriminate|].
  destruct (Order.account_id order) as [account|] eqn:Haccount.
  - right. destruct Hmatch as [|Hsame]; [discriminate|].
    split; [by eexists|]. split; [by symmetry|].
    destruct (Events.kind event); congruence.
  - left. split; [reflexivity|]. by destruct (Events.kind event).
Qed.

(** X1. On an order built by the constructor and taken through accepted
    events, [apply] has two outcomes only. An event for another order id, or
    for another account once the order has one, raises ConditionFailed and
    leaves the order exactly as it was. Every other event is accepted: no
    exception, and the event is appended to the event log. *)
Theorem apply_accepts_or_leaves_untouched order event :
  reachable_order order →
  (¬ event_matches event order
   ∧ Order.apply event order = (Some ConditionFailed, order))
  ∨ (event_matches event order
     ∧ (Order.apply event order).1 = None
     ∧ Order._events (Order.apply event order).2 = Order._events order ++ [event]).
Proof.
  intros Hreach.
  destruct (Order_apply_outcome event order)
    as [Hrefused|(Hmatch & Hevents & _ & _ & [Hok|(_ & Hpriced & Hprice)])].
  - left. exact Hrefused.
  - right. split_and!; assumption.
  - destruct (reachable_priced_has_price order Hreach Hpriced) as [p Hp].
    congruence.
Qed.

(** X2. The event log of an order: [event_count] is its length, [last_event]
    is its last entry, its first entry is the initialization event made by the
    constructor, and an accepted event is appended to it. *)
Theorem event_log_is_append_only order :
  reachable_order order →
  Order.event_count order = Z.of_nat (length (Order._events order))
  ∧ last (Order._events order) = Some (Order.last_event order)
  ∧ (∃ initialized rest,
       Order._events order = initialized :: rest
       ∧ Events.id initialized = Order.init_id order
       ∧ Events.timestamp initialized = Order.timestamp order)
  ∧ (∀ event order',
       Order.apply event order = (None, order') →
       Order._events order' = Order._events order ++ [event]).
Proof.
  intros Hreach. split_and!.
  1-3: induction Hreach as [???????????? order Hinit|event order order' _ IH Happly].
  - unfold Order.__init__, Condition.not_equal, Condition.positive_int,
      Condition.not_none, Condition.none, Condition.true_, raise, mbind,
      result_bind, mret, result_ret in Hinit.
    repeat case_match; simplify_eq; reflexivity.
  - destruct (Order_apply_outcome event order)
      as [[_ Heq]|(_ & Hevents & _ & Hcount & _)];
      rewrite Happly in *; simpl in *; [discriminate|].
    rewrite Hcount, Hevents, IH, length_app. simpl. lia.
  - unfold Order.__init__, Condition.not_equal, Condition.positive_int,
      Condition.not_none, Condition.none, Condition.true_, raise, mbind,
      result_bind, mret, result_ret in Hinit.
    repeat case_match; simplify_eq; reflexivity.
  - destruct (Order_apply_outcome event order)
      as [[_ Heq]|(_ & Hevents & Hlast & _)];
      rewrite Happly in *; simpl in *; [discriminate|].
    rewrite Hevents, Hlast. apply last_snoc.
  - unfold Order.__init__, Condition.not_equal, Condition.positive_int,
      Condition.not_none, Condition.none, Condition.true_, raise, mbind,
      result_bind, mret, result_ret in Hinit.
    repeat case_match; simplify_eq; eexists _, _; split_and!; reflexivity.
  - destruct IH as (initialized & rest & Hlog & Hid & Htime).
    destruct (Order_apply_outcome event order)
      as [[_ Heq]|(_ & Hevents & _)];
      rewrite Happly in *; simpl in *; [discriminate|].
    destruct (Order_apply_identity event order)
      as (_ & _ & _ & _ & Htimestamp & _ & _ & _ & _ & Hinit & _).
    rewrite Happly in Htimestamp, Hinit. simpl in Htimestamp, Hinit.
    exists initialized, (rest ++ [event]).
    rewrite Hevents, Hlog, Htimestamp, Hinit. split_and!; done.
  - intros event order' Happly.
    destruct (Order_apply_outcome event order)
      as [[_ Heq]|(_ & Hevents & _)];
      rewrite Happly in *; simpl in *; [discriminate|exact Hevents].
Qed.

(** X3. An order is never both working and completed. *)
Theorem never_working_and_completed order :
  reachable_order order →
  ¬ (Order.is_working order = true ∧ Order.is_completed order = true).
Proof.
  intros Hreach.
  assert (Order.is_working order && Order.is_completed order = false) as Hflags.
  { induction Hreach as [???????????? order Hinit|event order order' _ IH Happly].
    - apply Order_init_state in Hinit as (_ & -> & ->). reflexivity.
    - pose proof (Order_apply_flags_exclusive event order IH) as Hnext.
      rewrite Happly in Hnext. exact Hnext. }
  intros [Hworking Hcompleted]. rewrite Hworking, Hcompleted in Hflags.
  discriminate.
Qed.

(** [apply] leaves the quantity and the price to [OrderModified]. *)
Lemma Order_apply_quantity event order :
  (∀ broker quantity price,
     Events.kind event ≠ Events.OrderModified broker quantity price) →
  Order.quantity (Order.apply event order).2 = Order.quantity order
  ∧ Order.price (Order.apply event order).2 = Order.price order.
Proof.
  unfold Order.apply, Order._set_slippage, Order._set_filled_state.
  intros Hkind.
  repeat (case_match; simplify_eq/=); simpl.
  all: first [by split | exfalso; by eapply Hkind].
Qed.

Lemma Order_apply_modified event order broker quantity price order' :
  Events.kind event = Events.OrderModified broker quantity price →
  Order.apply event order = (None, order') →
  Order.quantity order' = quantity ∧ Order.price order' = Some price.
Proof.
  unfold Order.apply. intros ->.
  repeat (case_match; simplify_eq/=); intros [= <-]; split; reflexivity.
Qed.

(** X4. Whatever events are applied, and whether or not one of them is
    refused, the order keeps its id, symbol, side, type, timestamp, label,
    purpose, time in force, expire time and initialization id, and with them
    [is_buy] and [is_sell]. The quantity is not one of these: an accepted
    [OrderModified] sets the quantity and the price of the order to those of
    the event, and events none of which is an [OrderModified] leave both as
    they were. *)
Theorem events_keep_identity events order :
  let order' := (Order.apply_all events order).2 in
  same_identity order order'
  ∧ ((∀ event broker quantity price,
        event ∈ events →
        Events.kind event ≠ Events.OrderModified broker quantity price) →
     Order.quantity order' = Order.quantity order
     ∧ Order.price order' = Order.price order)
  ∧ (∀ event broker quantity price order1,
       Events.kind event = Events.OrderModified broker quantity price →
       Order.apply event order = (None, order1) →
       Order.quantity order1 = quantity ∧ Order.price order1 = Some price).
Proof.
  cbv zeta. split_and!.
  - revert order. induction events as [|event events IH]; intros order; simpl.
    + unfold same_identity. split_and!; reflexivity.
    + pose proof (Order_apply_identity event order) as Hstep.
      destruct (Order.apply event order) as [[x|] order1]; simpl in *;
        [exact Hstep|].
      specialize (IH order1).
      unfold same_identity in *. destruct_and!. split_and!; congruence.
  - revert order. induction events as [|event events IH]; intros order Hkinds;
      simpl.
    + split; reflexivity.
    + destruct (Order_apply_quantity event order) as [Hquantity Hprice].
      { intros broker quantity price. apply Hkinds. left. }
      destruct (Order.apply event order) as [[x|] order1]; simpl in *;
        [by split|].
      destruct (IH order1) as [Hquantity1 Hprice1].
      { intros ? ? ? ? ?. apply Hkinds. by right. }
      split; congruence.
  - intros event broker quantity price order1. apply Order_apply_modified.
Qed.

(** X5. The execution ids of an order are a set: after a sequence of accepted
    events they are the ids that were there together with the execution ids
    of the fills among the events, each once however often it came. *)
Theorem execution_ids_are_collected events order order' :
  Order.apply_all events order = (None, order') →
  Order._execution_ids order'
  = fill_execution_ids events ∪ Order._execution_ids order.
Proof.
  revert order. induction events as [|event events IH]; intros order Hall;
    simpl in Hall.
  - injection Hall as <-. unfold fill_execution_ids. simpl.
    by rewrite (left_id_L ∅ (∪)).
  - pose proof (Order_apply_execution_ids event order) as Hstep.
    destruct (Order.apply event order) as [[x|] order1]; [discriminate|].
    specialize (Hstep eq_refl). simpl in Hstep.
    rewrite (IH order1 Hall), Hstep.
    unfold fill_execution_ids. simpl.
    destruct (Events.kind event); rewrite ?(left_id_L ∅ (∪)), ?(right_id_L ∅ (∪));
      try reflexivity.
    set_solver.
Qed.

(** X6. [Order.create] on the initialization event of a new order builds that
    order again. *)
Theorem create_rebuilds_new_order order_id symbol order_side order_type quantity
    init_id timestamp price label order_purpose time_in_force expire_time order :
  Order.__init__ order_id symbol order_side order_type quantity init_id timestamp
    price label order_purpose time_in_force expire_time = inr order →
  Order.create (Order.last_event order) = inr order.
Proof.
  intros Hinit.
  assert (Order.last_event order
          = {| Events.order_id := order_id; Events.account_id := None;
               Events.id := init_id; Events.timestamp := timestamp;
               Events.kind := Events.Initialized
                 {| Events.symbol := symbol; Events.label := label;
                    Events.order_side := order_side; Events.order_type := order_type;
                    Events.quantity := quantity; Events.price := price;
                    Events.order_purpose := order_purpose;
                    Events.time_in_force := time_in_force;
                    Events.expire_time := expire_time |} |}) as ->.
  { unfold Order.__init__, Condition.not_equal, Condition.positive_int,
      Condition.not_none, Condition.none, Condition.true_, raise, mbind,
      result_bind, mret, result_ret in Hinit.
    repeat case_match; simplify_eq; reflexivity. }
  unfold Order.create. simpl. exact Hinit.
Qed.

(** Whatever the outcome, [apply] leaves the account of an order alone,
    unless it accepts an [OrderSubmitted], whose account the order takes. *)
Lemma Order_apply_account_kept event order :
  Order.account_id (Order.apply event order).2 = Order.account_id order
  ∨ (Events.kind event = Events.OrderSubmitted
     ∧ (Order.apply event order).1 = None
     ∧ Order.account_id (Order.apply event order).2 = Events.account_id event).
Proof.
  unfold Order.apply, Order._set_slippage, Order._set_filled_state.
  repeat (case_match; simplify_eq/=); simpl;
    first [left; reflexivity | right; split_and!; reflexivity].
Qed.

(** X7. The account of an order is bound once. An order that has an account
    keeps it under every further event, accepted or not; an event that
    carries another account id, or none, is refused with ConditionFailed and
    leaves the order exactly as it was; so every event that [apply] accepts
    is for the account of the order. An order without an account stays
    without one unless [apply] accepts an [OrderSubmitted], which gives it
    the account of the event. *)
Theorem account_is_bound_once event order :
  (∀ account,
     Order.account_id order = Some account →
     Order.account_id (Order.apply event order).2 = Some account
     ∧ (Events.account_id event ≠ Some account →
        Order.apply event order = (Some ConditionFailed, order))
     ∧ ((Order.apply event order).1 = None →
        Events.account_id event = Some account))
  ∧ (Order.account_id order = None →
     Order.account_id (Order.apply event order).2 = None
     ∨ (Events.kind event = Events.OrderSubmitted
        ∧ (Order.apply event order).1 = None
        ∧ Order.account_id (Order.apply event order).2
          = Events.account_id event)).
Proof.
  split.
  - intros account Haccount.
    assert (Events.account_id event ≠ Some account →
            Order.apply event order = (Some ConditionFailed, order)) as Hrefused.
    { intros Hother.
      destruct (Order_apply_outcome event order) as [[_ Heq]|([_ Hmatch] & _)];
        [exact Heq|].
      destruct Hmatch as [Hnone|Hsame]; congruence. }
    split_and!; [|exact Hrefused|].
    + destruct (decide (Events.account_id event = Some account)) as [Hsame|Hother].
      * destruct (Order_apply_account_kept event order) as [->|(_ & _ & ->)];
          [exact Haccount|exact Hsame].
      * rewrite (Hrefused Hother). exact Haccount.
    + intros Hok.
      destruct (decide (Events.account_id event = Some account)) as [Hsame|Hother];
        [exact Hsame|].
      rewrite (Hrefused Hother) in Hok. discriminate.
  - intros Hnone.
    destruct (Order_apply_account_kept event order) as [Hkept|Hsubmitted].
    + left. by rewrite Hkept.
    + by right.
Qed.

End more_order_properties.

Section more_order_examples.
#[local] Existing Instance Sample.exact_doubles.

Lemma limit_sell_100_reachable : reachable_order Sample.limit_sell_100_order.
Proof. eapply reachable_new. exact limit_sell_100_built. Qed.

Lemma submitted_order_reachable :
  reachable_order (Order.apply Sample.submitted Sample.limit_sell_100_order).2.
Proof.
  apply (reachable_apply Sample.submitted Sample.limit_sell_100_order);
    [exact limit_sell_100_reachable|vm_compute; reflexivity].
Qed.

Lemma apply_accepts_or_leaves_untouched_witness :
  let order := (Order.apply Sample.submitted Sample.limit_sell_100_order).2 in
  reachable_order order
  ∧ ¬ event_matches Sample.accepted_on_other_account order
  ∧ Order.apply Sample.accepted_on_other_account order = (Some ConditionFailed, order).
Proof.
  intros order. split; [exact submitted_order_reachable|].
  destruct (apply_accepts_or_leaves_untouched order Sample.accepted_on_other_account
              submitted_order_reachable) as [Hrefused|[Hmatch _]].
  - exact Hrefused.
  - exfalso.
    assert (bool_decide (event_matches Sample.accepted_on_other_account order) = false)
      as Hno by (vm_compute; reflexivity).
    apply bool_decide_eq_false in Hno. exact (Hno Hmatch).
Defined.

Lemma event_log_is_append_only_witness :
  let order := (Order.apply Sample.submitted Sample.limit_sell_100_order).2 in
  reachable_order order
  ∧ Order.event_count order = Z.of_nat (length (Order._events order))
  ∧ last (Order._events order) = Some (Order.last_event order)
  ∧ length (Order._events order) = 2%nat.
Proof.
  intros order. split; [exact submitted_order_reachable|].
  destruct (event_log_is_append_only order submitted_order_reachable)
    as (Hcount & Hlast & _).
  split; [exact Hcount|]. split; [exact Hlast|]. vm_compute. reflexivity.
Defined.

Lemma never_working_and_completed_witness :
  let order := (Order.apply Sample.submitted Sample.limit_sell_100_order).2 in
  reachable_order order
  ∧ ¬ (Order.is_working order = true ∧ Order.is_completed order = true).
Proof.
  intros order. split; [exact submitted_order_reachable|].
  exact (never_working_and_completed order submitted_order_reachable).
Defined.

Lemma execution_ids_are_collected_witness :
  let events := [Sample.fill "X-1" 40 (Sample.cents 15010) 5;
                 Sample.fill "X-1" 40 (Sample.cents 15010) 6;
                 Sample.fill "X-2" 100 (Sample.cents 15016) 7] in
  let order' := (Order.apply_all events Sample.limit_sell_100_order).2 in
  Order.apply_all events Sample.limit_sell_100_order = (None, order')
  ∧ Order._execution_ids order'
    = fill_execution_ids events ∪ Order._execution_ids Sample.limit_sell_100_order
  ∧ size (Order._execution_ids order') = 2%nat.
Proof.
  intros events order'.
  assert (Order.apply_all events Sample.limit_sell_100_order = (None, order'))
    as Hall by (vm_compute; reflexivity).
  split; [exact Hall|].
  split; [exact (execution_ids_are_collected events _ order' Hall)|].
  vm_compute. reflexivity.
Defined.

Lemma create_rebuilds_new_order_witness :
  Sample.limit_sell_100 = inr Sample.limit_sell_100_order
  ∧ Order.create (Order.last_event Sample.limit_sell_100_order)
    = inr Sample.limit_sell_100_order.
Proof.
  split; [exact limit_sell_100_built|].
  exact (create_rebuilds_new_order _ _ _ _ _ _ _ _ _ _ _ _ _ limit_sell_100_built).
Defined.

Lemma account_is_bound_once_witness :
  let order := (Order.apply Sample.submitted Sample.limit_sell_100_order).2 in
  Order.account_id order = Some "ACC1"
  ∧ Events.account_id Sample.accepted_on_other_account = Some "ACC2"
  ∧ Order.apply Sample.accepted_on_other_account order
    = (Some ConditionFailed, order)
  ∧ Order.account_id (Order.apply Sample.accepted_on_other_account order).2
    = Some "ACC1".
Proof.
  intros order.
  assert (Order.account_id order = Some "ACC1") as Haccount
    by (vm_compute; reflexivity).
  destruct (account_is_bound_once Sample.accepted_on_other_account order)
    as [Hbound _].
  destruct (Hbound "ACC1" Haccount) as (Hkept & Hrefused & _).
  split; [exact Haccount|]. split; [reflexivity|].
  split; [|exact Hkept].
  apply Hrefused. vm_compute. discriminate.
Defined.

End more_order_examples.

(** * Further properties of the in-memory execution database *)

Section more_database_properties.
Context `{DoubleArith} `{Positions}.

(** X8. [add_order] of an order whose id the database does not know records
    it: the order, its strategy and its position id are found again by
    [get_order], [get_strategy_for_order] and [get_position_id], without an
    error line, and no other order of the store is touched. When the position
    is new, or already belongs to the same strategy, the call ends normally and
    the order is filed under its strategy and under its position. *)
Theorem add_order_then_lookup order strategy_id position_id db :
  let order_id := Order.id order in
  let r := InMemoryExecutionDatabase.add_order order strategy_id position_id db in
  InMemoryExecutionDatabase._cached_orders db !! order_id = None →
  order_id ∉ InMemoryExecutionDatabase._index_orders db →
  InMemoryExecutionDatabase._index_order_strategy db !! order_id = None →
  InMemoryExecutionDatabase._index_order_position db !! order_id = None →
  InMemoryExecutionDatabase.get_order order_id r.2 = (Some order, r.2)
  ∧ InMemoryExecutionDatabase.get_strategy_for_order order_id r.2 = Some strategy_id
  ∧ InMemoryExecutionDatabase.get_position_id order_id r.2 = (Some position_id, r.2)
  ∧ InMemoryExecutionDatabase.order_exists order_id r.2 = true
  ∧ (∀ other, other ≠ order_id →
       InMemoryExecutionDatabase._cached_orders r.2 !! other
       = InMemoryExecutionDatabase._cached_orders db !! other)
  ∧ (InMemoryExecutionDatabase._index_position_strategy db !! position_id = None
     ∨ InMemoryExecutionDatabase._index_position_strategy db !! position_id
       = Some strategy_id →
     r.1 = None
     ∧ InMemoryExecutionDatabase._index_position_strategy r.2 !! position_id
       = Some strategy_id
     ∧ order_id ∈ InMemoryExecutionDatabase.get_order_ids (Some strategy_id) r.2
     ∧ (∃ orders, InMemoryExecutionDatabase._index_position_orders r.2 !! position_id
                  = Some orders ∧ order_id ∈ orders)
     ∧ (∃ positions,
          InMemoryExecutionDatabase._index_strategy_positions r.2 !! strategy_id
          = Some positions ∧ position_id ∈ positions)).
Proof.
  intros order_id r Hcached Hindex Hstrategy Hposition. subst r order_id.
  unfold InMemoryExecutionDatabase.add_order. cbv zeta.
  case_bool_decide as H1; [exfalso; rewrite Hcached in H1; by destruct H1|].
  case_bool_decide as H2; [done|].
  case_bool_decide as H3; [exfalso; rewrite Hstrategy in H3; by destruct H3|].
  case_bool_decide as H4; [exfalso; rewrite Hposition in H4; by destruct H4|].
  clear H1 H2 H3 H4.
  cbn [InMemoryExecutionDatabase._index_position_strategy
         InMemoryExecutionDatabase.set_index_order_position
         InMemoryExecutionDatabase.set_index_order_strategy
         InMemoryExecutionDatabase.set_index_orders
         InMemoryExecutionDatabase.set_cached_orders].
  destruct (InMemoryExecutionDatabase._index_position_strategy db !! position_id)
    as [indexed|] eqn:Hindexed;
    [case_bool_decide as Hsame|].
  all: unfold InMemoryExecutionDatabase.get_order,
         InMemoryExecutionDatabase.get_strategy_for_order,
         InMemoryExecutionDatabase.get_position_id,
         InMemoryExecutionDatabase.order_exists,
         InMemoryExecutionDatabase.get_order_ids,
         InMemoryExecutionDatabase.index_add; simpl.
  all: rewrite ?lookup_insert_eq.
  all: split_and!; try reflexivity.
  all: try (apply bool_decide_eq_true_2; set_solver).
  all: try (intros other Hother; by rewrite lookup_insert_ne).
  - intros _. subst indexed. split_and!; [done|exact Hindexed|..].
    + destruct (InMemoryExecutionDatabase._index_strategy_orders db !! strategy_id);
        simpl; rewrite lookup_insert_eq; set_solver.
    + destruct (InMemoryExecutionDatabase._index_position_orders db !! position_id);
        simpl; rewrite lookup_insert_eq; eexists; (split; [reflexivity|set_solver]).
    + destruct (InMemoryExecutionDatabase._index_strategy_positions db !! strategy_id);
        simpl; rewrite lookup_insert_eq; eexists; (split; [reflexivity|set_solver]).
  - intros [|]; congruence.
  - intros _. rewrite ?lookup_insert_eq. split_and!; [done|done|..].
    + destruct (InMemoryExecutionDatabase._index_strategy_orders db !! strategy_id);
        simpl; rewrite lookup_insert_eq; set_solver.
    + destruct (InMemoryExecutionDatabase._index_position_orders db !! position_id);
        simpl; rewrite lookup_insert_eq; eexists; (split; [reflexivity|set_solver]).
    + destruct (InMemoryExecutionDatabase._index_strategy_positions db !! strategy_id);
        simpl; rewrite lookup_insert_eq; eexists; (split; [reflexivity|set_solver]).
Qed.

(** An order with a new id is in the store and in the order index after
    [add_order], however the call ends. *)
Lemma add_order_new_id_stored order strategy_id position_id db :
  InMemoryExecutionDatabase._cached_orders db !! Order.id order = None →
  Order.id order ∉ InMemoryExecutionDatabase._index_orders db →
  InMemoryExecutionDatabase._index_order_strategy db !! Order.id order = None →
  InMemoryExecutionDatabase._index_order_position db !! Order.id order = None →
  let db1 :=
    (InMemoryExecutionDatabase.add_order order strategy_id position_id db).2 in
  InMemoryExecutionDatabase.get_order (Order.id order) db1 = (Some order, db1)
  ∧ Order.id order ∈ InMemoryExecutionDatabase._index_orders db1.
Proof.
  intros Hcached Hindex Hstrategy Hposition.
  unfold InMemoryExecutionDatabase.add_order. cbv zeta.
  case_bool_decide as H1; [exfalso; rewrite Hcached in H1; by destruct H1|].
  case_bool_decide as H2; [done|].
  case_bool_decide as H3; [exfalso; rewrite Hstrategy in H3; by destruct H3|].
  case_bool_decide as H4; [exfalso; rewrite Hposition in H4; by destruct H4|].
  clear H1 H2 H3 H4.
  cbn [InMemoryExecutionDatabase._index_position_strategy
         InMemoryExecutionDatabase.set_index_order_position
         InMemoryExecutionDatabase.set_index_order_strategy
         InMemoryExecutionDatabase.set_index_orders
         InMemoryExecutionDatabase.set_cached_orders].
  destruct (InMemoryExecutionDatabase._index_position_strategy db !! position_id)
    as [indexed|]; [case_bool_decide|].
  all: unfold InMemoryExecutionDatabase.get_order; simpl.
  all: rewrite lookup_insert_eq; split; [reflexivity|set_solver].
Qed.

(** An order id that any of the four order indexes knows is refused. *)
Lemma add_order_known_id order strategy_id position_id db :
  is_Some (InMemoryExecutionDatabase._cached_orders db !! Order.id order)
  ∨ Order.id order ∈ InMemoryExecutionDatabase._index_orders db
  ∨ is_Some (InMemoryExecutionDatabase._index_order_strategy db !! Order.id order)
  ∨ is_Some (InMemoryExecutionDatabase._index_order_position db !! Order.id order) →
  InMemoryExecutionDatabase.add_order order strategy_id position_id db
  = (Some ConditionFailed, db).
Proof.
  unfold InMemoryExecutionDatabase.add_order. cbv zeta.
  intros Hknown. repeat (case_bool_decide; [reflexivity|]). tauto.
Qed.

(** X9. An order cannot be added twice: after [add_order] of an order with a
    new id, [add_order] of any order with the same id raises ConditionFailed
    and changes nothing, whatever strategy and position it names, and
    [get_order] still finds the first order. *)
Theorem add_order_twice_keeps_first order order' strategy_id strategy_id'
    position_id position_id' db :
  InMemoryExecutionDatabase._cached_orders db !! Order.id order = None →
  Order.id order ∉ InMemoryExecutionDatabase._index_orders db →
  InMemoryExecutionDatabase._index_order_strategy db !! Order.id order = None →
  InMemoryExecutionDatabase._index_order_position db !! Order.id order = None →
  Order.id order' = Order.id order →
  let db1 :=
    (InMemoryExecutionDatabase.add_order order strategy_id position_id db).2 in
  InMemoryExecutionDatabase.add_order order' strategy_id' position_id' db1
  = (Some ConditionFailed, db1)
  ∧ InMemoryExecutionDatabase.get_order (Order.id order) db1 = (Some order, db1).
Proof.
  intros Hcached Hindex Hstrategy Hposition Hid db1.
  destruct (add_order_new_id_stored order strategy_id position_id db
              Hcached Hindex Hstrategy Hposition) as [Hget Hexists].
  fold db1 in Hget, Hexists. split; [|exact Hget].
  apply add_order_known_id. right. left. rewrite Hid. exact Hexists.
Qed.

(** X10. When the position of a new order is already indexed to another
    strategy, [add_order] ends in an AssertionError after the order went into
    the store and the single-valued indexes: the order exists and is found by
    [get_order], and the sets of its strategy and of its position do not hold
    it; the position stays with the strategy it had. *)
Theorem add_order_strategy_mismatch order strategy_id position_id indexed db :
  let order_id := Order.id order in
  let r := InMemoryExecutionDatabase.add_order order strategy_id position_id db in
  InMemoryExecutionDatabase._cached_orders db !! order_id = None →
  order_id ∉ InMemoryExecutionDatabase._index_orders db →
  InMemoryExecutionDatabase._index_order_strategy db !! order_id = None →
  InMemoryExecutionDatabase._index_order_position db !! order_id = None →
  InMemoryExecutionDatabase._index_position_strategy db !! position_id
    = Some indexed →
  strategy_id ≠ indexed →
  r.1 = Some AssertionError
  ∧ InMemoryExecutionDatabase.order_exists order_id r.2 = true
  ∧ InMemoryExecutionDatabase.get_strategy_for_order order_id r.2 = Some strategy_id
  ∧ InMemoryExecutionDatabase._index_position_strategy r.2
    = InMemoryExecutionDatabase._index_position_strategy db
  ∧ InMemoryExecutionDatabase._index_position_orders r.2
    = InMemoryExecutionDatabase._index_position_orders db
  ∧ InMemoryExecutionDatabase._index_strategy_orders r.2
    = InMemoryExecutionDatabase._index_strategy_orders db
  ∧ InMemoryExecutionDatabase._index_strategy_positions r.2
    = InMemoryExecutionDatabase._index_strategy_positions db
  ∧ InMemoryExecutionDatabase._log r.2 = InMemoryExecutionDatabase._log db.
Proof.
  intros order_id r Hcached Hindex Hstrategy Hposition Hindexed Hother.
  subst r order_id.
  unfold InMemoryExecutionDatabase.add_order. cbv zeta.
  case_bool_decide as H1; [exfalso; rewrite Hcached in H1; by destruct H1|].
  case_bool_decide as H2; [done|].
  case_bool_decide as H3; [exfalso; rewrite Hstrategy in H3; by destruct H3|].
  case_bool_decide as H4; [exfalso; rewrite Hposition in H4; by destruct H4|].
  clear H1 H2 H3 H4.
  cbn [InMemoryExecutionDatabase._index_position_strategy
         InMemoryExecutionDatabase.set_index_order_position
         InMemoryExecutionDatabase.set_index_order_strategy
         InMemoryExecutionDatabase.set_index_orders
         InMemoryExecutionDatabase.set_cached_orders].
  rewrite Hindexed. rewrite (bool_decide_eq_false_2 _ Hother).
  unfold InMemoryExecutionDatabase.order_exists,
    InMemoryExecutionDatabase.get_strategy_for_order. simpl.
  rewrite lookup_insert_eq. split_and!; try reflexivity.
  apply bool_decide_eq_true_2. set_solver.
Qed.

(** X11. [update_order] files the order by its flags: a working order is in
    the working set and not in the completed set, a completed order that is
    not working is in the completed set and not in the working set, and an
    order that is neither stays where it was; no other order id moves;
    updating twice is the same as updating once. *)
Theorem update_order_files_by_flags order db :
  let db' := InMemoryExecutionDatabase.update_order order db in
  (Order.is_working order = true →
   InMemoryExecutionDatabase.is_order_working (Order.id order) db' = true
   ∧ InMemoryExecutionDatabase.is_order_completed (Order.id order) db' = false)
  ∧ (Order.is_working order = false → Order.is_completed order = true →
     InMemoryExecutionDatabase.is_order_working (Order.id order) db' = false
     ∧ InMemoryExecutionDatabase.is_order_completed (Order.id order) db' = true)
  ∧ (Order.is_working order = false → Order.is_completed order = false → db' = db)
  ∧ (∀ other, other ≠ Order.id order →
       InMemoryExecutionDatabase.is_order_working other db'
       = InMemoryExecutionDatabase.is_order_working other db
       ∧ InMemoryExecutionDatabase.is_order_completed other db'
         = InMemoryExecutionDatabase.is_order_completed other db)
  ∧ InMemoryExecutionDatabase.update_order order db' = db'.
Proof.
  unfold InMemoryExecutionDatabase.update_order,
    InMemoryExecutionDatabase.is_order_working,
    InMemoryExecutionDatabase.is_order_completed.
  cbv zeta.
  destruct (Order.is_working order); [|destruct (Order.is_completed order)]; simpl.
  all: split_and!; try done.
  all: try (intros _; split;
            [apply bool_decide_eq_true_2|apply bool_decide_eq_false_2]; set_solver).
  all: try (intros _ _; split;
            [apply bool_decide_eq_false_2|apply bool_decide_eq_true_2]; set_solver).
  all: try (intros other Hother; split; apply bool_decide_ext; set_solver).
  all: destruct db;
    unfold InMemoryExecutionDatabase.set_index_orders_completed,
      InMemoryExecutionDatabase.set_index_orders_working; simpl;
    f_equal; set_solver.
Qed.

Lemma make_keeps_positions_partitioned call added db :
  positions_partitioned db →
  added ⊆ InMemoryExecutionDatabase._index_positions db →
  PositionCalls.updates_follow_adds added [call] = true →
  let db' := PositionCalls.make call db in
  positions_partitioned db'
  ∧ InMemoryExecutionDatabase._index_positions db
    ⊆ InMemoryExecutionDatabase._index_positions db'
  ∧ InMemoryExecutionDatabase._index_positions_closed db
    ⊆ InMemoryExecutionDatabase._index_positions_closed db'
  ∧ match call with
    | PositionCalls.AddPosition position _ =>
        Position_id position ∈ InMemoryExecutionDatabase._index_positions db'
    | PositionCalls.UpdatePosition _ => True
    end.
Proof.
  intros (Hdom & Hdisjoint & Hunion) Hadded Hcall.
  destruct call as [position strategy_id|position]; simpl in *.
  - unfold InMemoryExecutionDatabase.add_position. cbv zeta.
    case_bool_decide as H1.
    { simpl. split_and!; [done|done|done|].
      rewrite <- Hdom. by apply elem_of_dom. }
    case_bool_decide as H2; [simpl; by split_and!|].
    case_bool_decide as H3; [simpl; split_and!; [done|done|done|set_solver]|].
    unfold positions_partitioned. simpl.
    split_and!; [|set_solver..]. rewrite dom_insert_L. set_solver.
  - unfold InMemoryExecutionDatabase.update_position.
    destruct (Position_is_closed position); [|by split_and!].
    unfold positions_partitioned. simpl.
    apply andb_prop in Hcall as [Hknown _].
    apply bool_decide_eq_true_1 in Hknown.
    split_and!; [done|set_solver| |done|set_solver|done].
    apply set_eq. intros x. rewrite <- Hunion.
    destruct (decide (x = Position_id position)) as [->|]; [|set_solver].
    assert (Position_id position
            ∈ InMemoryExecutionDatabase._index_positions_open db
              ∪ InMemoryExecutionDatabase._index_positions_closed db)
      by (rewrite Hunion; set_solver).
    set_solver.
Qed.

Lemma run_keeps_positions_partitioned calls added db :
  positions_partitioned db →
  added ⊆ InMemoryExecutionDatabase._index_positions db →
  PositionCalls.updates_follow_adds added calls = true →
  positions_partitioned (PositionCalls.run calls db)
  ∧ InMemoryExecutionDatabase._index_positions_closed db
    ⊆ InMemoryExecutionDatabase._index_positions_closed (PositionCalls.run calls db).
Proof.
  revert added db. induction calls as [|call calls IH]; intros added db Hinv Hadded Hcalls.
  { by split. }
  change (PositionCalls.run (call :: calls) db)
    with (PositionCalls.run calls (PositionCalls.make call db)).
  assert (PositionCalls.updates_follow_adds added [call] = true
          ∧ ∃ added', PositionCalls.updates_follow_adds added' calls = true
              ∧ ∀ x, x ∈ added' →
                  x ∈ added
                  ∨ match call with
                    | PositionCalls.AddPosition position _ => x = Position_id position
                    | PositionCalls.UpdatePosition _ => False
                    end) as (Hcall & added' & Hrest & Hadded').
  { destruct call as [position strategy_id|position]; simpl in Hcalls |- *.
    - split; [done|]. eexists. split; [exact Hcalls|]. set_solver.
    - apply andb_prop in Hcalls as [Hknown Hrest]. rewrite Hknown.
      split; [done|]. eexists. split; [exact Hrest|]. set_solver. }
  destruct (make_keeps_positions_partitioned call added db Hinv Hadded Hcall)
    as (Hinv' & Hgrows & Hclosed & Hnew).
  destruct (IH added' (PositionCalls.make call db) Hinv') as [Hfinal Hclosed'];
    [|exact Hrest|split; [exact Hfinal|set_solver]].
  intros x Hx. destruct (Hadded' x Hx) as [?|Hcase]; [set_solver|].
  destruct call; [by subst x|done].
Qed.

(** X12. The position indexes stay consistent: starting from a database whose
    position store and position index hold the same ids, with the open and
    the closed ids two disjoint sets that make up the index, any calls of
    [add_position] and [update_position] in which every update is for a
    position id that is indexed or was added before keep it so; a closed
    position id stays closed, and the total count is the open count plus the
    closed count. *)
Theorem positions_stay_partitioned calls db :
  positions_partitioned db →
  PositionCalls.updates_follow_adds
    (InMemoryExecutionDatabase._index_positions db) calls = true →
  let db' := PositionCalls.run calls db in
  positions_partitioned db'
  ∧ (∀ position_id,
       InMemoryExecutionDatabase.is_position_closed position_id db = true →
       InMemoryExecutionDatabase.is_position_closed position_id db' = true
       ∧ InMemoryExecutionDatabase.is_position_open position_id db' = false)
  ∧ InMemoryExecutionDatabase.count_positions_total None db'
    = (InMemoryExecutionDatabase.count_positions_open None db'
       + InMemoryExecutionDatabase.count_positions_closed None db')%nat.
Proof.
  intros Hinv Hcalls db'.
  destruct (run_keeps_positions_partitioned calls _ db Hinv (reflexivity _) Hcalls)
    as [Hinv' Hclosed].
  fold db' in Hinv', Hclosed. split; [exact Hinv'|].
  destruct Hinv' as (_ & Hdisjoint & Hunion). split.
  - unfold InMemoryExecutionDatabase.is_position_closed,
      InMemoryExecutionDatabase.is_position_open.
    intros position_id Hin. apply bool_decide_eq_true_1 in Hin. split.
    + apply bool_decide_eq_true_2. set_solver.
    + apply bool_decide_eq_false_2. set_solver.
  - unfold InMemoryExecutionDatabase.count_positions_total,
      InMemoryExecutionDatabase.count_positions_open,
      InMemoryExecutionDatabase.count_positions_closed. simpl.
    rewrite <- Hunion. by apply size_union.
Qed.

(** X13. [reset] returns the database to the state [__init__] builds for its
    trader, apart from the log, which gains the two entries of the reset; so
    an order that was refused as known before is accepted after it. *)
Theorem reset_is_a_new_database order strategy_id position_id db :
  let db' := InMemoryExecutionDatabase.reset db in
  forget_log db'
  = InMemoryExecutionDatabase.__init__ (InMemoryExecutionDatabase.trader_id db)
  ∧ InMemoryExecutionDatabase._log db'
    = InMemoryExecutionDatabase._log db
        ++ [(Logging.DEBUG, Logging.Resetting); (Logging.DEBUG, Logging.Reset)]
  ∧ (InMemoryExecutionDatabase.add_order order strategy_id position_id db').1 = None.
Proof.
  destruct db. cbv zeta. split_and!.
  - reflexivity.
  - unfold InMemoryExecutionDatabase.reset, InMemoryExecutionDatabase._reset,
      InMemoryExecutionDatabase.log. simpl. by rewrite <- app_assoc.
  - unfold InMemoryExecutionDatabase.add_order. cbv zeta.
    repeat (case_bool_decide as Hknown;
            [exfalso; revert Hknown; simpl; rewrite ?lookup_empty;
             first [by intros [? ?]|set_solver]|]).
    simpl. rewrite lookup_empty. reflexivity.
Qed.

(** X14. [delete_strategy] refuses a strategy that is not registered and
    changes nothing; for a registered one it removes the strategy and its two
    index entries, so that the queries by this strategy find no orders and no
    positions, while the orders themselves stay in the database and still
    name the strategy. *)
Theorem delete_strategy_keeps_its_orders strategy db :
  let strategy_id := TradingStrategy.id strategy in
  let r := InMemoryExecutionDatabase.delete_strategy strategy db in
  (strategy_id ∉ InMemoryExecutionDatabase.get_strategy_ids db →
   r = (Some ConditionFailed, db))
  ∧ (strategy_id ∈ InMemoryExecutionDatabase.get_strategy_ids db →
     r.1 = None
     ∧ InMemoryExecutionDatabase.get_strategy_ids r.2
       = InMemoryExecutionDatabase.get_strategy_ids db ∖ {[strategy_id]}
     ∧ InMemoryExecutionDatabase.get_order_ids (Some strategy_id) r.2 = ∅
     ∧ InMemoryExecutionDatabase.get_position_ids (Some strategy_id) r.2 = ∅
     ∧ InMemoryExecutionDatabase.get_order_ids None r.2
       = InMemoryExecutionDatabase.get_order_ids None db
     ∧ (∀ order_id,
          InMemoryExecutionDatabase.get_strategy_for_order order_id r.2
          = InMemoryExecutionDatabase.get_strategy_for_order order_id db
          ∧ InMemoryExecutionDatabase._cached_orders r.2 !! order_id
            = InMemoryExecutionDatabase._cached_orders db !! order_id)).
Proof.
  cbv zeta. unfold InMemoryExecutionDatabase.delete_strategy,
    InMemoryExecutionDatabase.get_strategy_ids. cbv zeta.
  split; intros Hin.
  - by rewrite (bool_decide_eq_true_2 _ Hin).
  - rewrite bool_decide_eq_false_2 by (intros Hout; by apply Hout).
    unfold InMemoryExecutionDatabase.get_order_ids,
      InMemoryExecutionDatabase.get_position_ids,
      InMemoryExecutionDatabase.get_strategy_for_order. simpl.
    rewrite !lookup_delete_eq. by split_and!.
Qed.

End more_database_properties.

Section more_database_examples.
#[local] Existing Instance Sample.exact_doubles.
#[local] Existing Instance Sample.recording_positions.

Lemma add_order_then_lookup_witness :
  let db := InMemoryExecutionDatabase.__init__ "T1" in
  let r := InMemoryExecutionDatabase.add_order Sample.limit_sell_100_order
             "S-1" "P-1" db in
  r.1 = None
  ∧ InMemoryExecutionDatabase.get_order "O-1" r.2
    = (Some Sample.limit_sell_100_order, r.2)
  ∧ "O-1" ∈ InMemoryExecutionDatabase.get_order_ids (Some "S-1") r.2.
Proof.
  intros db r.
  destruct (add_order_then_lookup Sample.limit_sell_100_order "S-1" "P-1" db)
    as (Hget & _ & _ & _ & _ & Hfiled).
  - apply lookup_empty.
  - apply not_elem_of_empty.
  - apply lookup_empty.
  - apply lookup_empty.
  - destruct Hfiled as (Hnone & _ & Hin & _); [left; apply lookup_empty|].
    split; [exact Hnone|]. split; [exact Hget|exact Hin].
Defined.

Lemma add_order_twice_keeps_first_witness :
  let db := InMemoryExecutionDatabase.__init__ "T1" in
  let db1 := (InMemoryExecutionDatabase.add_order Sample.limit_sell_100_order
                "S-1" "P-1" db).2 in
  InMemoryExecutionDatabase.add_order Sample.limit_sell_100_order "S-2" "P-2" db1
  = (Some ConditionFailed, db1)
  ∧ InMemoryExecutionDatabase.get_order "O-1" db1
    = (Some Sample.limit_sell_100_order, db1).
Proof.
  apply (add_order_twice_keeps_first Sample.limit_sell_100_order
           Sample.limit_sell_100_order "S-1" "S-2" "P-1" "P-2"
           (InMemoryExecutionDatabase.__init__ "T1")).
  - apply lookup_empty.
  - apply not_elem_of_empty.
  - apply lookup_empty.
  - apply lookup_empty.
  - reflexivity.
Defined.

Lemma add_order_strategy_mismatch_witness :
  let db := (InMemoryExecutionDatabase.add_order Sample.limit_sell_100_order
               "S-1" "P-1" (InMemoryExecutionDatabase.__init__ "T1")).2 in
  let second :=
    match Order.__init__ "O-2" "AAPL" OrderSide.BUY OrderType.MARKET 100 "init" 0
            None None OrderPurpose.NONE TimeInForce.DAY None with
    | inr order => order
    | inl _ => Sample.limit_sell_100_order
    end in
  let r := InMemoryExecutionDatabase.add_order second "S-2" "P-1" db in
  r.1 = Some AssertionError
  ∧ InMemoryExecutionDatabase.order_exists "O-2" r.2 = true
  ∧ InMemoryExecutionDatabase.get_order_ids (Some "S-2") r.2 = ∅.
Proof.
  intros db second r.
  destruct (add_order_strategy_mismatch second "S-2" "P-1" "S-1" db)
    as (Hraised & Hexists & _ & _ & _ & Hstrategy & _).
  - vm_compute. reflexivity.
  - vm_compute. intros Hin. discriminate Hin.
  - vm_compute. reflexivity.
  - vm_compute. reflexivity.
  - vm_compute. reflexivity.
  - discriminate.
  - split; [exact Hraised|]. split; [exact Hexists|].
    change (InMemoryExecutionDatabase.get_order_ids (Some "S-2") r.2)
      with (match InMemoryExecutionDatabase._index_strategy_orders r.2 !! "S-2" with
            | None => ∅
            | Some strategy_order_ids =>
                InMemoryExecutionDatabase._index_orders r.2 ∩ strategy_order_ids
            end).
    subst r. rewrite Hstrategy. vm_compute. reflexivity.
Defined.

Lemma positions_stay_partitioned_witness :
  let position : Position := ("P-1", []) in
  let calls := [PositionCalls.AddPosition position "S-1";
                PositionCalls.UpdatePosition position] in
  let db' := PositionCalls.run calls (InMemoryExecutionDatabase.__init__ "T1") in
  positions_partitioned db'
  ∧ InMemoryExecutionDatabase.count_positions_total None db' = 1%nat.
Proof.
  intros position calls db'.
  destruct (positions_stay_partitioned calls
              (InMemoryExecutionDatabase.__init__ "T1")) as (Hinv & _ & Hcount).
  - unfold positions_partitioned. simpl. split_and!; [apply dom_empty_L|set_solver..].
  - vm_compute. reflexivity.
  - split; [exact Hinv|]. vm_compute. reflexivity.
Defined.

End more_database_examples.

(** * Further properties of the execution engine *)

Section more_engine_properties.
Context `{DoubleArith} `{Guids} `{Positions}.

(** The fields of [keeps_orders_and_commands] are untouched. *)
Ltac fields_untouched :=
  unfold keeps_orders_and_commands; cbv zeta; split_and!; reflexivity.

Lemma keeps_refl engine : keeps_orders_and_commands engine engine.
Proof. unfold keeps_orders_and_commands. cbv zeta. by split_and!. Qed.

Lemma keeps_trans engine1 engine2 engine3 :
  keeps_orders_and_commands engine1 engine2 →
  keeps_orders_and_commands engine2 engine3 →
  keeps_orders_and_commands engine1 engine3.
Proof.
  unfold keeps_orders_and_commands. cbv zeta.
  intros (?&?&?&?&?&?&?&?&?&?&?) (?&?&?&?&?&?&?&?&?&?&?).
  split_and!; congruence.
Qed.

Lemma send_to_strategy_keeps event strategy_id engine :
  keeps_orders_and_commands engine
    (ExecutionEngine._send_to_strategy event strategy_id engine).
Proof.
  unfold ExecutionEngine._send_to_strategy.
  destruct (ExecutionEngine._registered_strategies engine !! strategy_id);
    fields_untouched.
Qed.

Lemma handle_position_event_keeps event engine :
  keeps_orders_and_commands engine
    (ExecutionEngine._handle_position_event event engine).
Proof.
  unfold ExecutionEngine._handle_position_event. cbv zeta.
  eapply keeps_trans; [|apply send_to_strategy_keeps].
  destruct (Event.kind event); fields_untouched.
Qed.

Lemma handle_account_event_keeps event engine :
  keeps_orders_and_commands engine
    (ExecutionEngine._handle_account_event event engine).
Proof.
  unfold ExecutionEngine._handle_account_event. cbv zeta.
  destruct (negb _ || _); fields_untouched.
Qed.

Section reentrant_keeps.
Variable handle_event : Event.t → ExecutionEngine.t → ExecutionEngine.t.
Hypothesis handle_event_keeps :
  ∀ event engine, keeps_orders_and_commands engine (handle_event event engine).

Lemma position_event_keeps kind position strategy_id event engine :
  keeps_orders_and_commands engine
    (ExecutionEngine._position_event handle_event kind position strategy_id event
       engine).
Proof.
  unfold ExecutionEngine._position_event. cbv zeta.
  eapply keeps_trans; [|apply handle_event_keeps].
  eapply keeps_trans; [|apply send_to_strategy_keeps].
  fields_untouched.
Qed.

Lemma handle_order_fill_keeps event strategy_id engine :
  keeps_orders_and_commands engine
    (ExecutionEngine._handle_order_fill handle_event event strategy_id engine).
Proof.
  unfold ExecutionEngine._handle_order_fill, ExecutionEngine._position_opened,
    ExecutionEngine._position_closed, ExecutionEngine._position_modified,
    InMemoryExecutionDatabase.get_position_for_order,
    InMemoryExecutionDatabase.get_position_id.
  cbv zeta.
  destruct (InMemoryExecutionDatabase._index_order_position
              (ExecutionEngine.database engine) !! Events.order_id event)
    as [position_id|] eqn:Hposition; cbn [fst snd]; [|fields_untouched].
  cbn [ExecutionEngine.database ExecutionEngine.set_database].
  rewrite Hposition. cbn [fst snd].
  destruct (InMemoryExecutionDatabase._cached_positions
              (ExecutionEngine.database engine) !! position_id) as [position|].
  - unfold InMemoryExecutionDatabase.update_position.
    destruct (Position_is_closed (Position_apply event position));
      (eapply keeps_trans; [|apply position_event_keeps]); fields_untouched.
  - eapply keeps_trans; [|apply position_event_keeps].
    unfold InMemoryExecutionDatabase.add_position. cbv zeta.
    repeat (case_bool_decide; [fields_untouched|]). fields_untouched.
Qed.

Lemma handle_order_event_keeps event engine :
  keeps_orders_and_commands engine
    (ExecutionEngine._handle_order_event handle_event event engine).
Proof.
  unfold ExecutionEngine._handle_order_event, ExecutionEngine.absorb,
    InMemoryExecutionDatabase.get_order.
  cbv zeta.
  destruct (InMemoryExecutionDatabase._cached_orders
              (ExecutionEngine.database engine) !! Events.order_id event)
    as [order|] eqn:Horder; cbn [fst snd]; [|fields_untouched].
  assert (dom (<[Events.order_id event := (Order.apply event order).2]>
                 (InMemoryExecutionDatabase._cached_orders
                    (ExecutionEngine.database engine)))
          = dom (InMemoryExecutionDatabase._cached_orders
                   (ExecutionEngine.database engine))) as Hdom.
  { apply dom_insert_lookup_L. by rewrite Horder. }
  destruct (Order.apply event order).1 as [x|].
  { unfold keeps_orders_and_commands. cbv zeta.
    split_and!; [reflexivity|reflexivity|exact Hdom|reflexivity..]. }
  unfold InMemoryExecutionDatabase.get_strategy_for_order,
    InMemoryExecutionDatabase.update_order.
  set (applied := (Order.apply event order).2) in *.
  assert (∀ engine',
            keeps_orders_and_commands
              (ExecutionEngine.set_database
                 (InMemoryExecutionDatabase.set_cached_orders
                    (<[Events.order_id event := applied]>
                       (InMemoryExecutionDatabase._cached_orders
                          (ExecutionEngine.database engine)))
                    (ExecutionEngine.database engine)) engine) engine' →
            keeps_orders_and_commands engine engine') as Hfrom.
  { intros engine'. apply keeps_trans.
    unfold keeps_orders_and_commands. cbv zeta.
    split_and!; [reflexivity|reflexivity|exact Hdom|reflexivity..]. }
  clearbody applied. clear Hdom Horder.
  destruct (Order.is_working applied); [|destruct (Order.is_completed applied)];
    cbn [ExecutionEngine.database ExecutionEngine.set_database
           InMemoryExecutionDatabase._index_order_strategy
           InMemoryExecutionDatabase.set_index_orders_working
           InMemoryExecutionDatabase.set_index_orders_completed
           InMemoryExecutionDatabase.set_cached_orders].
  all: destruct (InMemoryExecutionDatabase._index_order_strategy
                   (ExecutionEngine.database engine) !! Events.order_id event)
         as [strategy_id|]; [|apply Hfrom; fields_untouched].
  all: destruct (Events.is_fill event).
  all: apply Hfrom.
  all: first [ eapply keeps_trans; [|apply handle_order_fill_keeps]
             | eapply keeps_trans; [|apply send_to_strategy_keeps] ].
  all: fields_untouched.
Qed.

Lemma handle_event_step_keeps event engine :
  keeps_orders_and_commands engine
    (ExecutionEngine._handle_event handle_event event engine).
Proof.
  unfold ExecutionEngine._handle_event. cbv zeta.
  destruct event as [event|event|event|id].
  - eapply keeps_trans; [|apply handle_order_event_keeps]. fields_untouched.
  - eapply keeps_trans; [|apply handle_position_event_keeps]. fields_untouched.
  - eapply keeps_trans; [|apply handle_account_event_keeps]. fields_untouched.
  - fields_untouched.
Qed.

End reentrant_keeps.

Lemma handle_event_at_keeps depth event engine :
  keeps_orders_and_commands engine
    (ExecutionEngine.handle_event_at depth event engine).
Proof.
  revert event engine. induction depth as [|depth IH]; intros event engine.
  - apply keeps_refl.
  - apply (handle_event_step_keeps _ IH).
Qed.

(** X15. Handling an event never sends a command and never takes an order in
    or out: whatever the event, [handle_event] leaves the command count, the
    commands at the client, the order ids of the store and of the order index,
    the registered strategy ids of the database and every index that relates
    orders, positions and strategies as they were. *)
Theorem handle_event_keeps_orders_and_commands event engine :
  keeps_orders_and_commands engine (ExecutionEngine.handle_event event engine).
Proof. apply handle_event_at_keeps. Qed.

(** X16. With an execution client registered, every command is counted once
    and is no event: [execute_command] adds one to the command count, leaves
    the event count and the registered strategies alone and hands the command
    to the client after those sent before. A SubmitOrder leaves the database
    as [add_order] leaves it, and a SubmitAtomicOrder as the [add_order] of
    the entry, of the stop-loss and then of the take-profit, if there is one,
    leave it; each exception of these calls is written out as unraisable, in
    this order, and the command still goes to the client. The other commands
    touch neither the database nor the unraisable reports. *)
Theorem execute_command_counts_and_forwards command sent engine :
  ExecutionEngine._exec_client engine = Some sent →
  ∃ engine',
    ExecutionEngine.execute_command command engine = Some engine'
    ∧ ExecutionEngine.command_count engine' = ExecutionEngine.command_count engine + 1
    ∧ ExecutionEngine.event_count engine' = ExecutionEngine.event_count engine
    ∧ ExecutionEngine._registered_strategies engine'
      = ExecutionEngine._registered_strategies engine
    ∧ ExecutionEngine._exec_client engine' = Some (sent ++ [command])
    ∧ match command with
      | ExecutionEngine.SubmitOrder order strategy_id position_id =>
          let added :=
            InMemoryExecutionDatabase.add_order order strategy_id position_id
              (ExecutionEngine.database engine) in
          ExecutionEngine.database engine' = added.2
          ∧ ExecutionEngine.unraisable engine'
            = ExecutionEngine.unraisable engine ++ option_list added.1
      | ExecutionEngine.SubmitAtomicOrder atomic strategy_id position_id =>
          let add order db :=
            InMemoryExecutionDatabase.add_order order strategy_id position_id db in
          let entry := add (AtomicOrder.entry atomic) (ExecutionEngine.database engine) in
          let stop_loss := add (AtomicOrder.stop_loss atomic) entry.2 in
          let take_profit :=
            match (if AtomicOrder.has_take_profit atomic
                   then AtomicOrder.take_profit atomic else None) with
            | Some order => add order stop_loss.2
            | None => (None, stop_loss.2)
            end in
          ExecutionEngine.database engine' = take_profit.2
          ∧ ExecutionEngine.unraisable engine'
            = ExecutionEngine.unraisable engine
                ++ option_list entry.1 ++ option_list stop_loss.1
                ++ option_list take_profit.1
      | _ =>
          ExecutionEngine.database engine' = ExecutionEngine.database engine
          ∧ ExecutionEngine.unraisable engine' = ExecutionEngine.unraisable engine
      end.
Proof.
  unfold ExecutionEngine.execute_command, ExecutionEngine._execute_command,
    ExecutionEngine._to_client, ExecutionEngine._db_add_order.
  cbv zeta.
  destruct engine as [clock guids log strategies keys client trader database account
                        portfolio commands events unraisable].
  cbn [ExecutionEngine._exec_client]. intros ->.
  destruct command as [|order strategy_id position_id
                        |atomic strategy_id position_id| |].
  all: cbn [ExecutionEngine.database ExecutionEngine.set_command_count].
  all: try (destruct (InMemoryExecutionDatabase.add_order _ _ _ database)
              as [[x1|] db1]).
  all: cbn [fst snd ExecutionEngine.absorb ExecutionEngine.database
              ExecutionEngine.unraisable ExecutionEngine.set_database
              ExecutionEngine.set_unraisable].
  all: try (destruct (InMemoryExecutionDatabase.add_order _ _ _ db1)
              as [[x2|] db2]).
  all: cbn [fst snd ExecutionEngine.absorb ExecutionEngine.database
              ExecutionEngine.unraisable ExecutionEngine.set_database
              ExecutionEngine.set_unraisable].
  all: try (destruct (AtomicOrder.has_take_profit atomic);
            [destruct (AtomicOrder.take_profit atomic) as [order|]|]).
  all: try (destruct (InMemoryExecutionDatabase.add_order order _ _ db2)
              as [[x3|] db3]).
  all: cbn [fst snd ExecutionEngine.absorb ExecutionEngine.database
              ExecutionEngine.unraisable ExecutionEngine.set_database
              ExecutionEngine.set_unraisable ExecutionEngine._exec_client
              ExecutionEngine.set_exec_client].
  all: eexists; split; [reflexivity|].
  all: cbn [ExecutionEngine.command_count ExecutionEngine.event_count
              ExecutionEngine._registered_strategies ExecutionEngine._exec_client
              ExecutionEngine.unraisable ExecutionEngine.database
              ExecutionEngine.set_exec_client option_list].
  all: rewrite ?app_nil_r, <- ?app_assoc.
  all: split_and!; reflexivity.
Qed.

Lemma get_order_hit order_id order db :
  InMemoryExecutionDatabase._cached_orders db !! order_id = Some order →
  InMemoryExecutionDatabase.get_order order_id db = (Some order, db).
Proof. unfold InMemoryExecutionDatabase.get_order. by intros ->. Qed.

Lemma update_order_keeps_strategy_index order db :
  InMemoryExecutionDatabase._index_order_strategy
    (InMemoryExecutionDatabase.update_order order db)
  = InMemoryExecutionDatabase._index_order_strategy db.
Proof.
  unfold InMemoryExecutionDatabase.update_order.
  destruct (Order.is_working order); [|destruct (Order.is_completed order)];
    reflexivity.
Qed.

Lemma send_to_strategy_hit event strategy_id strategy engine :
  ExecutionEngine._registered_strategies engine !! strategy_id = Some strategy →
  ExecutionEngine._send_to_strategy event strategy_id engine
  = ExecutionEngine.set_registered_strategies
      (<[strategy_id := TradingStrategy.handle_event event strategy]>
         (ExecutionEngine._registered_strategies engine)) engine.
Proof. unfold ExecutionEngine._send_to_strategy. by intros ->. Qed.

(** X17. An order event that is no fill, for an order of the database whose
    strategy is registered: the order of the store takes the event; when
    [Order.apply] accepts it the order is filed by its flags and the strategy
    handles the event, once; when [Order.apply] refuses it the strategy gets
    nothing, the working and completed indexes stay as they were and the
    exception is reported as unraisable. *)
Theorem order_event_reaches_its_strategy event order strategy_id strategy engine :
  let order_id := Events.order_id event in
  let applied := Order.apply event order in
  let db := ExecutionEngine.database engine in
  let engine' := ExecutionEngine.handle_event (Event.OfOrder event) engine in
  InMemoryExecutionDatabase._cached_orders db !! order_id = Some order →
  Events.is_fill event = false →
  InMemoryExecutionDatabase.get_strategy_for_order order_id db = Some strategy_id →
  ExecutionEngine._registered_strategies engine !! strategy_id = Some strategy →
  InMemoryExecutionDatabase._cached_orders (ExecutionEngine.database engine')
    !! order_id = Some applied.2
  ∧ match applied.1 with
    | None =>
        ExecutionEngine._registered_strategies engine'
        = <[strategy_id := TradingStrategy.handle_event (Event.OfOrder event) strategy]>
            (ExecutionEngine._registered_strategies engine)
        ∧ ExecutionEngine.unraisable engine' = ExecutionEngine.unraisable engine
        ∧ ExecutionEngine.database engine'
          = InMemoryExecutionDatabase.update_order applied.2
              (InMemoryExecutionDatabase.set_cached_orders
                 (<[order_id := applied.2]>
                    (InMemoryExecutionDatabase._cached_orders db)) db)
    | Some x =>
        ExecutionEngine._registered_strategies engine'
        = ExecutionEngine._registered_strategies engine
        ∧ ExecutionEngine.unraisable engine' = ExecutionEngine.unraisable engine ++ [x]
        ∧ ExecutionEngine.database engine'
          = InMemoryExecutionDatabase.set_cached_orders
              (<[order_id := applied.2]>
                 (InMemoryExecutionDatabase._cached_orders db)) db
    end.
Proof.
  intros order_id applied db engine' Horder Hfill Hstrategy Hregistered.
  subst engine'.
  change (ExecutionEngine.handle_event (Event.OfOrder event) engine)
    with (ExecutionEngine._handle_event (ExecutionEngine.handle_event_at 1)
            (Event.OfOrder event) engine).
  unfold ExecutionEngine._handle_event, ExecutionEngine._handle_order_event.
  cbv zeta.
  cbn [ExecutionEngine.database ExecutionEngine.set_event_count].
  fold db order_id. rewrite (get_order_hit _ _ _ Horder).
  cbn [fst snd]. fold applied.
  cbn [ExecutionEngine.database ExecutionEngine.set_database].
  unfold InMemoryExecutionDatabase.get_strategy_for_order in *.
  rewrite update_order_keeps_strategy_index.
  cbn [InMemoryExecutionDatabase._index_order_strategy
         InMemoryExecutionDatabase.set_cached_orders].
  rewrite Hstrategy, Hfill.
  destruct applied.1 as [x|].
  - split; [|by split_and!].
    cbn [ExecutionEngine.absorb ExecutionEngine.database
           ExecutionEngine.set_unraisable ExecutionEngine.set_database
           InMemoryExecutionDatabase._cached_orders
           InMemoryExecutionDatabase.set_cached_orders].
    apply lookup_insert_eq.
  - rewrite (send_to_strategy_hit _ _ strategy) by exact Hregistered.
    split; [|by split_and!].
    cbn [ExecutionEngine.database ExecutionEngine.set_registered_strategies
           ExecutionEngine.log ExecutionEngine.set_log
           ExecutionEngine.set_database].
    unfold InMemoryExecutionDatabase.update_order.
    destruct (Order.is_working applied.2); [|destruct (Order.is_completed applied.2)];
      apply lookup_insert_eq.
Qed.
Lemma update_order_keeps_position_index order db :
  InMemoryExecutionDatabase._index_order_position
    (InMemoryExecutionDatabase.update_order order db)
  = InMemoryExecutionDatabase._index_order_position db
  ∧ InMemoryExecutionDatabase._cached_positions
      (InMemoryExecutionDatabase.update_order order db)
    = InMemoryExecutionDatabase._cached_positions db
  ∧ InMemoryExecutionDatabase._index_positions
      (InMemoryExecutionDatabase.update_order order db)
    = InMemoryExecutionDatabase._index_positions db
  ∧ InMemoryExecutionDatabase._index_positions_open
      (InMemoryExecutionDatabase.update_order order db)
    = InMemoryExecutionDatabase._index_positions_open db.
Proof.
  unfold InMemoryExecutionDatabase.update_order.
  destruct (Order.is_working order); [|destruct (Order.is_completed order)];
    by split_and!.
Qed.

Lemma get_position_id_hit order_id position_id db :
  InMemoryExecutionDatabase._index_order_position db !! order_id = Some position_id →
  InMemoryExecutionDatabase.get_position_id order_id db = (Some position_id, db).
Proof. unfold InMemoryExecutionDatabase.get_position_id. by intros ->. Qed.

Lemma get_position_for_order_hit order_id position_id db :
  InMemoryExecutionDatabase._index_order_position db !! order_id = Some position_id →
  InMemoryExecutionDatabase.get_position_for_order order_id db
  = (InMemoryExecutionDatabase._cached_positions db !! position_id, db).
Proof.
  intros Hposition. unfold InMemoryExecutionDatabase.get_position_for_order.
  cbv zeta. by rewrite (get_position_id_hit _ _ _ Hposition).
Qed.

Lemma add_position_new_id position strategy_id db :
  InMemoryExecutionDatabase._cached_positions db !! Position_id position = None →
  Position_id position ∉ InMemoryExecutionDatabase._index_positions db →
  Position_id position ∉ InMemoryExecutionDatabase._index_positions_open db →
  InMemoryExecutionDatabase.add_position position strategy_id db
  = (None,
     InMemoryExecutionDatabase.log Logging.DEBUG
       (Logging.AddedPosition (Position_id position))
       (InMemoryExecutionDatabase.set_index_positions_open
          ({[Position_id position]} ∪ InMemoryExecutionDatabase._index_positions_open db)
          (InMemoryExecutionDatabase.set_index_positions
             ({[Position_id position]} ∪ InMemoryExecutionDatabase._index_positions db)
             (InMemoryExecutionDatabase.set_cached_positions
                (<[Position_id position := position]>
                   (InMemoryExecutionDatabase._cached_positions db)) db)))).
Proof.
  intros Hcached Hindex Hopen. unfold InMemoryExecutionDatabase.add_position.
  cbv zeta.
  case_bool_decide as Hknown;
    [exfalso; rewrite Hcached in Hknown; by destruct Hknown|].
  do 2 (case_bool_decide; [done|]). reflexivity.
Qed.

(** X18. The first fill of an order opens its position: for an order of the
    database whose strategy is registered and whose position id is indexed but
    not yet stored, a fill that [Order.apply] accepts makes the engine build
    the position from the fill and add it as an open position; the strategy
    handles the fill and then the PositionOpened event, which the engine
    counts as a second event, and nothing goes to the portfolio. The new
    position is taken to carry the position id it was built with. *)
Theorem fill_opens_position event order strategy_id strategy position_id engine :
  let order_id := Events.order_id event in
  let db := ExecutionEngine.database engine in
  let engine' := ExecutionEngine.handle_event (Event.OfOrder event) engine in
  let position := Position_new position_id event in
  let g := guid_generate (ExecutionEngine._guid_factory engine) in
  let opened :=
    {| Event.position := position; Event.strategy_id := strategy_id;
       Event.order_fill := event; Event.id := g.1;
       Event.timestamp := Events.timestamp event;
       Event.kind := Event.PositionOpened |} in
  InMemoryExecutionDatabase._cached_orders db !! order_id = Some order →
  (Order.apply event order).1 = None →
  Events.is_fill event = true →
  InMemoryExecutionDatabase.get_strategy_for_order order_id db = Some strategy_id →
  ExecutionEngine._registered_strategies engine !! strategy_id = Some strategy →
  InMemoryExecutionDatabase._index_order_position db !! order_id = Some position_id →
  InMemoryExecutionDatabase._cached_positions db !! position_id = None →
  position_id ∉ InMemoryExecutionDatabase._index_positions db →
  position_id ∉ InMemoryExecutionDatabase._index_positions_open db →
  Position_id position = position_id →
  ExecutionEngine.event_count engine' = ExecutionEngine.event_count engine + 2
  ∧ InMemoryExecutionDatabase._cached_positions (ExecutionEngine.database engine')
      !! position_id = Some position
  ∧ InMemoryExecutionDatabase.position_exists position_id
      (ExecutionEngine.database engine') = true
  ∧ InMemoryExecutionDatabase.is_position_open position_id
      (ExecutionEngine.database engine') = true
  ∧ ExecutionEngine._registered_strategies engine'
    = <[strategy_id :=
          TradingStrategy.handle_event (Event.OfPosition opened)
            (TradingStrategy.handle_event (Event.OfOrder event) strategy)]>
        (ExecutionEngine._registered_strategies engine)
  ∧ ExecutionEngine.portfolio engine' = ExecutionEngine.portfolio engine
  ∧ ExecutionEngine._guid_factory engine' = g.2
  ∧ ExecutionEngine.unraisable engine' = ExecutionEngine.unraisable engine.
Proof.
  intros order_id db engine' position g opened Horder Haccepted Hfill Hstrategy
    Hregistered Hposition Hcached Hindex Hopen Hid.
  subst engine'.
  change (ExecutionEngine.handle_event (Event.OfOrder event) engine)
    with (ExecutionEngine._handle_event (ExecutionEngine.handle_event_at 1)
            (Event.OfOrder event) engine).
  unfold ExecutionEngine._handle_event.
  unfold ExecutionEngine._handle_order_event.
  cbv zeta.
  cbn [ExecutionEngine.database ExecutionEngine.set_event_count].
  fold db order_id. rewrite (get_order_hit _ _ _ Horder).
  cbn [fst snd]. rewrite Haccepted.
  cbn [ExecutionEngine.database ExecutionEngine.set_database].
  unfold InMemoryExecutionDatabase.get_strategy_for_order in *.
  rewrite update_order_keeps_strategy_index.
  cbn [InMemoryExecutionDatabase._index_order_strategy
         InMemoryExecutionDatabase.set_cached_orders].
  rewrite Hstrategy, Hfill.
  unfold ExecutionEngine._handle_order_fill. cbv zeta.
  cbn [ExecutionEngine.database ExecutionEngine.set_database ExecutionEngine.log
         ExecutionEngine.set_log].
  fold order_id.
  set (db1 := InMemoryExecutionDatabase.update_order _ _).
  destruct (update_order_keeps_position_index (Order.apply event order).2
              (InMemoryExecutionDatabase.set_cached_orders
                 (<[order_id := (Order.apply event order).2]>
                    (InMemoryExecutionDatabase._cached_orders db)) db))
    as (Hposition1 & Hcached1 & Hindex1 & Hopen1).
  fold db1 in Hposition1, Hcached1, Hindex1, Hopen1.
  cbn [InMemoryExecutionDatabase._index_order_position
         InMemoryExecutionDatabase._cached_positions
         InMemoryExecutionDatabase._index_positions
         InMemoryExecutionDatabase._index_positions_open
         InMemoryExecutionDatabase.set_cached_orders] in Hposition1, Hcached1,
    Hindex1, Hopen1.
  rewrite (get_position_id_hit order_id position_id db1)
    by (rewrite Hposition1; exact Hposition).
  cbn [fst snd ExecutionEngine.database ExecutionEngine.set_database].
  rewrite (get_position_for_order_hit order_id position_id db1)
    by (rewrite Hposition1; exact Hposition).
  cbn [fst snd ExecutionEngine.database ExecutionEngine.set_database].
  rewrite Hcached1, Hcached.
  fold position.
  rewrite (add_position_new_id position strategy_id db1)
    by (rewrite Hid, ?Hcached1, ?Hindex1, ?Hopen1; assumption).
  cbn [fst snd ExecutionEngine.absorb].
  unfold ExecutionEngine._position_opened, ExecutionEngine._position_event.
  cbv zeta.
  cbn [ExecutionEngine._guid_factory ExecutionEngine.set_database
         ExecutionEngine.log ExecutionEngine.set_log
         ExecutionEngine.set_event_count].
  fold g.
  rewrite (send_to_strategy_hit _ _ strategy) by exact Hregistered.
  cbn [ExecutionEngine._registered_strategies ExecutionEngine.set_guid_factory
         ExecutionEngine.set_database ExecutionEngine.log ExecutionEngine.set_log
         ExecutionEngine.set_event_count].
  fold opened.
  set (sent := ExecutionEngine.set_registered_strategies _ _).
  change (ExecutionEngine.handle_event_at 1 (Event.OfPosition opened) sent)
    with (ExecutionEngine._handle_event (ExecutionEngine.handle_event_at 0)
            (Event.OfPosition opened) sent).
  unfold ExecutionEngine._handle_event, ExecutionEngine._handle_position_event.
  cbv zeta. cbn [Event.kind Event.strategy_id opened].
  rewrite (send_to_strategy_hit _ _
             (TradingStrategy.handle_event (Event.OfOrder event) strategy))
    by apply lookup_insert_eq.
  subst sent.
  cbn [ExecutionEngine.event_count ExecutionEngine.database
         ExecutionEngine._registered_strategies ExecutionEngine.portfolio
         ExecutionEngine._guid_factory ExecutionEngine.unraisable
         ExecutionEngine.set_registered_strategies ExecutionEngine.set_guid_factory
         ExecutionEngine.set_database ExecutionEngine.log ExecutionEngine.set_log
         ExecutionEngine.set_event_count].
  unfold InMemoryExecutionDatabase.position_exists,
    InMemoryExecutionDatabase.is_position_open.
  cbn [InMemoryExecutionDatabase._cached_positions
         InMemoryExecutionDatabase._index_positions
         InMemoryExecutionDatabase._index_positions_open
         InMemoryExecutionDatabase.log InMemoryExecutionDatabase.set_log
         InMemoryExecutionDatabase.set_index_positions_open
         InMemoryExecutionDatabase.set_index_positions
         InMemoryExecutionDatabase.set_cached_positions].
  rewrite Hid. split_and!.
  - lia.
  - apply lookup_insert_eq.
  - apply bool_decide_eq_true_2. set_solver.
  - apply bool_decide_eq_true_2. set_solver.
  - apply insert_insert_eq.
  - reflexivity.
  - reflexivity.
  - reflexivity.
Qed.
Lemma update_order_keeps_closed_index order db :
  InMemoryExecutionDatabase._index_positions_closed
    (InMemoryExecutionDatabase.update_order order db)
  = InMemoryExecutionDatabase._index_positions_closed db.
Proof.
  unfold InMemoryExecutionDatabase.update_order.
  destruct (Order.is_working order); [|destruct (Order.is_completed order)];
    reflexivity.
Qed.

(** X19. A later fill updates the position of the order: for an order of the
    database whose strategy is registered and whose position is stored, a
    fill that [Order.apply] accepts puts the position with the fill applied
    into the store. When that closes the position, its id moves from the open
    to the closed index, its realized return goes to the portfolio with the
    time of the fill, and the strategy handles the fill and then the
    PositionClosed event; otherwise the indexes and the portfolio stay as they
    were and the strategy handles the fill and then the PositionModified
    event. Either way two events are counted. *)
Theorem fill_updates_position event order strategy_id strategy position_id position
    engine :
  let order_id := Events.order_id event in
  let db := ExecutionEngine.database engine in
  let engine' := ExecutionEngine.handle_event (Event.OfOrder event) engine in
  let db' := ExecutionEngine.database engine' in
  let position' := Position_apply event position in
  let g := guid_generate (ExecutionEngine._guid_factory engine) in
  let derived kind :=
    {| Event.position := position'; Event.strategy_id := strategy_id;
       Event.order_fill := event; Event.id := g.1;
       Event.timestamp := Events.timestamp event; Event.kind := kind |} in
  let handled kind :=
    <[strategy_id :=
        TradingStrategy.handle_event (Event.OfPosition (derived kind))
          (TradingStrategy.handle_event (Event.OfOrder event) strategy)]>
      (ExecutionEngine._registered_strategies engine) in
  InMemoryExecutionDatabase._cached_orders db !! order_id = Some order →
  (Order.apply event order).1 = None →
  Events.is_fill event = true →
  InMemoryExecutionDatabase.get_strategy_for_order order_id db = Some strategy_id →
  ExecutionEngine._registered_strategies engine !! strategy_id = Some strategy →
  InMemoryExecutionDatabase._index_order_position db !! order_id = Some position_id →
  InMemoryExecutionDatabase._cached_positions db !! position_id = Some position →
  ExecutionEngine.event_count engine' = ExecutionEngine.event_count engine + 2
  ∧ InMemoryExecutionDatabase._cached_positions db' !! position_id = Some position'
  ∧ if Position_is_closed position' then
      InMemoryExecutionDatabase.is_position_closed (Position_id position') db' = true
      ∧ InMemoryExecutionDatabase.is_position_open (Position_id position') db' = false
      ∧ ExecutionEngine.portfolio engine'
        = Portfolio.add_return (Events.timestamp event)
            (Position_return_realized position') (ExecutionEngine.portfolio engine)
      ∧ ExecutionEngine._registered_strategies engine' = handled Event.PositionClosed
    else
      InMemoryExecutionDatabase._index_positions_open db'
      = InMemoryExecutionDatabase._index_positions_open db
      ∧ InMemoryExecutionDatabase._index_positions_closed db'
        = InMemoryExecutionDatabase._index_positions_closed db
      ∧ ExecutionEngine.portfolio engine' = ExecutionEngine.portfolio engine
      ∧ ExecutionEngine._registered_strategies engine' = handled Event.PositionModified.
Proof.
  intros order_id db engine' db' position' g derived handled Horder Haccepted Hfill
    Hstrategy Hregistered Hposition Hcached.
  subst db' engine' handled.
  change (ExecutionEngine.handle_event (Event.OfOrder event) engine)
    with (ExecutionEngine._handle_event (ExecutionEngine.handle_event_at 1)
            (Event.OfOrder event) engine).
  unfold ExecutionEngine._handle_event.
  unfold ExecutionEngine._handle_order_event.
  cbv zeta.
  cbn [ExecutionEngine.database ExecutionEngine.set_event_count].
  fold db order_id. rewrite (get_order_hit _ _ _ Horder).
  cbn [fst snd]. rewrite Haccepted.
  cbn [ExecutionEngine.database ExecutionEngine.set_database].
  unfold InMemoryExecutionDatabase.get_strategy_for_order in *.
  rewrite update_order_keeps_strategy_index.
  cbn [InMemoryExecutionDatabase._index_order_strategy
         InMemoryExecutionDatabase.set_cached_orders].
  rewrite Hstrategy, Hfill.
  unfold ExecutionEngine._handle_order_fill. cbv zeta.
  cbn [ExecutionEngine.database ExecutionEngine.set_database ExecutionEngine.log
         ExecutionEngine.set_log].
  fold order_id.
  set (db1 := InMemoryExecutionDatabase.update_order _ _).
  destruct (update_order_keeps_position_index (Order.apply event order).2
              (InMemoryExecutionDatabase.set_cached_orders
                 (<[order_id := (Order.apply event order).2]>
                    (InMemoryExecutionDatabase._cached_orders db)) db))
    as (Hposition1 & Hcached1 & Hindex1 & Hopen1).
  fold db1 in Hposition1, Hcached1, Hindex1, Hopen1.
  cbn [InMemoryExecutionDatabase._index_order_position
         InMemoryExecutionDatabase._cached_positions
         InMemoryExecutionDatabase._index_positions
         InMemoryExecutionDatabase._index_positions_open
         InMemoryExecutionDatabase.set_cached_orders] in Hposition1, Hcached1,
    Hindex1, Hopen1.
  rewrite (get_position_id_hit order_id position_id db1)
    by (rewrite Hposition1; exact Hposition).
  cbn [fst snd ExecutionEngine.database ExecutionEngine.set_database].
  rewrite (get_position_for_order_hit order_id position_id db1)
    by (rewrite Hposition1; exact Hposition).
  cbn [fst snd ExecutionEngine.database ExecutionEngine.set_database].
  rewrite Hcached1, Hcached.
  fold position'.
  assert (InMemoryExecutionDatabase._index_positions_closed db1
          = InMemoryExecutionDatabase._index_positions_closed db) as Hclosed1
    by (subst db1; rewrite update_order_keeps_closed_index; reflexivity).
  unfold InMemoryExecutionDatabase.update_position,
    ExecutionEngine._position_closed, ExecutionEngine._position_modified,
    ExecutionEngine._position_event.
  cbv zeta.
  destruct (Position_is_closed position') eqn:Hclosed.
  all: cbn [ExecutionEngine._guid_factory ExecutionEngine.set_database
              ExecutionEngine.log ExecutionEngine.set_log
              ExecutionEngine.set_event_count].
  all: fold g.
  all: rewrite (send_to_strategy_hit _ _ strategy) by exact Hregistered.
  all: cbn [ExecutionEngine._registered_strategies ExecutionEngine.set_guid_factory
              ExecutionEngine.set_database ExecutionEngine.log ExecutionEngine.set_log
              ExecutionEngine.set_event_count].
  all: match goal with
       | |- context [ExecutionEngine.handle_event_at 1 ?e ?sent] =>
           change (ExecutionEngine.handle_event_at 1 e sent)
             with (ExecutionEngine._handle_event (ExecutionEngine.handle_event_at 0)
                     e sent)
       end.
  all: unfold ExecutionEngine._handle_event, ExecutionEngine._handle_position_event.
  all: cbv zeta; cbn [Event.kind Event.strategy_id Event.timestamp Event.position].
  all: rewrite (send_to_strategy_hit _ _
                  (TradingStrategy.handle_event (Event.OfOrder event) strategy))
         by apply lookup_insert_eq.
  all: cbn [ExecutionEngine.event_count ExecutionEngine.database
              ExecutionEngine._registered_strategies ExecutionEngine.portfolio
              ExecutionEngine._guid_factory ExecutionEngine.unraisable
              ExecutionEngine.set_registered_strategies
              ExecutionEngine.set_guid_factory ExecutionEngine.set_portfolio
              ExecutionEngine.set_database ExecutionEngine.log ExecutionEngine.set_log
              ExecutionEngine.set_event_count].
  all: unfold InMemoryExecutionDatabase.is_position_closed,
         InMemoryExecutionDatabase.is_position_open.
  all: cbn [InMemoryExecutionDatabase._cached_positions
              InMemoryExecutionDatabase._index_positions
              InMemoryExecutionDatabase._index_positions_open
              InMemoryExecutionDatabase._index_positions_closed
              InMemoryExecutionDatabase.set_index_positions_open
              InMemoryExecutionDatabase.set_index_positions_closed
              InMemoryExecutionDatabase.set_cached_positions].
  all: split_and!.
  all: try lia.
  all: try apply lookup_insert_eq.
  all: try apply insert_insert_eq.
  all: try (apply bool_decide_eq_true_2; set_solver).
  all: try (apply bool_decide_eq_false_2; set_solver).
  all: try reflexivity.
  all: try assumption.
Qed.
(** X20. Registration is undone in the engine and not in the database. After
    [register_strategy] of a strategy the engine did not have, the strategy is
    registered, with the engine registered in it, as the last of the
    registered strategies, and the database knows its id; when the database
    knew the id before, its [add_strategy] writes out a ConditionFailed and
    the registration goes on all the same. A second [register_strategy] only
    reports ConditionFailed. [deregister_strategy] gives the engine its
    former strategies back and leaves the database and the unraisable reports
    alone, so that the database still knows the strategy id: registering the
    strategy again registers it in the engine, changes nothing in the
    database and writes out the ConditionFailed of [add_strategy]. *)
Theorem deregister_keeps_database_strategy strategy engine :
  let strategy_id := TradingStrategy.id strategy in
  let engine1 := ExecutionEngine.register_strategy strategy engine in
  let engine2 := ExecutionEngine.deregister_strategy strategy engine1 in
  let engine3 := ExecutionEngine.register_strategy strategy engine2 in
  ExecutionEngine._registered_strategies engine !! strategy_id = None →
  ExecutionEngine._registered_strategies engine1 !! strategy_id
  = Some (TradingStrategy.register_execution_engine strategy)
  ∧ ExecutionEngine.registered_strategies engine1
    = ExecutionEngine.registered_strategies engine ++ [strategy_id]
  ∧ strategy_id
      ∈ InMemoryExecutionDatabase.get_strategy_ids (ExecutionEngine.database engine1)
  ∧ ExecutionEngine.unraisable engine1
    = ExecutionEngine.unraisable engine
        ++ (if bool_decide
                 (strategy_id ∈ InMemoryExecutionDatabase.get_strategy_ids
                                  (ExecutionEngine.database engine))
            then [ConditionFailed] else [])
  ∧ ExecutionEngine.register_strategy strategy engine1
    = ExecutionEngine.absorb (Some ConditionFailed) engine1
  ∧ ExecutionEngine._registered_strategies engine2
    = ExecutionEngine._registered_strategies engine
  ∧ ExecutionEngine.database engine2 = ExecutionEngine.database engine1
  ∧ ExecutionEngine.unraisable engine2 = ExecutionEngine.unraisable engine1
  ∧ ExecutionEngine._registered_strategies engine3
    = ExecutionEngine._registered_strategies engine1
  ∧ ExecutionEngine.database engine3 = ExecutionEngine.database engine1
  ∧ ExecutionEngine.unraisable engine3
    = ExecutionEngine.unraisable engine1 ++ [ConditionFailed].
Proof.
  intros strategy_id engine1 engine2 engine3 Hnew.
  assert (∀ engine0,
            ExecutionEngine._registered_strategies engine0 !! strategy_id = None →
            let added := InMemoryExecutionDatabase.add_strategy strategy
                           (ExecutionEngine.database engine0) in
            let engine' := ExecutionEngine.register_strategy strategy engine0 in
            ExecutionEngine._registered_strategies engine'
            = <[strategy_id := TradingStrategy.register_execution_engine strategy]>
                (ExecutionEngine._registered_strategies engine0)
            ∧ ExecutionEngine._registered_keys engine'
              = ExecutionEngine._registered_keys engine0 ++ [strategy_id]
            ∧ ExecutionEngine.database engine' = added.2
            ∧ ExecutionEngine.unraisable engine'
              = ExecutionEngine.unraisable engine0 ++ option_list added.1)
    as Hregister.
  { intros engine0 Hnew0. cbv zeta. unfold ExecutionEngine.register_strategy.
    cbv zeta. fold strategy_id.
    rewrite bool_decide_eq_false_2 by (rewrite Hnew0; by intros [? ?]).
    cbn [ExecutionEngine.database ExecutionEngine.set_registered_keys
           ExecutionEngine.set_registered_strategies].
    destruct (InMemoryExecutionDatabase.add_strategy strategy
                (ExecutionEngine.database engine0)) as [[x|] db'];
      cbn [fst snd ExecutionEngine.absorb ExecutionEngine._registered_strategies
             ExecutionEngine._registered_keys ExecutionEngine.database
             ExecutionEngine.unraisable ExecutionEngine.log ExecutionEngine.set_log
             ExecutionEngine.set_database ExecutionEngine.set_unraisable
             ExecutionEngine.set_registered_keys
             ExecutionEngine.set_registered_strategies option_list];
      rewrite insert_insert_eq, ?app_nil_r; by split_and!. }
  assert (∀ db,
            (strategy_id ∈ InMemoryExecutionDatabase.get_strategy_ids db →
             InMemoryExecutionDatabase.add_strategy strategy db
             = (Some ConditionFailed, db))
            ∧ strategy_id
                ∈ InMemoryExecutionDatabase.get_strategy_ids
                    (InMemoryExecutionDatabase.add_strategy strategy db).2
            ∧ (strategy_id ∉ InMemoryExecutionDatabase.get_strategy_ids db →
               (InMemoryExecutionDatabase.add_strategy strategy db).1 = None))
    as Hadd.
  { intros db. unfold InMemoryExecutionDatabase.add_strategy,
      InMemoryExecutionDatabase.get_strategy_ids. fold strategy_id.
    case_bool_decide; simpl; split_and!; try done; set_solver. }
  destruct (Hregister engine Hnew) as (Hmap1 & Hkeys1 & Hdb1 & Hraised1).
  cbv zeta in Hmap1, Hkeys1, Hdb1, Hraised1.
  fold engine1 in Hmap1, Hkeys1, Hdb1, Hraised1.
  destruct (Hadd (ExecutionEngine.database engine)) as (Hadded & Hknown & Hfresh).
  rewrite <- Hdb1 in Hknown.
  assert (ExecutionEngine._registered_strategies engine1 !! strategy_id
          = Some (TradingStrategy.register_execution_engine strategy)) as Hregistered.
  { rewrite Hmap1. apply lookup_insert_eq. }
  assert (ExecutionEngine._registered_strategies engine2
          = ExecutionEngine._registered_strategies engine
          ∧ ExecutionEngine.database engine2 = ExecutionEngine.database engine1
          ∧ ExecutionEngine.unraisable engine2 = ExecutionEngine.unraisable engine1)
    as (Hmap2 & Hdb2 & Hraised2).
  { subst engine2. unfold ExecutionEngine.deregister_strategy. cbv zeta.
    fold strategy_id. rewrite bool_decide_eq_false_2 by (by rewrite Hregistered).
    cbn [ExecutionEngine._registered_strategies ExecutionEngine.database
           ExecutionEngine.unraisable ExecutionEngine.log ExecutionEngine.set_log
           ExecutionEngine.set_registered_keys
           ExecutionEngine.set_registered_strategies].
    split_and!; [|reflexivity|reflexivity].
    rewrite Hmap1, delete_insert_eq. by apply delete_id. }
  destruct (Hregister engine2) as (Hmap3 & _ & Hdb3 & Hraised3);
    [by rewrite Hmap2|].
  cbv zeta in Hmap3, Hdb3, Hraised3. fold engine3 in Hmap3, Hdb3, Hraised3.
  destruct (Hadd (ExecutionEngine.database engine2)) as (Hadded2 & _ & _).
  rewrite Hdb2 in Hadded2, Hdb3, Hraised3.
  rewrite (Hadded2 Hknown) in Hdb3, Hraised3. cbn [fst snd option_list] in Hdb3, Hraised3.
  split_and!.
  - exact Hregistered.
  - exact Hkeys1.
  - exact Hknown.
  - rewrite Hraised1. f_equal. case_bool_decide as Hin.
    + by rewrite (Hadded Hin).
    + by rewrite (Hfresh Hin).
  - unfold ExecutionEngine.register_strategy. cbv zeta. fold strategy_id.
    rewrite bool_decide_eq_true_2; [reflexivity|]. by rewrite Hregistered.
  - exact Hmap2.
  - exact Hdb2.
  - exact Hraised2.
  - by rewrite Hmap3, Hmap2, Hmap1.
  - exact Hdb3.
  - by rewrite Hraised3, Hraised2.
Qed.

End more_engine_properties.

Section more_engine_examples.
#[local] Existing Instance Sample.exact_doubles.
#[local] Existing Instance Sample.constant_guids.
#[local] Existing Instance Sample.recording_positions.

Lemma execute_command_counts_and_forwards_witness :
  ∃ engine',
    ExecutionEngine.execute_command Sample.submit_limit_sell_100 Sample.trading_engine
    = Some engine'
    ∧ ExecutionEngine.command_count engine' = 2
    ∧ ExecutionEngine._exec_client engine'
      = Some [Sample.submit_limit_sell_100; Sample.submit_limit_sell_100]
    ∧ ExecutionEngine.database engine' = ExecutionEngine.database Sample.trading_engine
    ∧ ExecutionEngine.unraisable engine' = [ConditionFailed].
Proof.
  destruct (execute_command_counts_and_forwards Sample.submit_limit_sell_100
              [Sample.submit_limit_sell_100] Sample.trading_engine)
    as (engine' & Hrun & Hcount & _ & _ & Hclient & Hdatabase & Hraised).
  - vm_compute. reflexivity.
  - exists engine'. split; [exact Hrun|]. split; [exact Hcount|].
    split; [exact Hclient|]. split.
    + rewrite Hdatabase. vm_compute. reflexivity.
    + rewrite Hraised. vm_compute. reflexivity.
Defined.

Lemma order_event_reaches_its_strategy_witness :
  let engine' :=
    ExecutionEngine.handle_event (Event.OfOrder Sample.submitted)
      Sample.trading_engine in
  InMemoryExecutionDatabase._cached_orders (ExecutionEngine.database engine') !! "O-1"
  = Some (Order.apply Sample.submitted Sample.limit_sell_100_order).2
  ∧ ExecutionEngine._registered_strategies engine' !! "S-1"
    = Some {| TradingStrategy.id := "S-1";
              TradingStrategy.handled := [Event.OfOrder Sample.submitted];
              TradingStrategy.has_execution_engine := true |}.
Proof.
  intros engine'.
  destruct (order_event_reaches_its_strategy Sample.submitted
              Sample.limit_sell_100_order "S-1"
              (TradingStrategy.register_execution_engine Sample.strategy)
              Sample.trading_engine)
    as [Hstored Hrest].
  - vm_compute. reflexivity.
  - reflexivity.
  - vm_compute. reflexivity.
  - vm_compute. reflexivity.
  - split; [exact Hstored|].
    change (Order.apply Sample.submitted Sample.limit_sell_100_order).1
      with (@None Exn) in Hrest.
    destruct Hrest as (Hhandled & _ & _). fold engine' in Hhandled.
    rewrite Hhandled. apply lookup_insert_eq.
Defined.

Lemma fill_opens_position_witness :
  let event := Sample.fill "X-1" 100 (Sample.cents 15000) 5 in
  let engine' :=
    ExecutionEngine.handle_event (Event.OfOrder event) Sample.trading_engine in
  ExecutionEngine.event_count engine' = 2
  ∧ InMemoryExecutionDatabase.is_position_open "P-1"
      (ExecutionEngine.database engine') = true.
Proof.
  intros event engine'.
  destruct (fill_opens_position event Sample.limit_sell_100_order "S-1"
              (TradingStrategy.register_execution_engine Sample.strategy)
              "P-1" Sample.trading_engine) as (Hcount & _ & _ & Hopen & _).
  - vm_compute. reflexivity.
  - vm_compute. reflexivity.
  - reflexivity.
  - vm_compute. reflexivity.
  - vm_compute. reflexivity.
  - vm_compute. reflexivity.
  - vm_compute. reflexivity.
  - vm_compute. intros Hin. discriminate Hin.
  - vm_compute. intros Hin. discriminate Hin.
  - reflexivity.
  - split; [exact Hcount|exact Hopen].
Defined.

Lemma fill_updates_position_witness :
  let first := Sample.fill "X-1" 40 (Sample.cents 15000) 5 in
  let second := Sample.fill "X-2" 100 (Sample.cents 15010) 6 in
  let engine :=
    ExecutionEngine.handle_event (Event.OfOrder first) Sample.trading_engine in
  let engine' := ExecutionEngine.handle_event (Event.OfOrder second) engine in
  ExecutionEngine.event_count engine' = 4
  ∧ InMemoryExecutionDatabase._cached_positions (ExecutionEngine.database engine')
      !! "P-1" = Some (("P-1", [first; second]) : @Position Sample.recording_positions).
Proof.
  intros first second engine engine'.
  destruct (fill_updates_position second
              (Order.apply first Sample.limit_sell_100_order).2 "S-1"
              {| TradingStrategy.id := "S-1";
                 TradingStrategy.handled :=
                   [Event.OfOrder first;
                    Event.OfPosition
                      {| Event.position :=
                           (("P-1", [first]) : @Position Sample.recording_positions);
                         Event.strategy_id := "S-1"; Event.order_fill := first;
                         Event.id := "00000000-0000-0000-0000-000000000000";
                         Event.timestamp := 5;
                         Event.kind := Event.PositionOpened |}];
                 TradingStrategy.has_execution_engine := true |}
              "P-1" (("P-1", [first]) : @Position Sample.recording_positions) engine)
    as (Hcount & Hstored & _).
  - vm_compute. reflexivity.
  - vm_compute. reflexivity.
  - reflexivity.
  - vm_compute. reflexivity.
  - vm_compute. reflexivity.
  - vm_compute. reflexivity.
  - vm_compute. reflexivity.
  - split; [exact Hcount|exact Hstored].
Defined.

Lemma deregister_keeps_database_strategy_witness :
  let engine1 := ExecutionEngine.register_strategy Sample.strategy Sample.engine in
  let engine2 := ExecutionEngine.deregister_strategy Sample.strategy engine1 in
  let engine3 := ExecutionEngine.register_strategy Sample.strategy engine2 in
  ExecutionEngine._registered_strategies engine2 = ∅
  ∧ InMemoryExecutionDatabase.get_strategy_ids (ExecutionEngine.database engine2)
    = {["S-1"]}
  ∧ ExecutionEngine.unraisable engine1 = []
  ∧ ExecutionEngine.unraisable engine3 = [ConditionFailed].
Proof.
  intros engine1 engine2 engine3.
  destruct (deregister_keeps_database_strategy Sample.strategy Sample.engine)
    as (_ & _ & _ & Hraised1 & _ & Hregistered & Hdatabase & _ & _ & _ & Hraised3).
  - apply lookup_empty.
  - fold engine1 engine2 in Hdatabase. fold engine1 in Hraised1.
    fold engine1 engine2 engine3 in Hraised3.
    split; [exact Hregistered|]. split; [rewrite Hdatabase; vm_compute; reflexivity|].
    assert (ExecutionEngine.unraisable engine1 = []) as Hnone
      by (rewrite Hraised1; vm_compute; reflexivity).
    split; [exact Hnone|]. rewrite Hraised3, Hnone. reflexivity.
Defined.

End more_engine_examples.

(** * Further properties of timers and the test clock *)

Section more_clock_properties.
Context `{Guids}.

(** What the loop of [TestTimer.advance] appends when it returns, whatever
    fuel it has: events one interval apart from [next_time] on, none later
    than [to_time], all but the last before the stop time. The loop changes
    the next time, the expiry flag and the GUID factory of the timer, nothing
    else. *)
Lemma Timer_advance_loop_events fuel timer to_time events r :
  Timer.advance_loop fuel timer to_time events = inr r →
  ∃ new,
    r.1 = events ++ new
    ∧ Timer.next_time r.2
      = Timer.next_time timer + Z.of_nat (length new) * Timer.interval timer
    ∧ (Timer.expired timer = true → new = [])
    ∧ (∀ k event, new !! k = Some event →
         TimeEvent.label event = Timer.label timer
         ∧ TimeEvent.timestamp event
           = Timer.next_time timer + Z.of_nat k * Timer.interval timer
         ∧ TimeEvent.timestamp event ≤ to_time
         ∧ ∀ stop, Timer.stop_time timer = Some stop →
                   (S k < length new)%nat → TimeEvent.timestamp event < stop)
    ∧ Timer.label r.2 = Timer.label timer
    ∧ Timer.callback r.2 = Timer.callback timer
    ∧ Timer.interval r.2 = Timer.interval timer
    ∧ Timer.stop_time r.2 = Timer.stop_time timer
    ∧ (datetime_min ≤ Timer.next_time timer ≤ datetime_max →
       datetime_min ≤ Timer.next_time r.2 ≤ datetime_max).
Proof.
  revert timer events.
  induction fuel as [|fuel IH]; intros timer events.
  { simpl. intros [= <-]. exists []. rewrite app_nil_r.
    split_and!; try done. simpl. lia. }
  rewrite Timer_advance_loop_step.
  destruct (Timer.expired timer) eqn:Hexpired; cbn [negb andb].
  { intros [= <-]. exists []. rewrite app_nil_r.
    split_and!; try done. simpl. lia. }
  destruct (Z.leb_spec (Timer.next_time timer) to_time) as [Hle|Hlt].
  2: { intros [= <-]. exists []. rewrite app_nil_r.
       split_and!; try done. simpl. lia. }
  cbv zeta.
  destruct (Timer.iterate_event _ _ _) as [x|r1] eqn:Hiterate; [done|].
  apply Timer_iterate_event_spec in Hiterate
    as (Hstamp & Hlabel & _ & Hlabel1 & Hcallback1 & Hinterval1 & Hstop1 & _ & Hnext1
        & Hrange1 & Hexpired1).
  cbn [Timer.label Timer.callback Timer.interval Timer.next_time Timer.stop_time
         Timer.expired Timer.set_guid_factory] in *.
  intros Hloop.
  destruct (IH r1.2 (events ++ [r1.1]) Hloop)
    as (new & Hnew & Hnext & Hnone & Hevents & Hl & Hc & Hi & Hs & Hr).
  exists (r1.1 :: new). split_and!.
  - rewrite Hnew, <- app_assoc. reflexivity.
  - rewrite Hnext, Hnext1, Hinterval1. simpl length. lia.
  - done.
  - intros [|k] event Hk; simpl in Hk.
    + injection Hk as <-. split_and!; [done|lia|lia|].
      intros stop Hstop Hmore. rewrite Hstamp.
      destruct (Z.leb_spec stop (Timer.next_time timer)) as [Hreached|]; [|lia].
      rewrite Hstop, (proj2 (Z.leb_le _ _) Hreached) in Hexpired1.
      rewrite (Hnone Hexpired1) in Hmore. simpl in Hmore. lia.
    + destruct (Hevents k event Hk) as (Hlk & Ht & Hto & Hbefore).
      split_and!; [congruence| |done|].
      * rewrite Ht, Hnext1, Hinterval1. lia.
      * intros stop Hstop Hmore. apply Hbefore; [congruence|]. simpl in Hmore. lia.
  - congruence.
  - congruence.
  - congruence.
  - congruence.
  - intros _. by apply Hr.
Qed.

(** Without a stop time the loop gives one event per interval up to
    [to_time], when it has the fuel for them. *)
Lemma Timer_advance_loop_count fuel timer to_time events r :
  0 < Timer.interval timer →
  Timer.stop_time timer = None →
  Timer.expired timer = false →
  (to_time - Timer.next_time timer) `div` Timer.interval timer + 1 ≤ Z.of_nat fuel →
  Timer.advance_loop fuel timer to_time events = inr r →
  Z.of_nat (length r.1)
  = Z.of_nat (length events)
    + Z.max 0 ((to_time - Timer.next_time timer) `div` Timer.interval timer + 1)
  ∧ Timer.expired r.2 = false.
Proof.
  revert timer events.
  induction fuel as [|fuel IH]; intros timer events Hpos Hstop Hexpired Hfuel.
  { simpl. intros [= <-]. split; [|done]. simpl.
    destruct (decide (to_time < Timer.next_time timer)).
    - assert ((to_time - Timer.next_time timer) `div` Timer.interval timer < 0)
        by (apply Z.div_lt_upper_bound; lia).
      lia.
    - assert (0 ≤ (to_time - Timer.next_time timer) `div` Timer.interval timer)
        by (apply Z.div_pos; lia).
      lia. }
  rewrite Timer_advance_loop_step, Hexpired. cbn [negb andb].
  destruct (Z.leb_spec (Timer.next_time timer) to_time) as [Hle|Hlt].
  2: { intros [= <-]. split; [|done]. simpl.
       assert ((to_time - Timer.next_time timer) `div` Timer.interval timer < 0)
         by (apply Z.div_lt_upper_bound; lia).
       lia. }
  cbv zeta.
  destruct (Timer.iterate_event _ _ _) as [x|r1] eqn:Hiterate; [done|].
  apply Timer_iterate_event_spec in Hiterate
    as (_ & _ & _ & _ & _ & Hinterval1 & Hstop1 & _ & Hnext1 & _ & Hexpired1).
  cbn [Timer.label Timer.callback Timer.interval Timer.next_time Timer.stop_time
         Timer.expired Timer.set_guid_factory] in *.
  rewrite Hstop in Hstop1, Hexpired1. rewrite Hexpired in Hexpired1.
  assert ((to_time - Timer.next_time r1.2) `div` Timer.interval r1.2
          = (to_time - Timer.next_time timer) `div` Timer.interval timer - 1)
    as Hdiv.
  { rewrite Hnext1, Hinterval1.
    replace (to_time - (Timer.next_time timer + Timer.interval timer))
      with (to_time - Timer.next_time timer + -1 * Timer.interval timer) by lia.
    rewrite Z.div_add by lia. lia. }
  intros Hloop.
  destruct (IH r1.2 (events ++ [r1.1])) as [Hcount Hfinal];
    [by rewrite Hinterval1|done|done|lia|exact Hloop|].
  split; [|done]. rewrite Hcount, Hdiv, length_app. simpl.
  assert (0 ≤ (to_time - Timer.next_time timer) `div` Timer.interval timer)
    by (apply Z.div_pos; lia).
  lia.
Qed.

(** The loop returns when no next time on the way to [to_time] overflows. *)
Lemma Timer_advance_loop_returns fuel timer to_time events :
  0 < Timer.interval timer →
  datetime_min ≤ Timer.next_time timer →
  to_time + Timer.interval timer ≤ datetime_max →
  ∃ r, Timer.advance_loop fuel timer to_time events = inr r.
Proof.
  revert timer events.
  induction fuel as [|fuel IH]; intros timer events Hpos Hmin Hmax.
  { by eexists. }
  rewrite Timer_advance_loop_step.
  destruct (negb (Timer.expired timer)); cbn [andb]; [|by eexists].
  destruct (Z.leb_spec (Timer.next_time timer) to_time) as [Hle|Hlt]; [|by eexists].
  cbv zeta.
  destruct (Timer.iterate_event _ _ _) as [x|r1] eqn:Hiterate.
  - apply Timer_iterate_event_raises in Hiterate as [_ Hout].
    cbn [Timer.interval Timer.next_time Timer.set_guid_factory] in Hout.
    exfalso. apply Hout. lia.
  - apply Timer_iterate_event_spec in Hiterate
      as (_ & _ & _ & _ & _ & Hinterval1 & _ & _ & Hnext1 & _).
    cbn [Timer.interval Timer.next_time Timer.set_guid_factory] in *.
    apply IH; rewrite ?Hinterval1, ?Hnext1; lia.
Qed.

(** The loop raises nothing but the OverflowError of a next time that is no
    datetime, and leaves the timer unexpired with its label, interval and
    stop time. *)
Lemma Timer_advance_loop_raises fuel timer to_time events x timer' :
  Timer.advance_loop fuel timer to_time events = inl (x, timer') →
  x = OverflowError
  ∧ Timer.expired timer' = false
  ∧ Timer.next_time timer' ≤ to_time
  ∧ ¬ (datetime_min ≤ Timer.next_time timer' + Timer.interval timer' ≤ datetime_max)
  ∧ Timer.label timer' = Timer.label timer
  ∧ Timer.callback timer' = Timer.callback timer
  ∧ Timer.interval timer' = Timer.interval timer
  ∧ Timer.stop_time timer' = Timer.stop_time timer
  ∧ (datetime_min ≤ Timer.next_time timer ≤ datetime_max →
     datetime_min ≤ Timer.next_time timer' ≤ datetime_max).
Proof.
  revert timer events.
  induction fuel as [|fuel IH]; intros timer events; [done|].
  rewrite Timer_advance_loop_step.
  destruct (Timer.expired timer) eqn:Hexpired; cbn [negb andb]; [done|].
  destruct (Z.leb_spec (Timer.next_time timer) to_time) as [Hle|Hlt]; [|done].
  cbv zeta.
  destruct (Timer.iterate_event _ _ _) as [y|r1] eqn:Hiterate.
  - intros [= <- <-].
    apply Timer_iterate_event_raises in Hiterate as [-> Hout].
    cbn [Timer.interval Timer.next_time Timer.set_guid_factory] in Hout.
    by split_and!.
  - apply Timer_iterate_event_spec in Hiterate
      as (_ & _ & _ & Hlabel1 & Hcallback1 & Hinterval1 & Hstop1 & _ & _ & Hrange1 & _).
    cbn [Timer.label Timer.callback Timer.interval Timer.stop_time
           Timer.set_guid_factory] in *.
    intros Hloop.
    destruct (IH r1.2 (events ++ [r1.1]) Hloop)
      as (-> & ? & ? & ? & Hl & Hc & Hi & Hs & Hr).
    split_and!; try done; try congruence. intros _. by apply Hr.
Qed.

(** X21. [TestTimer.advance] of a timer with a positive interval either
    returns or raises OverflowError. When it returns, its events are those of
    the timer up to [to_time]: the k-th carries the label of the timer and
    the time [next_time + k * interval], which is not after [to_time]; every
    event but the last lies before the stop time; the timer has moved on by
    one interval per event and is left expired or with its next time after
    [to_time]; a timer that was expired gives no event, and a timer without
    stop time that is not expired gives one event per interval,
    [(to_time - next_time) div interval + 1] of them when that is positive,
    and stays unexpired. It returns whenever [next_time] is a datetime and
    [to_time + interval] is not past the last datetime. It raises only when
    the timer, live and due, has a next time that one more interval takes
    out of the datetimes; the timer then keeps that next time. *)
Theorem Timer_advance_events timer to_time :
  0 < Timer.interval timer →
  (∀ r, Timer.advance timer to_time = inr r →
     (∀ k event, r.1 !! k = Some event →
        TimeEvent.label event = Timer.label timer
        ∧ TimeEvent.timestamp event
          = Timer.next_time timer + Z.of_nat k * Timer.interval timer
        ∧ TimeEvent.timestamp event ≤ to_time
        ∧ ∀ stop, Timer.stop_time timer = Some stop →
                  (S k < length r.1)%nat → TimeEvent.timestamp event < stop)
     ∧ Timer.next_time r.2
       = Timer.next_time timer + Z.of_nat (length r.1) * Timer.interval timer
     ∧ (Timer.expired r.2 = true ∨ to_time < Timer.next_time r.2)
     ∧ (Timer.expired timer = true → r.1 = [])
     ∧ (Timer.stop_time timer = None → Timer.expired timer = false →
        Z.of_nat (length r.1)
        = Z.max 0 ((to_time - Timer.next_time timer) `div` Timer.interval timer + 1)
        ∧ Timer.expired r.2 = false))
  ∧ (datetime_min ≤ Timer.next_time timer →
     to_time + Timer.interval timer ≤ datetime_max →
     ∃ r, Timer.advance timer to_time = inr r)
  ∧ (∀ x timer', Timer.advance timer to_time = inl (x, timer') →
       x = OverflowError
       ∧ Timer.expired timer' = false
       ∧ Timer.next_time timer' ≤ to_time
       ∧ ¬ (datetime_min ≤ Timer.next_time timer' + Timer.interval timer
            ≤ datetime_max)).
Proof.
  intros Hpos. split_and!.
  - intros r Hadvance.
    destruct (Timer_advance_loop_events _ _ _ _ _ Hadvance)
      as (new & Hnew & Hnext & Hnone & Hevents & _).
    simpl in Hnew. subst new.
    split_and!; [exact Hevents|exact Hnext| |exact Hnone|].
    + by apply (Timer_advance_exits timer to_time r Hpos).
    + intros Hstop Hexpired.
      destruct (Timer_advance_loop_count (Timer.advance_fuel timer to_time) timer
                  to_time [] r Hpos Hstop Hexpired) as [Hcount Hfinal];
        [unfold Timer.advance_fuel; lia|exact Hadvance|].
      split; [exact Hcount|exact Hfinal].
  - intros Hmin Hmax. by apply Timer_advance_loop_returns.
  - intros x timer' Hadvance.
    destruct (Timer_advance_loop_raises _ _ _ _ _ _ Hadvance)
      as (-> & ? & ? & Hout & _ & _ & Hinterval & _).
    rewrite Hinterval in Hout. by split_and!.
Qed.

Lemma Dict_set_new {V} key (v : V) d :
  key ∉ d.*1 → Dict.set key v d = d ++ [(key, v)].
Proof.
  induction d as [|[k w] d IH]; intros Hnew; simpl; [done|].
  rewrite bool_decide_eq_false_2 by set_solver.
  rewrite IH by set_solver. done.
Qed.

Lemma Dict_get_new {V} key (v : V) d :
  key ∉ d.*1 → Dict.get key (d ++ [(key, v)]) = Some v.
Proof.
  unfold Dict.get. induction d as [|[k w] d IH]; intros Hnew; simpl.
  - by rewrite bool_decide_eq_true_2.
  - rewrite bool_decide_eq_false_2 by set_solver. apply IH. set_solver.
Qed.

(** [_update_timing] only sets [next_event_time]. *)
Lemma update_timing_fields clock :
  let clock' := TestClock._update_timing clock in
  TestClock._timers clock' = TestClock._timers clock
  ∧ TestClock._handlers clock' = TestClock._handlers clock
  ∧ TestClock._stack clock' = TestClock._stack clock
  ∧ TestClock.timer_count clock' = TestClock.timer_count clock
  ∧ TestClock._time clock' = TestClock._time clock
  ∧ TestClock._default_handler clock' = TestClock._default_handler clock
  ∧ TestClock._guid_factory clock' = TestClock._guid_factory clock.
Proof.
  unfold TestClock._update_timing. cbv zeta.
  destruct clock as [guids timers handlers stack default count next label registered
                       time].
  cbn [TestClock.timer_count TestClock._stack].
  destruct (count =? 0); [by split_and!|].
  destruct stack; [by split_and!|].
  destruct (count =? 1); by split_and!.
Qed.

Lemma add_timer_fields timer handler clock :
  let clock' := TestClock._add_timer timer handler clock in
  TestClock._timers clock'
  = Dict.set (Timer.label timer) timer (TestClock._timers clock)
  ∧ TestClock._handlers clock'
    = Dict.set (Timer.label timer) handler (TestClock._handlers clock)
  ∧ TestClock._stack clock' = Dict.values (TestClock._timers clock')
  ∧ TestClock.timer_count clock' = Z.of_nat (length (TestClock._timers clock'))
  ∧ TestClock._time clock' = TestClock._time clock
  ∧ TestClock._default_handler clock' = TestClock._default_handler clock
  ∧ TestClock._guid_factory clock' = TestClock._guid_factory clock.
Proof.
  unfold TestClock._add_timer. cbv zeta.
  destruct (update_timing_fields
              (TestClock._update_stack
                 (TestClock.set_handlers
                    (Dict.set (Timer.label timer) handler
                       (TestClock._handlers
                          (TestClock.set_timers
                             (Dict.set (Timer.label timer) timer
                                (TestClock._timers clock)) clock)))
                    (TestClock.set_timers
                       (Dict.set (Timer.label timer) timer (TestClock._timers clock))
                       clock))))
    as (-> & -> & -> & -> & -> & -> & ->).
  by split_and!.
Qed.

Lemma Timer_init_spec label callback interval start_time stop_time timer :
  Timer.__init__ label callback interval start_time stop_time = inr timer ↔
  0 < interval
  ∧ datetime_min ≤ start_time + interval ≤ datetime_max
  ∧ (∀ stop, stop_time = Some stop → start_time + interval ≤ stop)
  ∧ timer = {| Timer.label := label; Timer.callback := callback;
               Timer.interval := interval; Timer.start_time := start_time;
               Timer.next_time := start_time + interval;
               Timer.stop_time := stop_time; Timer.expired := false;
               Timer._guid_factory := TestGuidFactory_new |}.
Proof.
  unfold Timer.__init__, Condition.positive, Condition.true_, raise, mbind,
    result_bind, mret, result_ret.
  destruct (Z.ltb_spec 0 interval) as [Hpos|Hneg];
    [|split; [done|intros (? & _); lia]].
  destruct (datetime_add start_time interval) as [x|next] eqn:Hadd.
  - assert (¬ (datetime_min ≤ start_time + interval ≤ datetime_max)) as Hout.
    { intros Hrange. unfold datetime_add, raise in Hadd.
      rewrite (proj2 (Z.leb_le _ _) (proj1 Hrange)) in Hadd.
      by rewrite (proj2 (Z.leb_le _ _) (proj2 Hrange)) in Hadd. }
    destruct stop_time; (split; [done|intros (_ & ? & _); done]).
  - apply datetime_add_spec in Hadd as [-> Hrange].
    destruct stop_time as [stop|].
    + destruct (Z.leb_spec (start_time + interval) stop) as [Hle|Hgt].
      * split; [intros [= <-]; split_and!; try done; try apply Hrange;
                by intros ? [= <-]|].
        by intros (_ & _ & _ & ->).
      * split; [done|]. intros (_ & _ & Hstop & _). specialize (Hstop stop eq_refl).
        lia.
    + split; [intros [= <-]; split_and!; try done; apply Hrange|].
      by intros (_ & _ & _ & ->).
Qed.

Lemma Timer_init_raises label callback interval start_time stop_time x :
  Timer.__init__ label callback interval start_time stop_time = inl x →
  x = ConditionFailed
  ∨ x = OverflowError
    ∧ ¬ (datetime_min ≤ start_time + interval ≤ datetime_max).
Proof.
  unfold Timer.__init__, Condition.positive, Condition.true_, raise, mbind,
    result_bind, mret, result_ret.
  destruct (0 <? interval); [|intros [= <-]; by left].
  destruct (datetime_add start_time interval) as [y|next] eqn:Hadd.
  - assert (y = OverflowError
            ∧ ¬ (datetime_min ≤ start_time + interval ≤ datetime_max)) as [-> Hout].
    { split; [by eapply datetime_add_raises|].
      intros Hrange. unfold datetime_add, raise in Hadd.
      rewrite (proj2 (Z.leb_le _ _) (proj1 Hrange)) in Hadd.
      by rewrite (proj2 (Z.leb_le _ _) (proj2 Hrange)) in Hadd. }
    destruct stop_time; intros [= <-]; by right.
  - destruct stop_time as [stop|]; [|done].
    destruct (next <=? stop); [done|]. intros [= <-]. by left.
Qed.

(** X22. [set_time_alert] is refused with ConditionFailed unless the label is
    new to the timers and to the handlers of the clock, the alert time is
    after the time of the clock, not at it, and a handler is given or a
    default handler is registered. With all of that, and the alert time a
    datetime, it succeeds: the label is the last of the timer labels, the
    timer count is the number of timers, the time of the clock is as before,
    and the timer of the label fires at the alert time, which is also its
    stop time. An alert time of the model that is no datetime, which no call
    of the code can pass, gives OverflowError. *)
Theorem set_time_alert_conditions label alert_time handler clock :
  let chosen :=
    match handler with None => TestClock._default_handler clock | h => h end in
  let accepted :=
    ((label ∉ TestClock.get_timer_labels clock)
     ∧ (label ∉ (TestClock._handlers clock).*1)
     ∧ (TestClock.time_now clock < alert_time)
     ∧ is_Some chosen) in
  let r := TestClock.set_time_alert label alert_time handler clock in
  (¬ accepted → r = inl ConditionFailed)
  ∧ (accepted → ¬ (datetime_min ≤ alert_time ≤ datetime_max) →
     r = inl OverflowError)
  ∧ (accepted → datetime_min ≤ alert_time ≤ datetime_max →
     ∃ clock' timer,
       r = inr clock'
       ∧ TestClock.get_timer_labels clock'
         = TestClock.get_timer_labels clock ++ [label]
       ∧ TestClock.timer_count clock'
         = Z.of_nat (length (TestClock.get_timer_labels clock)) + 1
       ∧ TestClock.time_now clock' = TestClock.time_now clock
       ∧ Dict.get label (TestClock._timers clock') = Some timer
       ∧ Timer.next_time timer = alert_time
       ∧ Timer.stop_time timer = Some alert_time
       ∧ Timer.expired timer = false
       ∧ Some (Timer.callback timer) = chosen).
Proof.
  intros chosen accepted r. subst r accepted.
  unfold TestClock.set_time_alert, TestClock.get_timer_labels, TestClock.time_now,
    Condition.not_in_dict, Condition.true_, Condition.not_none, raise, mbind,
    result_bind, mret, result_ret.
  cbv zeta. fold chosen.
  case_bool_decide as Htimers; [|split_and!; [done|tauto|tauto]].
  case_bool_decide as Hhandlers; [|split_and!; [done|tauto|tauto]].
  destruct (Z.leb_spec (TestClock._time clock) alert_time) as [Hle|Hlt];
    [|split_and!; [done|intros (_ & _ & ? & _); lia|intros (_ & _ & ? & _); lia]].
  destruct chosen as [callback|] eqn:Hchosen;
    [|split_and!; [done|by intros (_ & _ & _ & [? ?])|by intros (_ & _ & _ & [? ?])]].
  destruct (Timer.__init__ label callback (alert_time - TestClock._time clock)
              (TestClock._time clock) (Some alert_time)) as [x|timer] eqn:Hinit.
  - apply Timer_init_raises in Hinit as Hraised.
    destruct (decide (TestClock._time clock < alert_time)) as [Hlater|Hnow].
    + destruct Hraised as [->|[-> Hout]].
      * exfalso.
        destruct (decide (datetime_min ≤ alert_time ≤ datetime_max)) as [Hrange|Hout].
        -- assert (Timer.__init__ label callback (alert_time - TestClock._time clock)
                     (TestClock._time clock) (Some alert_time)
                   = inr {| Timer.label := label; Timer.callback := callback;
                            Timer.interval := alert_time - TestClock._time clock;
                            Timer.start_time := TestClock._time clock;
                            Timer.next_time :=
                              TestClock._time clock
                              + (alert_time - TestClock._time clock);
                            Timer.stop_time := Some alert_time;
                            Timer.expired := false;
                            Timer._guid_factory := TestGuidFactory_new |}) as Hok.
           { apply Timer_init_spec. split_and!; try done; try lia.
             intros ? [= <-]. lia. }
           congruence.
        -- revert Hinit. unfold Timer.__init__, Condition.positive, Condition.true_,
             raise, mbind, result_bind, mret, result_ret, datetime_add.
           rewrite (proj2 (Z.ltb_lt _ _)) by lia.
           replace (TestClock._time clock + (alert_time - TestClock._time clock))
             with alert_time by lia.
           destruct (Z.leb_spec datetime_min alert_time);
             destruct (Z.leb_spec alert_time datetime_max); simpl; try done.
           exfalso. apply Hout. lia.
      * split_and!; [intros Hnot; exfalso; apply Hnot; split_and!; try done;
                     by eexists|done|].
        intros _ Hrange. exfalso. apply Hout. lia.
    + assert (x = ConditionFailed) as ->.
      { revert Hinit. unfold Timer.__init__, Condition.positive, Condition.true_,
          raise, mbind, result_bind, mret, result_ret.
        rewrite (proj2 (Z.ltb_ge _ _)) by lia. by intros [= <-]. }
      split_and!; [done|intros (_ & _ & ? & _); lia|intros (_ & _ & ? & _); lia].
  - apply Timer_init_spec in Hinit as (Hpos & Hrange & _ & ->).
    split_and!.
    + intros Hnot. exfalso. apply Hnot. split_and!; [done|done|lia|by eexists].
    + intros _ Hout. exfalso. apply Hout. lia.
    + intros _ _. eexists. eexists. split; [reflexivity|].
      match goal with
      | |- context [TestClock._add_timer ?timer ?handler clock] =>
          destruct (add_timer_fields timer handler clock)
            as (Htimers' & _ & _ & Hcount & Htime & _)
      end.
      cbv zeta in Htimers', Hcount, Htime.
      cbn [Timer.label] in Htimers'.
      rewrite Dict_set_new in Htimers' by exact Htimers.
      rewrite Hcount, Htime, Htimers'.
      split_and!.
      * by rewrite fmap_app.
      * rewrite length_app, length_fmap. simpl. lia.
      * reflexivity.
      * by apply Dict_get_new.
      * simpl. lia.
      * reflexivity.
      * reflexivity.
      * reflexivity.
Qed.

(** [TestTimer.advance] changes the next time, the expiry flag and the GUID
    factory of a timer, nothing else, whether it returns or raises. *)
Lemma advanced_timer_keeps timer to_time :
  let timer' := advanced_timer to_time timer in
  Timer.label timer' = Timer.label timer
  ∧ Timer.callback timer' = Timer.callback timer
  ∧ Timer.interval timer' = Timer.interval timer
  ∧ Timer.stop_time timer' = Timer.stop_time timer.
Proof.
  unfold advanced_timer, Timer.advance. cbv zeta.
  destruct (Timer.advance_loop (Timer.advance_fuel timer to_time) timer to_time [])
    as [[x timer']|r] eqn:Hloop.
  - apply Timer_advance_loop_raises in Hloop
      as (_ & _ & _ & _ & Hlabel & Hcallback & Hinterval & Hstop & _).
    by split_and!.
  - apply Timer_advance_loop_events in Hloop
      as (new & _ & _ & _ & _ & Hlabel & Hcallback & Hinterval & Hstop & _).
    by split_and!.
Qed.

(** A timer with a positive interval whose next time is a datetime, and for
    which one interval past [to_time] is a datetime, advances to [to_time]
    without raising. *)
Lemma Timer_advance_returns timer to_time :
  0 < Timer.interval timer →
  datetime_min ≤ Timer.next_time timer →
  to_time + Timer.interval timer ≤ datetime_max →
  ∃ r, Timer.advance timer to_time = inr r.
Proof. apply Timer_advance_loop_returns. Qed.

(** The first loop of [advance_time], when no timer of the stack raises. *)
Lemma advance_stack_spec stack to_time events :
  Forall (λ timer, ∃ r, Timer.advance timer to_time = inr r) stack →
  TestClock.advance_stack stack to_time events
  = inr (events
           ++ flat_map (λ timer,
                          map (λ event, {| TimeEventHandler.event := event;
                                           TimeEventHandler.handler :=
                                             Timer.callback timer |})
                            (timer_events to_time timer)) stack,
         map (advanced_timer to_time) stack).
Proof.
  revert events. induction stack as [|timer stack IH]; intros events Hreturns.
  { simpl. by rewrite app_nil_r. }
  apply Forall_cons in Hreturns as [[r Hr] Hreturns].
  cbn [TestClock.advance_stack flat_map map].
  unfold timer_events at 1, advanced_timer at 1. rewrite Hr. cbv zeta.
  rewrite IH by done. cbn [fst snd]. by rewrite <- app_assoc.
Qed.

(** The first loop of [advance_time] raises nothing but the OverflowError of
    a timer. *)
Lemma advance_stack_raises stack to_time events x stack' :
  TestClock.advance_stack stack to_time events = inl (x, stack') →
  x = OverflowError.
Proof.
  revert events stack'. induction stack as [|timer stack IH]; intros events stack'.
  { done. }
  cbn [TestClock.advance_stack].
  destruct (Timer.advance timer to_time) as [[y timer']|r] eqn:Hadvance.
  - intros [= <- <-]. unfold Timer.advance in Hadvance.
    by apply Timer_advance_loop_raises in Hadvance as (-> & _).
  - cbv zeta.
    match goal with
    | |- context [TestClock.advance_stack stack to_time ?e] =>
        destruct (TestClock.advance_stack stack to_time e) as [[y rest]|rest] eqn:Hrest
    end; [|done].
    intros [= <- <-]. by eapply IH.
Qed.

(** In a dictionary with distinct keys whose values know their key, the
    lookup of a key among the values finds the value of the key. *)
Lemma find_by_label (f : Timer.t → Timer.t) timers label timer :
  NoDup timers.*1 →
  (∀ label timer, (label, timer) ∈ timers → Timer.label (f timer) = label) →
  (label, timer) ∈ timers →
  find (λ timer, bool_decide (Timer.label timer = label)) (map f timers.*2)
  = Some (f timer).
Proof.
  induction timers as [|[k t] timers IH]; intros Hnodup Hlabels Hin.
  { by apply elem_of_nil in Hin. }
  apply NoDup_cons in Hnodup as [Hfresh Hnodup]. simpl.
  apply elem_of_cons in Hin as [[= -> ->]|Hin].
  - rewrite bool_decide_eq_true_2; [done|]. apply Hlabels. left.
  - rewrite bool_decide_eq_false_2.
    + apply IH; [done| |done]. intros ? ? ?. apply Hlabels. by right.
    + rewrite (Hlabels k t) by left. intros ->. apply Hfresh.
      apply list_elem_of_fmap. by exists (label, timer).
Qed.

Lemma write_back_spec (f : Timer.t → Timer.t) timers :
  NoDup timers.*1 →
  (∀ label timer, (label, timer) ∈ timers → Timer.label (f timer) = label) →
  TestClock.write_back (map f timers.*2) timers = map (λ kv, (kv.1, f kv.2)) timers.
Proof.
  intros Hnodup Hlabels. unfold TestClock.write_back.
  apply map_ext_in. intros [k t] Hin. apply list_elem_of_In in Hin.
  cbn [fst snd]. by rewrite (find_by_label f timers k t).
Qed.

Lemma filter_ext_in {A} (P1 P2 : A → Prop) `{!∀ x, Decision (P1 x)}
    `{!∀ x, Decision (P2 x)} (l : list A) :
  (∀ x, x ∈ l → P1 x ↔ P2 x) → filter P1 l = filter P2 l.
Proof.
  induction l as [|a l IH]; intros Hiff; [done|].
  rewrite !filter_cons, IH by (intros; apply Hiff; by right).
  apply decide_ext, Hiff. left.
Qed.

(** The least [next_time], as the loop of [_update_timing] finds it. *)
Lemma least_next_time (stack : list Timer.t) first :
  let least :=
    fold_left (λ next_time timer,
                 let observed := Timer.next_time timer in
                 if observed <? next_time then observed else next_time)
              stack first in
  (least = first ∨ ∃ timer, timer ∈ stack ∧ Timer.next_time timer = least)
  ∧ least ≤ first
  ∧ ∀ timer, timer ∈ stack → least ≤ Timer.next_time timer.
Proof.
  revert first. induction stack as [|timer stack IH]; intros first.
  { simpl. split_and!; [by left|lia|]. by intros ? ?%elem_of_nil. }
  cbv zeta in IH |- *. cbn [fold_left].
  destruct (Z.ltb_spec (Timer.next_time timer) first) as [Hlt|Hge].
  - specialize (IH (Timer.next_time timer)).
    set (least := fold_left _ _ _) in *. clearbody least.
    destruct IH as ([Heq|(t & Hin & Ht)] & Hle & Hall).
    + split_and!; [right; exists timer; split; [left|done]|lia|].
      intros t [->|Hin]%elem_of_cons; [lia|by apply Hall].
    + split_and!; [right; exists t; split; [by right|done]|lia|].
      intros t' [->|Hin']%elem_of_cons; [lia|by apply Hall].
  - specialize (IH first).
    set (least := fold_left _ _ _) in *. clearbody least.
    destruct IH as ([Heq|(t & Hin & Ht)] & Hle & Hall).
    + split_and!; [by left|lia|].
      intros t [->|Hin]%elem_of_cons; [lia|by apply Hall].
    + split_and!; [right; exists t; split; [by right|done]|lia|].
      intros t' [->|Hin']%elem_of_cons; [lia|by apply Hall].
Qed.

(** [_update_timing] on a clock whose stack and timer count agree with its
    timers. *)
Lemma update_timing_next clock :
  TestClock._stack clock = Dict.values (TestClock._timers clock) →
  TestClock.timer_count clock = Z.of_nat (length (TestClock._timers clock)) →
  match TestClock.next_event_time (TestClock._update_timing clock) with
  | None => TestClock._timers clock = []
  | Some next_event =>
      (∃ timer, timer ∈ Dict.values (TestClock._timers clock)
                ∧ Timer.next_time timer = next_event)
      ∧ ∀ timer, timer ∈ Dict.values (TestClock._timers clock) →
                 next_event ≤ Timer.next_time timer
  end.
Proof.
  unfold TestClock._update_timing.
  destruct clock as [guids timers handlers stack default count next label registered
                       time].
  cbn [TestClock.timer_count TestClock._stack TestClock._timers].
  intros -> ->.
  destruct timers as [|[k first] timers]; [done|].
  cbn [length Dict.values fmap list_fmap snd].
  rewrite (proj2 (Z.eqb_neq _ 0)) by lia.
  destruct (Z.eqb_spec (Z.of_nat (S (length timers))) 1) as [Hone|Hmore].
  - destruct timers; [|simpl in Hone; lia].
    cbn [TestClock.next_event_time TestClock.set_next_event_time].
    split; [exists first; split; [left|done]|].
    intros t [->|[]%elem_of_nil]%elem_of_cons. lia.
  - cbn [TestClock.next_event_time TestClock.set_next_event_time].
    rewrite take_ge by (rewrite length_fmap; lia).
    destruct (least_next_time (timers.*2) (Timer.next_time first))
      as (Hleast & Hle & Hall).
    cbv zeta in Hleast, Hle, Hall.
    set (least := fold_left _ _ _) in *. clearbody least. split.
    + destruct Hleast as [Heq|(t & Hin & Ht)].
      * exists first. split; [left|done].
      * exists t. split; [by right|done].
    + intros t [->|Hin]%elem_of_cons; [done|by apply Hall].
Qed.

(** [_update_stack] and then [_update_timing] make a clock consistent, when
    its timers are. *)
Lemma update_consistent clock :
  NoDup (TestClock._timers clock).*1 →
  (∀ label timer, (label, timer) ∈ TestClock._timers clock →
     Timer.label timer = label ∧ 0 < Timer.interval timer) →
  clock_consistent (TestClock._update_timing (TestClock._update_stack clock)).
Proof.
  intros Hnodup Hlabels. unfold clock_consistent, TestClock.get_timer_labels.
  pose proof (update_timing_next (TestClock._update_stack clock)
                (reflexivity _) (reflexivity _)) as Hnext.
  destruct (update_timing_fields (TestClock._update_stack clock))
    as (Htimers & _ & Hstack & Hcount & _).
  cbv zeta in Htimers, Hstack, Hcount. rewrite Htimers, Hstack, Hcount.
  split_and!; [done|done|done|done|exact Hnext].
Qed.

Lemma remove_timer_fields timer clock :
  let clock' := TestClock._remove_timer timer clock in
  TestClock._timers clock' = Dict.pop (Timer.label timer) (TestClock._timers clock)
  ∧ TestClock._stack clock' = Dict.values (TestClock._timers clock')
  ∧ TestClock.timer_count clock' = Z.of_nat (length (TestClock._timers clock'))
  ∧ TestClock._time clock' = TestClock._time clock.
Proof.
  unfold TestClock._remove_timer. cbv zeta.
  match goal with
  | |- context [TestClock._update_timing ?c] =>
      destruct (update_timing_fields c) as (-> & _ & -> & -> & -> & _)
  end.
  by split_and!.
Qed.

Lemma remove_expired_step timer stack clock :
  TestClock.remove_expired (timer :: stack) clock
  = TestClock.remove_expired stack
      (if Timer.expired timer then TestClock._remove_timer timer clock else clock).
Proof. reflexivity. Qed.

(** The second loop of [advance_time] drops the timers whose label is the
    label of an expired timer of the stack, and keeps a clock whose stack and
    count agree with its timers that way. *)
Lemma remove_expired_spec stack clock :
  let clock' := TestClock.remove_expired stack clock in
  TestClock._timers clock'
  = filter (λ kv, kv.1 ∉ Timer.label <$> filter (λ timer, Timer.expired timer = true)
                                           stack)
      (TestClock._timers clock)
  ∧ TestClock._time clock' = TestClock._time clock
  ∧ (TestClock._stack clock = Dict.values (TestClock._timers clock) →
     TestClock.timer_count clock = Z.of_nat (length (TestClock._timers clock)) →
     TestClock._stack clock' = Dict.values (TestClock._timers clock')
     ∧ TestClock.timer_count clock' = Z.of_nat (length (TestClock._timers clock'))).
Proof.
  revert clock. induction stack as [|timer stack IH]; intros clock; cbv zeta.
  { simpl. split_and!; [|done|done].
    induction (TestClock._timers clock) as [|kv timers IHt]; [done|].
    rewrite filter_cons_True by set_solver. f_equal. exact IHt. }
  rewrite remove_expired_step.
  destruct (Timer.expired timer) eqn:Hexpired.
  - destruct (IH (TestClock._remove_timer timer clock)) as (Htimers & Htime & Hagree).
    cbv zeta in Htimers, Htime, Hagree.
    destruct (remove_timer_fields timer clock) as (Hpop & Hstack & Hcount & Htime').
    cbv zeta in Hpop, Hstack, Hcount, Htime'.
    split_and!.
    + rewrite Htimers, Hpop. unfold Dict.pop. rewrite list_filter_filter.
      apply filter_ext_in. intros kv _.
      rewrite filter_cons_True by done. rewrite fmap_cons. set_solver.
    + by rewrite Htime.
    + intros _ _. by apply Hagree.
  - destruct (IH clock) as (Htimers & Htime & Hagree).
    cbv zeta in Htimers, Htime, Hagree.
    rewrite filter_cons_False by (by rewrite Hexpired).
    by split_and!.
Qed.

Lemma NoDup_filter_keys {V} (P : string * V → Prop) `{!∀ kv, Decision (P kv)}
    (d : list (string * V)) :
  NoDup d.*1 → NoDup (filter P d).*1.
Proof.
  induction d as [|kv d IH]; intros Hnodup; [done|].
  apply NoDup_cons in Hnodup as [Hfresh Hnodup]. rewrite filter_cons.
  destruct (decide (P kv)); [|by apply IH].
  rewrite fmap_cons. apply NoDup_cons. split; [|by apply IH].
  intros (kv' & Hkey & Hin)%list_elem_of_fmap.
  apply list_elem_of_filter in Hin as [_ Hin].
  apply Hfresh, list_elem_of_fmap. by exists kv'.
Qed.

Lemma flat_map_values {K V B} (g : V → list B) (d : list (K * V)) :
  flat_map g d.*2 = flat_map (λ kv, g kv.2) d.
Proof.
  induction d as [|kv d IH]; [done|].
  rewrite fmap_cons. cbn [flat_map]. by rewrite IH.
Qed.

Lemma dict_key_unique {V} (d : list (string * V)) key v1 v2 :
  NoDup d.*1 → (key, v1) ∈ d → (key, v2) ∈ d → v1 = v2.
Proof.
  induction d as [|[k v] d IH]; intros Hnodup Hin1 Hin2.
  { by apply elem_of_nil in Hin1. }
  apply NoDup_cons in Hnodup as [Hfresh Hnodup].
  assert (∀ w, (k, w) ∈ d → False) as Hout.
  { intros w Hw. apply Hfresh, list_elem_of_fmap. by exists (k, w). }
  apply elem_of_cons in Hin1 as [Heq1|Hin1];
    apply elem_of_cons in Hin2 as [Heq2|Hin2]; simplify_eq.
  - done.
  - by destruct (Hout v2).
  - by destruct (Hout v1).
  - by apply IH.
Qed.

(** The timers of a consistent clock that is in range up to [to_time]
    advance to [to_time] without raising. *)
Lemma timers_in_range_return to_time clock :
  clock_consistent clock →
  timers_in_range to_time clock →
  ∀ label timer, (label, timer) ∈ TestClock._timers clock →
                 ∃ r, Timer.advance timer to_time = inr r.
Proof.
  intros (_ & Hlabels & _) Hrange label timer Htimer.
  destruct (Hlabels label timer Htimer) as [_ Hpos].
  destruct (Hrange label timer Htimer) as [Hmin Hmax].
  by apply Timer_advance_returns.
Qed.

(** When the first loop of [advance_time] returns, every timer of the stack
    returned. *)
Lemma advance_stack_returned stack to_time events r :
  TestClock.advance_stack stack to_time events = inr r →
  Forall (λ timer, ∃ r, Timer.advance timer to_time = inr r) stack.
Proof.
  revert events r. induction stack as [|timer stack IH]; intros events r.
  { intros _. by apply Forall_nil. }
  cbn [TestClock.advance_stack].
  destruct (Timer.advance timer to_time) as [[y timer']|r1] eqn:Hadvance; [done|].
  cbv zeta.
  match goal with
  | |- context [TestClock.advance_stack stack to_time ?e] =>
      destruct (TestClock.advance_stack stack to_time e) as [[y rest]|rest] eqn:Hrest
  end; [done|].
  intros _. apply Forall_cons. split; [by exists r1|by eapply IH].
Qed.

(** The whole way of [advance_time], for a consistent clock with an event due
    by [to_time] and no timer that raises on the way. *)
Lemma advance_time_full_path to_time next_event clock :
  clock_consistent clock →
  TestClock.next_event_time clock = Some next_event →
  next_event ≤ to_time →
  (∀ label timer, (label, timer) ∈ TestClock._timers clock →
                  ∃ r, Timer.advance timer to_time = inr r) →
  ∃ clock',
    TestClock.advance_time to_time clock
    = inr (advanced_events to_time (TestClock._timers clock), clock')
    ∧ TestClock._timers clock' = advanced_timers to_time (TestClock._timers clock)
    ∧ TestClock.time_now clock' = to_time
    ∧ clock_consistent clock'
    ∧ ∀ label timer, (label, timer) ∈ TestClock._timers clock' →
                     Timer.expired timer = false ∧ to_time < Timer.next_time timer.
Proof.
  intros (Hnodup & Hlabels & Hstack & Hcount & Hnext) Hdue Hle Hreturns.
  rewrite Hdue in Hnext. destruct Hnext as [(due & Hin & _) _].
  assert (TestClock.timer_count clock ≠ 0) as Hsome.
  { rewrite Hcount. unfold Dict.values in Hin.
    destruct (TestClock._timers clock); [by apply elem_of_nil in Hin|simpl; lia]. }
  unfold TestClock.advance_time, TestClock.advance_time_run.
  rewrite (proj2 (Z.eqb_neq _ _) Hsome), Hdue, (proj2 (Z.ltb_ge _ _) Hle).
  rewrite advance_stack_spec.
  2: { rewrite Hstack. apply Forall_forall. intros timer Htimer.
       unfold Dict.values in Htimer.
       apply list_elem_of_fmap in Htimer as ([label timer'] & -> & Htimer).
       by eapply Hreturns. }
  cbv zeta. cbn [fst snd app].
  set (f := advanced_timer to_time).
  assert (∀ label timer, (label, timer) ∈ TestClock._timers clock →
                         Timer.label (f timer) = label) as Hlabels'.
  { intros label timer Htimer. subst f.
    destruct (advanced_timer_keeps timer to_time) as (-> & _).
    by apply Hlabels. }
  rewrite Hstack. unfold Dict.values at 2 3 4.
  rewrite (write_back_spec f) by done.
  set (clock0 := TestClock.set_stack _ _).
  destruct (remove_expired_spec (map f (TestClock._timers clock).*2) clock0)
    as (Htimers1 & Htime1 & Hagree1).
  cbv zeta in Htimers1, Htime1, Hagree1.
  set (clock1 := TestClock.remove_expired _ clock0) in *.
  destruct Hagree1 as [Hstack1 Hcount1].
  { subst clock0. unfold Dict.values. simpl.
    rewrite <- !list_fmap_compose. done. }
  { subst clock0. simpl. by rewrite length_map. }
  assert (TestClock._timers clock1 = advanced_timers to_time (TestClock._timers clock))
    as Hadvanced.
  { rewrite Htimers1. subst clock0. unfold advanced_timers.
    cbn [TestClock._timers TestClock.set_stack TestClock.set_timers].
    apply filter_ext_in. intros [k t] Htimer. cbn [fst snd].
    apply list_elem_of_fmap in Htimer as ([k0 t0] & [= -> ->] & Htimer0).
    cbn [fst snd]. split.
    - intros Hout. destruct (Timer.expired (f t0)) eqn:Hexpired; [|done].
      exfalso. apply Hout. apply list_elem_of_fmap. exists (f t0).
      split; [symmetry; by apply Hlabels'|].
      apply list_elem_of_filter. split; [done|].
      apply list_elem_of_fmap. exists t0. split; [done|].
      apply list_elem_of_fmap. by exists (k0, t0).
    - intros Hlive (t & Hk & Ht)%list_elem_of_fmap.
      apply list_elem_of_filter in Ht as [Hexpired Ht].
      apply list_elem_of_fmap in Ht as (t1 & -> & Ht1).
      apply list_elem_of_fmap in Ht1 as ([k1 t1'] & -> & Ht1).
      cbn [snd] in *.
      assert (k1 = k0) as -> by (rewrite Hk; symmetry; by apply Hlabels').
      assert (t1' = t0) as ->.
      { exact (dict_key_unique _ _ _ _ Hnodup Ht1 Htimer0). }
      change (Timer.expired (f t0) = false) in Hlive. congruence. }
  destruct (update_timing_fields clock1)
    as (Htimers2 & _ & Hstack2 & Hcount2 & Htime2 & _).
  cbv zeta in Htimers2, Hstack2, Hcount2, Htime2.
  assert (∀ label timer,
            (label, timer) ∈ advanced_timers to_time (TestClock._timers clock) →
            (Timer.label timer = label ∧ 0 < Timer.interval timer)
            ∧ Timer.expired timer = false ∧ to_time < Timer.next_time timer)
    as Hlive.
  { intros label timer [Hexpired Htimer]%list_elem_of_filter.
    apply list_elem_of_fmap in Htimer as ([k0 t0] & [= -> ->] & Htimer0).
    cbn [fst snd] in *.
    destruct (Hlabels k0 t0 Htimer0) as [Hlabel Hpos].
    destruct (advanced_timer_keeps t0 to_time) as (Hl & _ & Hi & _).
    cbv zeta in Hl, Hi.
    destruct (Hreturns k0 t0 Htimer0) as [r Hr].
    pose proof (Timer_advance_exits t0 to_time r Hpos Hr) as Hexit.
    unfold advanced_timer in *. rewrite Hr in *.
    destruct Hexit as [Hgone|Hlater]; [congruence|].
    split_and!; [congruence|by rewrite Hi|done|done]. }
  eexists. split; [|split_and!].
  - f_equal. f_equal.
    unfold advanced_events, Dict.values.
    apply (flat_map_values
             (λ timer, map (λ event, {| TimeEventHandler.event := event;
                                        TimeEventHandler.handler :=
                                          Timer.callback timer |})
                         (timer_events to_time timer))).
  - cbn [TestClock._timers TestClock.set_time]. by rewrite Htimers2.
  - reflexivity.
  - unfold clock_consistent, TestClock.get_timer_labels.
    cbn [TestClock._timers TestClock._stack TestClock.timer_count
           TestClock.next_event_time TestClock.set_time].
    pose proof (update_timing_next clock1 Hstack1 Hcount1) as Hnext2.
    rewrite Htimers2, Hstack2, Hcount2, Hadvanced.
    rewrite Hadvanced in Hstack1, Hcount1, Hnext2.
    split_and!;
      [|intros label timer Htimer; exact (proj1 (Hlive label timer Htimer))
       |done|done|exact Hnext2].
    unfold advanced_timers. apply NoDup_filter_keys.
    rewrite <- list_fmap_compose.
    by rewrite (list_fmap_ext _ fst (TestClock._timers clock)) by done.
  - cbn [TestClock._timers TestClock.set_time]. rewrite Htimers2, Hadvanced.
    intros label timer Htimer. exact (proj2 (Hlive label timer Htimer)).
Qed.

(** [advance_time] on a consistent clock raises nothing but the
    OverflowError of a timer. *)
Lemma advance_time_raises to_time clock x :
  clock_consistent clock →
  TestClock.advance_time to_time clock = inl x →
  x = OverflowError.
Proof.
  intros (_ & _ & _ & Hcount & Hnext).
  unfold TestClock.advance_time, TestClock.advance_time_run.
  destruct (Z.eqb_spec (TestClock.timer_count clock) 0) as [|Hsome]; [done|].
  destruct (TestClock.next_event_time clock) as [next_event|].
  - destruct (to_time <? next_event); [done|].
    destruct (TestClock.advance_stack (TestClock._stack clock) to_time [])
      as [[y stack]|r] eqn:Hstack; [|done].
    intros [= <-]. by eapply advance_stack_raises.
  - exfalso. apply Hsome. rewrite Hcount, Hnext. done.
Qed.

Lemma init_consistent initial_time :
  clock_consistent (TestClock.__init__ initial_time).
Proof.
  unfold clock_consistent. simpl.
  split_and!; [apply NoDup_nil_2|by intros ? ? ?%elem_of_nil|done|done|done].
Qed.

Lemma add_timer_consistent timer handler clock :
  clock_consistent clock →
  Timer.label timer ∉ TestClock.get_timer_labels clock →
  0 < Timer.interval timer →
  clock_consistent (TestClock._add_timer timer handler clock).
Proof.
  intros (Hnodup & Hlabels & _) Hnew Hpos. unfold TestClock._add_timer. cbv zeta.
  unfold TestClock.get_timer_labels in *.
  apply update_consistent;
    cbn [TestClock._timers TestClock.set_handlers TestClock.set_timers];
    rewrite Dict_set_new by done.
  - rewrite fmap_app. apply NoDup_app. split_and!; [done| |apply NoDup_singleton].
    intros k Hk [->|[]%elem_of_nil]%elem_of_cons. done.
  - intros label t [Hin|[[= -> ->]|[]%elem_of_nil]%elem_of_cons]%elem_of_app;
      [by apply Hlabels|done].
Qed.

Lemma remove_timer_consistent timer clock :
  NoDup (TestClock._timers clock).*1 →
  (∀ label timer, (label, timer) ∈ TestClock._timers clock →
     Timer.label timer = label ∧ 0 < Timer.interval timer) →
  clock_consistent (TestClock._remove_timer timer clock).
Proof.
  intros Hnodup Hlabels. unfold TestClock._remove_timer. cbv zeta.
  apply update_consistent;
    cbn [TestClock._timers TestClock.set_handlers TestClock.set_timers];
    unfold Dict.pop.
  - by apply NoDup_filter_keys.
  - intros label t [_ Hin]%list_elem_of_filter. by apply Hlabels.
Qed.

Lemma cancel_timer_consistent label clock :
  clock_consistent clock → clock_consistent (TestClock.cancel_timer label clock).
Proof.
  intros Hconsistent. unfold TestClock.cancel_timer.
  destruct (Dict.get label (TestClock._timers clock)) as [timer|]; [|done].
  cbv zeta. destruct Hconsistent as (Hnodup & Hlabels & _).
  apply remove_timer_consistent;
    cbn [TestClock._timers TestClock.set_handlers TestClock.set_timers];
    unfold Dict.pop.
  - by apply NoDup_filter_keys.
  - intros k t [_ Hin]%list_elem_of_filter. by apply Hlabels.
Qed.

Lemma cancel_timers_consistent labels clock :
  clock_consistent clock →
  clock_consistent
    (fold_left (λ self label, TestClock.cancel_timer label self) labels clock).
Proof.
  revert clock. induction labels as [|label labels IH]; intros clock Hconsistent;
    [done|].
  simpl. by apply IH, cancel_timer_consistent.
Qed.

Lemma Timer_init_fields label callback interval start_time stop_time timer :
  Timer.__init__ label callback interval start_time stop_time = inr timer →
  Timer.label timer = label ∧ 0 < Timer.interval timer.
Proof. intros (Hpos & _ & _ & ->)%Timer_init_spec. done. Qed.

Lemma set_time_alert_consistent label alert_time handler clock clock' :
  clock_consistent clock →
  TestClock.set_time_alert label alert_time handler clock = inr clock' →
  clock_consistent clock'.
Proof.
  intros Hconsistent.
  unfold TestClock.set_time_alert, TestClock.get_timer_labels, TestClock.time_now,
    Condition.not_in_dict, Condition.true_, Condition.not_none, raise, mbind,
    result_bind, mret, result_ret.
  cbv zeta.
  case_bool_decide as Hnew; [|done].
  case_bool_decide; [|done].
  destruct (_ <=? _); [|done].
  destruct (match handler with
            | Some _ => handler
            | None => TestClock._default_handler clock
            end) as [callback|]; [|done].
  destruct (Timer.__init__ _ _ _ _ _) as [|timer] eqn:Hinit; [done|].
  intros [= <-]. destruct (Timer_init_fields _ _ _ _ _ _ Hinit) as [Hlabel Hpos].
  apply add_timer_consistent; [done|by rewrite Hlabel|done].
Qed.

Lemma set_timer_consistent label interval start_time stop_time handler clock clock' :
  clock_consistent clock →
  TestClock.set_timer label interval start_time stop_time handler clock = inr clock' →
  clock_consistent clock'.
Proof.
  intros Hconsistent.
  unfold TestClock.set_timer, TestClock.get_timer_labels, TestClock.time_now,
    Condition.not_in_dict, Condition.true_, Condition.not_none, raise, mbind,
    result_bind, mret, result_ret.
  cbv zeta.
  case_bool_decide as Hnew; [|done].
  case_bool_decide; [|done].
  destruct (0 <? interval); [|done].
  destruct (match handler with
            | Some _ => handler
            | None => TestClock._default_handler clock
            end) as [callback|]; [|done].
  destruct stop_time as [stop|];
    [destruct (_ <? stop); [|done];
     destruct (datetime_add _ _) as [|first_time]; [done|];
     destruct (first_time <=? stop); [|done]|].
  all: destruct (Timer.__init__ _ _ _ _ _) as [|timer] eqn:Hinit; [done|].
  all: intros [= <-].
  all: destruct (Timer_init_fields _ _ _ _ _ _ Hinit) as [Hlabel Hpos].
  all: apply add_timer_consistent; [done|by rewrite Hlabel|done].
Qed.

(** [advance_time] returns at once, with the clock as it was, when the clock
    holds no timer or its next event is after [to_time]. *)
Lemma advance_time_early to_time clock :
  clock_consistent clock →
  (∀ next_event, TestClock.next_event_time clock = Some next_event →
                 to_time < next_event) →
  TestClock.advance_time to_time clock = inr ([], clock).
Proof.
  intros (_ & _ & _ & Hcount & Hnext) Hearly.
  unfold TestClock.advance_time, TestClock.advance_time_run.
  destruct (TestClock.next_event_time clock) as [next_event|].
  - destruct (TestClock.timer_count clock =? 0); [done|].
    by rewrite (proj2 (Z.ltb_lt _ _) (Hearly next_event eq_refl)).
  - by rewrite Hcount, Hnext.
Qed.

(** When [advance_time] returns on a consistent clock, the clock it leaves is
    consistent. *)
Lemma advance_time_consistent to_time clock events clock' :
  clock_consistent clock →
  TestClock.advance_time to_time clock = inr (events, clock') →
  clock_consistent clock'.
Proof.
  intros Hconsistent Hadvance.
  destruct (TestClock.next_event_time clock) as [next_event|] eqn:Hnext.
  - destruct (decide (next_event ≤ to_time)) as [Hdue|Hearly].
    + assert (∀ label timer, (label, timer) ∈ TestClock._timers clock →
                             ∃ r, Timer.advance timer to_time = inr r) as Hreturns.
      { pose proof Hadvance as Hrun.
        destruct Hconsistent as (_ & _ & Hstack & Hcount & Hleast).
        rewrite Hnext in Hleast. destruct Hleast as [(due & Hin & _) _].
        assert (TestClock.timer_count clock ≠ 0) as Hsome.
        { rewrite Hcount. unfold Dict.values in Hin.
          destruct (TestClock._timers clock);
            [by apply elem_of_nil in Hin|simpl; lia]. }
        unfold TestClock.advance_time, TestClock.advance_time_run in Hrun.
        rewrite (proj2 (Z.eqb_neq _ _) Hsome), Hnext, (proj2 (Z.ltb_ge _ _) Hdue)
          in Hrun.
        destruct (TestClock.advance_stack (TestClock._stack clock) to_time [])
          as [[y stack]|r] eqn:Hloop; [done|].
        apply advance_stack_returned in Hloop. rewrite Hstack in Hloop.
        intros label timer Htimer.
        apply (proj1 (Forall_forall _ _) Hloop).
        unfold Dict.values. apply list_elem_of_fmap. by exists (label, timer). }
      destruct (advance_time_full_path to_time next_event clock Hconsistent
                  Hnext Hdue Hreturns) as (clock'' & Hfull & _ & _ & Hconsistent' & _).
      rewrite Hfull in Hadvance. by injection Hadvance as _ <-.
    + rewrite advance_time_early in Hadvance;
        [by injection Hadvance as _ <-|done|].
      intros ?. rewrite Hnext. intros [= <-]. lia.
  - rewrite advance_time_early in Hadvance;
      [by injection Hadvance as _ <-|done|].
    intros ?. by rewrite Hnext.
Qed.

(** X23. A consistent clock with an event due by [to_time], whose timers
    cannot pass the last datetime on the way (their next times are datetimes
    and one interval past [to_time] still is one), goes the whole way of
    [advance_time]: the call returns the events of every timer up to
    [to_time], timer by timer in the order the timers were set and each with
    the callback of its timer; the clock is left at [to_time] with every timer
    advanced and the expired ones removed, so that each timer it keeps is
    live with its next time after [to_time], and it is consistent again. *)
Theorem advance_time_fires_due_timers to_time next_event clock :
  clock_consistent clock →
  TestClock.next_event_time clock = Some next_event →
  next_event ≤ to_time →
  timers_in_range to_time clock →
  ∃ clock',
    TestClock.advance_time to_time clock
    = inr (advanced_events to_time (TestClock._timers clock), clock')
    ∧ TestClock._timers clock' = advanced_timers to_time (TestClock._timers clock)
    ∧ TestClock.time_now clock' = to_time
    ∧ clock_consistent clock'
    ∧ ∀ label timer, (label, timer) ∈ TestClock._timers clock' →
                     Timer.expired timer = false ∧ to_time < Timer.next_time timer.
Proof.
  intros Hconsistent Hnext Hdue Hrange.
  apply (advance_time_full_path to_time next_event clock Hconsistent Hnext Hdue).
  by apply timers_in_range_return.
Qed.

(** X24. The operations of the test clock keep it consistent: when a
    consistent clock takes a time alert or a timer, cancels one timer or all
    of them, or is advanced, the clock that results has distinct timer
    labels, a stack and a timer count that agree with its timers, and the
    least next time of its timers as its next event time. [advance_time] on a
    consistent clock returns when no timer can pass the last datetime on the
    way to [to_time]; whenever it returns, the clock is consistent; and when
    it raises, it raises the OverflowError of a timer whose next time would
    pass the last datetime. *)
Theorem clock_operations_keep_consistency clock :
  clock_consistent clock →
  (∀ label alert_time handler clock',
     TestClock.set_time_alert label alert_time handler clock = inr clock' →
     clock_consistent clock')
  ∧ (∀ label interval start_time stop_time handler clock',
       TestClock.set_timer label interval start_time stop_time handler clock
       = inr clock' →
       clock_consistent clock')
  ∧ (∀ label, clock_consistent (TestClock.cancel_timer label clock))
  ∧ clock_consistent (TestClock.cancel_all_timers clock)
  ∧ (∀ to_time,
       (timers_in_range to_time clock →
        ∃ events clock',
          TestClock.advance_time to_time clock = inr (events, clock')
          ∧ clock_consistent clock')
       ∧ (∀ events clock',
            TestClock.advance_time to_time clock = inr (events, clock') →
            clock_consistent clock')
       ∧ (∀ x, TestClock.advance_time to_time clock = inl x →
               x = OverflowError)).
Proof.
  intros Hconsistent. split_and!.
  - intros label alert_time handler clock'. by apply set_time_alert_consistent.
  - intros label interval start_time stop_time handler clock'.
    by apply set_timer_consistent.
  - intros label. by apply cancel_timer_consistent.
  - by apply cancel_timers_consistent.
  - intros to_time. split_and!.
    + intros Hrange.
      destruct (TestClock.next_event_time clock) as [next_event|] eqn:Hnext.
      * destruct (decide (next_event ≤ to_time)) as [Hdue|Hearly].
        -- destruct (advance_time_full_path to_time next_event clock Hconsistent
                       Hnext Hdue (timers_in_range_return _ _ Hconsistent Hrange))
             as (clock' & Hadvance & _ & _ & Hconsistent' & _).
           by exists (advanced_events to_time (TestClock._timers clock)), clock'.
        -- exists [], clock. split; [|done]. apply advance_time_early; [done|].
           intros ?. rewrite Hnext. intros [= <-]. lia.
      * exists [], clock. split; [|done]. apply advance_time_early; [done|].
        intros ?. by rewrite Hnext.
    + intros events clock'. by apply advance_time_consistent.
    + intros x. by apply advance_time_raises.
Qed.

Lemma Dict_get_spec {V} key (d : list (string * V)) :
  match Dict.get key d with
  | Some v => (key, v) ∈ d
  | None => key ∉ d.*1
  end.
Proof.
  unfold Dict.get. induction d as [|[k v] d IH]; simpl.
  { apply not_elem_of_nil. }
  case_bool_decide as Hk; simpl in *.
  - subst k. left.
  - destruct (find _ d) as [[k' v']|]; simpl in *.
    + by right.
    + intros [->|Hin]%elem_of_cons; [done|by apply IH].
Qed.

Lemma Dict_pop_absent {V} key (d : list (string * V)) :
  key ∉ d.*1 → Dict.pop key d = d.
Proof.
  unfold Dict.pop. induction d as [|[k v] d IH]; intros Hout; [done|].
  rewrite fmap_cons in Hout. apply not_elem_of_cons in Hout as [Hk Hout].
  rewrite filter_cons_True by (simpl; intros ->; by apply Hk). by rewrite IH.
Qed.

Lemma cancel_timer_timers label clock :
  clock_consistent clock →
  TestClock._timers (TestClock.cancel_timer label clock)
  = Dict.pop label (TestClock._timers clock)
  ∧ TestClock._time (TestClock.cancel_timer label clock) = TestClock._time clock
  ∧ (label ∉ TestClock.get_timer_labels clock →
     TestClock.cancel_timer label clock = clock).
Proof.
  intros (Hnodup & Hlabels & _). unfold TestClock.cancel_timer.
  pose proof (Dict_get_spec label (TestClock._timers clock)) as Hget.
  destruct (Dict.get label (TestClock._timers clock)) as [timer|].
  - cbv zeta. destruct (Hlabels label timer Hget) as [Hlabel _].
    match goal with
    | |- context [TestClock._remove_timer ?t ?c] =>
        destruct (remove_timer_fields t c) as (-> & _ & _ & ->)
    end.
    cbn [TestClock._timers TestClock._time TestClock.set_handlers
           TestClock.set_timers Timer.label Timer.cancel Timer.set_expired].
    rewrite Hlabel. split_and!; [|done|].
    + apply Dict_pop_absent. unfold Dict.pop.
      intros (kv & Hk & [Hne _]%list_elem_of_filter)%list_elem_of_fmap. done.
    + intros Hout. exfalso. apply Hout. apply list_elem_of_fmap.
      by exists (label, timer).
  - split_and!; [|done|done]. symmetry. by apply Dict_pop_absent.
Qed.

Lemma cancel_timers_timers labels clock :
  clock_consistent clock →
  let clock' :=
    fold_left (λ self label, TestClock.cancel_timer label self) labels clock in
  TestClock._timers clock'
  = filter (λ kv, kv.1 ∉ labels) (TestClock._timers clock)
  ∧ TestClock._time clock' = TestClock._time clock.
Proof.
  revert clock. induction labels as [|label labels IH]; intros clock Hconsistent.
  { simpl. split; [|done].
    induction (TestClock._timers clock) as [|kv timers IHt]; [done|].
    rewrite filter_cons_True by set_solver. f_equal. exact IHt. }
  cbn [fold_left]. cbv zeta.
  destruct (cancel_timer_timers label clock Hconsistent) as (Htimers & Htime & _).
  destruct (IH (TestClock.cancel_timer label clock)) as [Htimers' Htime'];
    [by apply cancel_timer_consistent|].
  cbv zeta in Htimers', Htime'. rewrite Htimers', Htime', Htimers.
  split; [|done]. unfold Dict.pop. rewrite list_filter_filter.
  apply filter_ext_in. intros kv _. set_solver.
Qed.

(** X25. Cancelling on a consistent clock: [cancel_timer] removes the timer
    of the label and no other, leaves the time of the clock alone, and does
    nothing at all for a label the clock does not have; after
    [cancel_all_timers] the clock has no timer, a timer count of zero and no
    next event time, at the time it had, and an [advance_time] finds nothing
    to do. *)
Theorem cancel_timer_removes_its_label label clock :
  clock_consistent clock →
  let clock' := TestClock.cancel_timer label clock in
  let cleared := TestClock.cancel_all_timers clock in
  TestClock._timers clock' = filter (λ kv, kv.1 ≠ label) (TestClock._timers clock)
  ∧ TestClock.time_now clock' = TestClock.time_now clock
  ∧ (label ∉ TestClock.get_timer_labels clock → clock' = clock)
  ∧ TestClock.get_timer_labels cleared = []
  ∧ TestClock.timer_count cleared = 0
  ∧ TestClock.next_event_time cleared = None
  ∧ TestClock.time_now cleared = TestClock.time_now clock
  ∧ ∀ to_time, TestClock.advance_time to_time cleared = inr ([], cleared).
Proof.
  intros Hconsistent clock' cleared.
  destruct (cancel_timer_timers label clock Hconsistent) as (Htimers & Htime & Hsame).
  destruct (cancel_timers_timers (TestClock.get_timer_labels clock) clock
              Hconsistent) as [Hcleared Htime'].
  cbv zeta in Hcleared, Htime'.
  fold (TestClock.cancel_all_timers clock) in Hcleared, Htime'.
  fold cleared in Hcleared, Htime'.
  assert (TestClock._timers cleared = []) as Hnone.
  { rewrite Hcleared. apply elem_of_nil_inv.
    intros kv [Hout Hin]%list_elem_of_filter. apply Hout.
    unfold TestClock.get_timer_labels. apply list_elem_of_fmap. by exists kv. }
  destruct (cancel_timers_consistent (TestClock.get_timer_labels clock) clock
              Hconsistent) as (_ & _ & _ & Hcount & Hnext).
  fold (TestClock.cancel_all_timers clock) in Hcount, Hnext.
  fold cleared in Hcount, Hnext.
  rewrite Hnone in Hcount, Hnext. simpl in Hcount.
  assert (TestClock.next_event_time cleared = None) as Hnext'.
  { destruct (TestClock.next_event_time cleared); [|done].
    destruct Hnext as [(timer & []%elem_of_nil & _) _]. }
  split_and!; [exact Htimers|exact Htime|exact Hsame| |exact Hcount|exact Hnext'
               |exact Htime'|].
  - unfold TestClock.get_timer_labels. by rewrite Hnone.
  - intros to_time. unfold TestClock.advance_time, TestClock.advance_time_run.
    by rewrite Hcount.
Qed.

Lemma Timer_advance_loop_idle fuel timer to_time events :
  Timer.expired timer = true ∨ to_time < Timer.next_time timer →
  Timer.advance_loop fuel timer to_time events = inr (events, timer).
Proof.
  intros Hidle. destruct fuel as [|fuel]; [done|].
  rewrite Timer_advance_loop_step.
  destruct Hidle as [->|Hlater]; [done|].
  rewrite (proj2 (Z.leb_gt _ _) Hlater). by rewrite andb_false_r.
Qed.

(** X26. The timer of a time alert fires at most once, at the alert time:
    advanced to a time before the alert it gives no event and stays as it is;
    advanced to the alert time or beyond it gives the one event of the alert,
    stamped with the alert time however far the clock went, and is expired,
    provided the alert time plus the time the alert had to wait is still a
    datetime. When that sum is past the last datetime, the advance raises
    OverflowError before the event is returned: the timer has taken a GUID
    and is otherwise as it was, not expired and still due. *)
Theorem alert_timer_fires_once label callback now alert_time to_time timer :
  Timer.__init__ label callback (alert_time - now) now (Some alert_time)
  = inr timer →
  let g := guid_generate TestGuidFactory_new in
  if decide (alert_time ≤ to_time) then
    if decide (alert_time + (alert_time - now) ≤ datetime_max) then
      ∃ timer',
        Timer.advance timer to_time
        = inr ([{| TimeEvent.label := label; TimeEvent.id := g.1;
                   TimeEvent.timestamp := alert_time |}], timer')
        ∧ Timer.expired timer' = true
    else
      Timer.advance timer to_time
      = inl (OverflowError, Timer.set_guid_factory g.2 timer)
  else Timer.advance timer to_time = inr ([], timer).
Proof.
  intros (Hpos & Hrange & _ & ->)%Timer_init_spec. cbv zeta. unfold Timer.advance.
  destruct (decide (alert_time ≤ to_time)) as [Hdue|Hearly].
  2: { rewrite Timer_advance_loop_idle; [done|]. right.
       cbn [Timer.next_time]. lia. }
  assert (∃ fuel, Timer.advance_fuel
                    {| Timer.label := label; Timer.callback := callback;
                       Timer.interval := alert_time - now;
                       Timer.start_time := now;
                       Timer.next_time := now + (alert_time - now);
                       Timer.stop_time := Some alert_time;
                       Timer.expired := false;
                       Timer._guid_factory := TestGuidFactory_new |} to_time
                  = S fuel) as [fuel ->].
  { unfold Timer.advance_fuel. cbn [Timer.next_time Timer.interval].
    assert (0 ≤ (to_time - (now + (alert_time - now))) `div` (alert_time - now))
      by (apply Z.div_pos; lia).
    exists (Z.to_nat ((to_time - (now + (alert_time - now)))
                        `div` (alert_time - now))).
    lia. }
  rewrite Timer_advance_loop_step.
  cbn [Timer.expired Timer.next_time negb andb].
  rewrite (proj2 (Z.leb_le _ _)) by lia.
  cbv zeta.
  unfold Timer.iterate_event, datetime_add, raise, mbind, result_bind, mret,
    result_ret.
  cbv zeta.
  cbn [Timer.stop_time Timer.set_next_time Timer.set_guid_factory Timer.next_time
         Timer.label Timer.interval Timer._guid_factory fst snd].
  rewrite (proj2 (Z.leb_le datetime_min _)) by lia.
  destruct (decide (alert_time + (alert_time - now) ≤ datetime_max)) as [Hmax|Hmax].
  - rewrite (proj2 (Z.leb_le _ datetime_max)) by lia.
    cbn [andb fst snd].
    rewrite (proj2 (Z.leb_le alert_time _)) by lia.
    rewrite Timer_advance_loop_idle by (left; reflexivity).
    eexists.
    split; [apply f_equal; apply (f_equal2 pair); [|reflexivity]|reflexivity].
    cbn [app]. do 2 f_equal. lia.
  - rewrite (proj2 (Z.leb_gt _ datetime_max)) by lia.
    reflexivity.
Qed.

End more_clock_properties.

Section more_clock_examples.
#[local] Existing Instance Sample.constant_guids.

(** A clock at time 0 with an alert at 10. *)
Lemma alert_clock_consistent clock :
  TestClock.set_time_alert "alert" 10 (Some "on_alert") (TestClock.__init__ 0)
  = inr clock →
  clock_consistent clock.
Proof. apply set_time_alert_consistent, init_consistent. Qed.

Lemma alert_clock_in_range clock :
  TestClock.set_time_alert "alert" 10 (Some "on_alert") (TestClock.__init__ 0)
  = inr clock →
  timers_in_range 25 clock.
Proof.
  intros [= <-] label timer Htimer. vm_compute in Htimer.
  apply elem_of_cons in Htimer as [[= -> ->]|[]%elem_of_nil].
  split; vm_compute; discriminate.
Qed.

Lemma Timer_advance_events_witness :
  let timer :=
    {| Timer.label := "every-3"; Timer.callback := "on_timer"; Timer.interval := 3;
       Timer.start_time := 0; Timer.next_time := 3; Timer.stop_time := None;
       Timer.expired := false; Timer._guid_factory := TestGuidFactory_new |} in
  ∃ r, Timer.advance timer 10 = inr r
       ∧ Z.of_nat (length r.1) = 3 ∧ Timer.next_time r.2 = 12.
Proof.
  intros timer.
  destruct (Timer_advance_events timer 10) as (Hreturned & Hreturns & _);
    [reflexivity|].
  destruct Hreturns as [r Hr]; [vm_compute; discriminate|vm_compute; discriminate|].
  exists r. split; [exact Hr|].
  destruct (Hreturned r Hr) as (_ & Hnext & _ & _ & Hcount).
  destruct Hcount as [Hcount _]; [reflexivity|reflexivity|].
  split; [exact Hcount|]. rewrite Hnext, Hcount. reflexivity.
Defined.

Lemma advance_time_fires_due_timers_witness :
  let clock :=
    match TestClock.set_time_alert "alert" 10 (Some "on_alert")
            (TestClock.__init__ 0) with
    | inr clock => clock
    | inl _ => TestClock.__init__ 0
    end in
  ∃ clock',
    TestClock.advance_time 25 clock
    = inr (advanced_events 25 (TestClock._timers clock), clock')
    ∧ TestClock._timers clock' = []
    ∧ TestClock.time_now clock' = 25.
Proof.
  intros clock.
  destruct (advance_time_fires_due_timers 25 10 clock)
    as (clock' & Hadvance & Htimers & Htime & _).
  - apply alert_clock_consistent. vm_compute. reflexivity.
  - vm_compute. reflexivity.
  - vm_compute. discriminate.
  - apply alert_clock_in_range. vm_compute. reflexivity.
  - exists clock'. split; [exact Hadvance|]. split; [|exact Htime].
    rewrite Htimers. vm_compute. reflexivity.
Defined.

Lemma clock_operations_keep_consistency_witness :
  let clock :=
    match TestClock.set_time_alert "alert" 10 (Some "on_alert")
            (TestClock.__init__ 0) with
    | inr clock => clock
    | inl _ => TestClock.__init__ 0
    end in
  clock_consistent (TestClock.cancel_timer "alert" clock)
  ∧ ∃ events clock',
      TestClock.advance_time 25 clock = inr (events, clock')
      ∧ clock_consistent clock'.
Proof.
  intros clock.
  destruct (clock_operations_keep_consistency clock)
    as (_ & _ & Hcancel & _ & Hadvance).
  - apply alert_clock_consistent. vm_compute. reflexivity.
  - split; [exact (Hcancel "alert")|].
    apply (proj1 (Hadvance 25)).
    apply alert_clock_in_range. vm_compute. reflexivity.
Defined.

Lemma cancel_timer_removes_its_label_witness :
  let clock :=
    match TestClock.set_time_alert "alert" 10 (Some "on_alert")
            (TestClock.__init__ 0) with
    | inr clock => clock
    | inl _ => TestClock.__init__ 0
    end in
  TestClock.get_timer_labels clock = ["alert"]
  ∧ TestClock.get_timer_labels (TestClock.cancel_all_timers clock) = []
  ∧ TestClock.timer_count (TestClock.cancel_all_timers clock) = 0.
Proof.
  intros clock.
  destruct (cancel_timer_removes_its_label "alert" clock)
    as (_ & _ & _ & Hlabels & Hcount & _).
  - apply alert_clock_consistent. vm_compute. reflexivity.
  - split; [vm_compute; reflexivity|]. split; [exact Hlabels|exact Hcount].
Defined.

Lemma alert_timer_fires_once_witness :
  ∃ timer timer',
    Timer.__init__ "alert" "on_alert" (10 - 0) 0 (Some 10) = inr timer
    ∧ Timer.advance timer 25
      = inr ([{| TimeEvent.label := "alert";
                 TimeEvent.id := "00000000-0000-0000-0000-000000000000";
                 TimeEvent.timestamp := 10 |}], timer')
    ∧ Timer.expired timer' = true.
Proof.
  eexists.
  destruct (alert_timer_fires_once "alert" "on_alert" 0 10 25 _ (reflexivity _))
    as (timer' & Hadvance & Hexpired).
  exists timer'. split; [reflexivity|]. split; [exact Hadvance|exact Hexpired].
Defined.

End more_clock_examples.

(** * Further properties of the order factory *)

Section more_factory_properties.
Context `{DoubleArith} `{Guids} `{OrderIds}.

(** The constructor of [Order] raises nothing but ConditionFailed. *)
Lemma Order_init_raises order_id symbol order_side order_type quantity init_id
    timestamp price label order_purpose time_in_force expire_time x :
  Order.__init__ order_id symbol order_side order_type quantity init_id timestamp
    price label order_purpose time_in_force expire_time = inl x →
  x = ConditionFailed.
Proof.
  unfold Order.__init__, Condition.not_equal, Condition.positive_int,
    Condition.not_none, Condition.none, Condition.true_, raise, mbind,
    result_bind, mret, result_ret.
  intros Hinit. repeat case_match; simplify_eq; done.
Qed.

(** What the constructor hands to a new order beside the fields of
    [Order_init_fields]. *)
Lemma Order_init_stamp order_id symbol order_side order_type quantity init_id
    timestamp price label order_purpose time_in_force expire_time order :
  Order.__init__ order_id symbol order_side order_type quantity init_id timestamp
    price label order_purpose time_in_force expire_time = inr order →
  Order.init_id order = init_id ∧ Order.timestamp order = timestamp
  ∧ Order.state order = OrderState.INITIALIZED.
Proof.
  unfold Order.__init__, Condition.not_equal, Condition.positive_int,
    Condition.not_none, Condition.none, Condition.true_, raise, mbind,
    result_bind, mret, result_ret.
  intros Hinit. repeat case_match; simplify_eq; done.
Qed.

Lemma new_order_spec symbol order_side order_type quantity price label order_purpose
    time_in_force expire_time factory :
  let now := TestClock.time_now (OrderFactory._clock factory) in
  let i := order_id_generate (OrderFactory._id_generator factory) now in
  let g := guid_generate (OrderFactory._guid_factory factory) in
  let r := OrderFactory._new_order symbol order_side order_type quantity price label
             order_purpose time_in_force expire_time factory in
  r.2 = {| OrderFactory._clock := OrderFactory._clock factory;
           OrderFactory._guid_factory := g.2; OrderFactory._id_generator := i.2 |}
  ∧ (quantity ≤ 0 → r.1 = inl ConditionFailed)
  ∧ ∀ order, r.1 = inr order →
      Order.id order = i.1 ∧ Order.init_id order = g.1
      ∧ Order.timestamp order = now
      ∧ Order.state order = OrderState.INITIALIZED
      ∧ Order.type order = order_type.
Proof.
  unfold OrderFactory._new_order. cbv zeta. cbn [fst snd].
  split_and!; [reflexivity| |].
  - intros Hquantity.
    unfold Order.__init__, Condition.not_equal, Condition.positive_int,
      Condition.true_, raise, mbind, result_bind, mret, result_ret.
    rewrite (proj2 (Z.ltb_ge _ _) Hquantity).
    repeat (case_bool_decide; [|reflexivity]). reflexivity.
  - intros order Hinit.
    destruct (Order_init_stamp _ _ _ _ _ _ _ _ _ _ _ _ _ Hinit) as (? & ? & ?).
    destruct (Order_init_fields _ _ _ _ _ _ _ _ _ _ _ _ _ Hinit)
      as (? & _ & _ & ? & _).
    by split_and!.
Qed.

(** X27. Every order method of the factory takes one order id and one GUID
    from its generators, whether the order is built or refused: the factory
    it leaves has both generators moved on by one and the same clock. An order
    that is built carries that id, that GUID as its initialization id and the
    time of the clock, and is INITIALIZED; a quantity that is not positive is
    refused with ConditionFailed. *)
Theorem factory_takes_an_id_per_call symbol order_side quantity price label
    order_purpose time_in_force expire_time factory :
  let now := TestClock.time_now (OrderFactory._clock factory) in
  let i := order_id_generate (OrderFactory._id_generator factory) now in
  let g := guid_generate (OrderFactory._guid_factory factory) in
  let moved :=
    {| OrderFactory._clock := OrderFactory._clock factory;
       OrderFactory._guid_factory := g.2; OrderFactory._id_generator := i.2 |} in
  Forall
    (λ r : Result Order.t * OrderFactory.t,
       r.2 = moved
       ∧ (quantity ≤ 0 → r.1 = inl ConditionFailed)
       ∧ ∀ order, r.1 = inr order →
           Order.id order = i.1 ∧ Order.init_id order = g.1
           ∧ Order.timestamp order = now
           ∧ Order.state order = OrderState.INITIALIZED)
    [OrderFactory.market symbol order_side quantity label order_purpose factory;
     OrderFactory.limit symbol order_side quantity price label order_purpose
       time_in_force expire_time factory;
     OrderFactory.stop_market symbol order_side quantity price label order_purpose
       time_in_force expire_time factory;
     OrderFactory.stop_limit symbol order_side quantity price label order_purpose
       time_in_force expire_time factory;
     OrderFactory.market_if_touched symbol order_side quantity price label
       order_purpose time_in_force expire_time factory;
     OrderFactory.fill_or_kill symbol order_side quantity label order_purpose
       factory;
     OrderFactory.immediate_or_cancel symbol order_side quantity label
       order_purpose factory].
Proof.
  cbv zeta.
  unfold OrderFactory.market, OrderFactory.limit, OrderFactory.stop_market,
    OrderFactory.stop_limit, OrderFactory.market_if_touched,
    OrderFactory.fill_or_kill, OrderFactory.immediate_or_cancel.
  repeat (apply Forall_cons; split); [..|by apply Forall_nil].
  all: match goal with
       | |- context [OrderFactory._new_order ?a ?b ?c ?d ?e ?f ?g ?h ?i ?j] =>
           destruct (new_order_spec a b c d e f g h i j) as (Hmoved & Hrefused & Hbuilt)
       end.
  all: cbv zeta in Hmoved, Hrefused, Hbuilt.
  all: split_and!; [exact Hmoved|exact Hrefused|].
  all: intros order Horder; destruct (Hbuilt order Horder) as (? & ? & ? & ? & _).
  all: by split_and!.
Qed.

(** What a factory method that built an order says of it. *)
Lemma new_order_built symbol order_side order_type quantity price label order_purpose
    time_in_force expire_time factory order :
  (OrderFactory._new_order symbol order_side order_type quantity price label
     order_purpose time_in_force expire_time factory).1 = inr order →
  Order.symbol order = symbol ∧ Order.side order = order_side
  ∧ Order.type order = order_type ∧ Order.quantity order = quantity
  ∧ Order.price order = price ∧ Order.purpose order = order_purpose
  ∧ Order.time_in_force order = time_in_force
  ∧ (order_type ∈ PRICED_ORDER_TYPES ↔ is_Some price).
Proof.
  unfold OrderFactory._new_order. cbv zeta. cbn [fst]. intros Hinit.
  destruct (Order_init_fields _ _ _ _ _ _ _ _ _ _ _ _ _ Hinit)
    as (_ & ? & ? & ? & ? & ? & _ & ? & ? & _).
  destruct (Order_init_price _ _ _ _ _ _ _ _ _ _ _ _ _ Hinit) as (_ & _ & ?).
  by split_and!.
Qed.

(** X28. An atomic order from [atomic_market] is a bracket around a market
    entry: the entry is a MARKET order for the given symbol, side and
    quantity, without price; the stop-loss is a STOP_MARKET order at the
    stop-loss price, which must be given, and the take-profit, present
    exactly when a take-profit price is given, a LIMIT order at that price;
    both children are for the symbol and quantity of the entry, on the
    opposite side, good till cancelled. The atomic order is identified by "A"
    followed by the id of its entry and carries the entry's timestamp. *)
Theorem atomic_market_builds_bracket symbol order_side quantity price_stop_loss
    price_take_profit label factory atomic :
  (OrderFactory.atomic_market symbol order_side quantity price_stop_loss
     price_take_profit label factory).1 = inr atomic →
  let entry := AtomicOrder.entry atomic in
  let opposite :=
    if bool_decide (order_side = OrderSide.SELL)
    then OrderSide.BUY else OrderSide.SELL in
  let child_of type purpose price child :=
    Order.type child = type ∧ Order.purpose child = purpose
    ∧ Order.price child = price ∧ Order.side child = opposite
    ∧ Order.symbol child = symbol ∧ Order.quantity child = quantity
    ∧ Order.time_in_force child = TimeInForce.GTC in
  (Order.type entry = OrderType.MARKET ∧ Order.purpose entry = OrderPurpose.ENTRY
   ∧ Order.price entry = None ∧ Order.side entry = order_side
   ∧ Order.symbol entry = symbol ∧ Order.quantity entry = quantity)
  ∧ is_Some price_stop_loss
  ∧ child_of OrderType.STOP_MARKET OrderPurpose.STOP_LOSS price_stop_loss
      (AtomicOrder.stop_loss atomic)
  ∧ AtomicOrder.has_take_profit atomic = bool_decide (is_Some price_take_profit)
  ∧ match AtomicOrder.take_profit atomic with
    | Some take_profit =>
        child_of OrderType.LIMIT OrderPurpose.TAKE_PROFIT price_take_profit
          take_profit
    | None => price_take_profit = None
    end
  ∧ AtomicOrder.id atomic = "A" +:+ Order.id entry
  ∧ AtomicOrder.timestamp atomic = Order.timestamp entry.
Proof.
  unfold OrderFactory.atomic_market, OrderFactory.market. cbv zeta.
  destruct (OrderFactory._new_order symbol order_side OrderType.MARKET quantity None
              _ OrderPurpose.ENTRY TimeInForce.DAY None factory)
    as [[x|entry] factory1] eqn:Hentry; cbn [fst snd]; [done|].
  apply (f_equal fst) in Hentry. cbn [fst] in Hentry.
  apply new_order_built in Hentry
    as (Hsymbol & Hside & Htype & Hquantity & Hprice & Hpurpose & _).
  unfold OrderFactory._create_atomic_order, OrderFactory.stop_market,
    OrderFactory.limit.
  cbv zeta. rewrite Hsymbol, Hside, Hquantity.
  destruct (OrderFactory._new_order symbol _ OrderType.STOP_MARKET quantity
              price_stop_loss _ OrderPurpose.STOP_LOSS TimeInForce.GTC None factory1)
    as [[x|stop_loss] factory2] eqn:Hstop; cbn [fst snd]; [done|].
  apply (f_equal fst) in Hstop. cbn [fst] in Hstop.
  apply new_order_built in Hstop
    as (Hsymbol1 & Hside1 & Htype1 & Hquantity1 & Hprice1 & Hpurpose1 & Hgtc1
        & Hpriced1).
  assert (is_Some price_stop_loss) as Hgiven.
  { apply Hpriced1. unfold PRICED_ORDER_TYPES. set_solver. }
  destruct price_take_profit as [price|]; cbn [fst snd].
  - destruct (OrderFactory._new_order symbol _ OrderType.LIMIT quantity (Some price)
                _ OrderPurpose.TAKE_PROFIT TimeInForce.GTC None factory2)
      as [[x|take_profit] factory3] eqn:Hprofit; cbn [fst snd]; [done|].
    apply (f_equal fst) in Hprofit. cbn [fst] in Hprofit.
    apply new_order_built in Hprofit
      as (Hsymbol2 & Hside2 & Htype2 & Hquantity2 & Hprice2 & Hpurpose2 & Hgtc2 & _).
    intros [= <-]. cbv zeta.
    cbn [AtomicOrder.entry AtomicOrder.stop_loss AtomicOrder.take_profit
           AtomicOrder.has_take_profit AtomicOrder.id AtomicOrder.timestamp
           AtomicOrder.__init__].
    split_and!; try done.
    all: rewrite bool_decide_eq_true_2 by done.
    all: by rewrite bool_decide_eq_true_2 by (by eexists).
  - intros [= <-]. cbv zeta.
    cbn [AtomicOrder.entry AtomicOrder.stop_loss AtomicOrder.take_profit
           AtomicOrder.has_take_profit AtomicOrder.id AtomicOrder.timestamp
           AtomicOrder.__init__].
    split_and!; try done.
    all: rewrite bool_decide_eq_false_2 by (intros Hne; by apply Hne).
    all: by rewrite bool_decide_eq_false_2 by (by intros [? ?]).
Qed.

(** X29. Without a stop-loss price no atomic order is built: [atomic_market],
    [atomic_limit] and [atomic_stop_market] raise ConditionFailed, whatever
    else they are given, and when the entry order itself was valid the
    factory has by then taken two order ids, one for the entry and one for
    the stop-loss it could not build. *)
Theorem atomic_order_needs_stop_loss symbol order_side quantity price_entry
    price_take_profit label time_in_force expire_time factory :
  let now := TestClock.time_now (OrderFactory._clock factory) in
  let first := order_id_generate (OrderFactory._id_generator factory) now in
  let second := order_id_generate first.2 now in
  let refused (entry : Result Order.t * OrderFactory.t)
      (r : Result AtomicOrder.t * OrderFactory.t) :=
    r.1 = inl ConditionFailed
    ∧ (is_ok entry.1 = true → OrderFactory._id_generator r.2 = second.2) in
  refused
    (OrderFactory.market symbol order_side quantity ((λ l, l +:+ "_E") <$> label)
       OrderPurpose.ENTRY factory)
    (OrderFactory.atomic_market symbol order_side quantity None price_take_profit
       label factory)
  ∧ refused
      (OrderFactory.limit symbol order_side quantity price_entry label
         OrderPurpose.ENTRY time_in_force expire_time factory)
      (OrderFactory.atomic_limit symbol order_side quantity price_entry None
         price_take_profit label time_in_force expire_time factory)
  ∧ refused
      (OrderFactory.stop_market symbol order_side quantity price_entry label
         OrderPurpose.ENTRY time_in_force expire_time factory)
      (OrderFactory.atomic_stop_market symbol order_side quantity price_entry None
         price_take_profit label time_in_force expire_time factory).
Proof.
  cbv zeta.
  unfold OrderFactory.atomic_market, OrderFactory.atomic_limit,
    OrderFactory.atomic_stop_market, OrderFactory.market, OrderFactory.limit,
    OrderFactory.stop_market.
  cbv zeta.
  split_and!.
  all: match goal with
       | |- context [OrderFactory._new_order ?a ?b ?c ?d ?e ?f ?g ?h ?i ?j] =>
           destruct (new_order_spec a b c d e f g h i j) as (Hmoved & _);
           cbv zeta in Hmoved;
           destruct (OrderFactory._new_order a b c d e f g h i j)
             as [[x|entry] factory1] eqn:Hentry
       end.
  all: cbn [fst snd is_ok] in *.
  all: try done.
  all: try (f_equal; apply (f_equal fst) in Hentry; cbn [fst] in Hentry;
            unfold OrderFactory._new_order in Hentry; cbv zeta in Hentry;
            cbn [fst] in Hentry; by eapply Order_init_raises).
  all: unfold OrderFactory._create_atomic_order, OrderFactory.stop_market.
  all: cbv zeta.
  all: match goal with
       | |- context [OrderFactory._new_order ?a ?b ?c ?d ?e ?f ?g ?h ?i ?j] =>
           destruct (new_order_spec a b c d e f g h i j) as (Hmoved1 & _);
           cbv zeta in Hmoved1;
           destruct (OrderFactory._new_order a b c d e f g h i j)
             as [[x|stop_loss] factory2] eqn:Hstop
       end.
  all: cbn [fst snd] in *.
  all: apply (f_equal fst) in Hstop; cbn [fst] in Hstop.
  all: try (apply new_order_built in Hstop as (_ & _ & _ & _ & _ & _ & _ & Hpriced);
            exfalso;
            assert (is_Some (@None Price)) as [? ?]
              by (apply Hpriced; unfold PRICED_ORDER_TYPES; set_solver);
            done).
  all: try (f_equal; unfold OrderFactory._new_order in Hstop; cbv zeta in Hstop;
            cbn [fst] in Hstop; by eapply Order_init_raises).
  all: intros _; subst factory2 factory1; reflexivity.
Qed.

End more_factory_properties.

Section more_factory_examples.
#[local] Existing Instance Sample.exact_doubles.
#[local] Existing Instance Sample.constant_guids.
#[local] Existing Instance Sample.counting_order_ids.

Lemma atomic_market_builds_bracket_witness :
  match (OrderFactory.atomic_market "AAPL" OrderSide.BUY 100
           (Some (Sample.cents 14000)) (Some (Sample.cents 16000)) (Some "B1")
           Sample.factory).1 with
  | inr atomic =>
      Order.side (AtomicOrder.stop_loss atomic) = OrderSide.SELL
      ∧ Order.price (AtomicOrder.stop_loss atomic) = Some (Sample.cents 14000)
      ∧ AtomicOrder.has_take_profit atomic = true
  | inl _ => False
  end.
Proof.
  destruct (OrderFactory.atomic_market "AAPL" OrderSide.BUY 100
              (Some (Sample.cents 14000)) (Some (Sample.cents 16000)) (Some "B1")
              Sample.factory).1 as [x|atomic] eqn:Hbuilt;
    [vm_compute in Hbuilt; discriminate|].
  destruct (atomic_market_builds_bracket "AAPL" OrderSide.BUY 100
              (Some (Sample.cents 14000)) (Some (Sample.cents 16000)) (Some "B1")
              Sample.factory atomic Hbuilt)
    as (_ & _ & (_ & _ & Hprice & Hside & _) & Hprofit & _).
  split; [exact Hside|]. split; [exact Hprice|exact Hprofit].
Defined.

End more_factory_examples.
